(** * zoinks: the market-correlation agent (src/bot.py, src/config.py)

    A shallow embedding of [MarketCorrelationAgent]: the duplicate guard
    ([_extract_price_data], [_is_duplicate_analysis]), the post formatter
    ([_format_tweet_analysis]), the two retrying calls ([_get_crypto_data],
    [_analyze_market_sentiment]), the history reader ([_get_last_posts]),
    the publisher loop ([_post_analysis]), the cycle
    ([_run_correlation_cycle]), the login ([_login_to_twitter],
    [_verify_login]) and the main loop ([start], [_cleanup]); and of the
    construction and validation of [Config] ([__init__],
    [_validate_config]).

    Conventions.
    - A Python [str] is a [string]: a character is a code point below 256.
      On that range the class [\d] of [re] is exactly [0-9].
    - A Python [float] is a binary64 [float] (round to nearest even), with
      Python's one deviation from IEEE written out: [/] raises
      [ZeroDivisionError] on a zero divisor.
    - A function that can raise returns a [result]; [try/except] is a match
      on it.
    - The collaborators (HTTP session, generation client, browser, clock)
      are an [Env] of answers indexed by the number of the call; the effects
      the code performs ([time.sleep], log lines, calls, posts) are recorded
      in a [World] that is threaded through.
    - The browser during a login is a [Browser], its answer to each call;
      what the login, the setup and the cleanup do is the list of their
      [step]s in order.
    - The logger (utils/logger.py) records a line and returns; an exception
      is a subclass of [Exception], the ones [except Exception] catches. *)

From stdpp Require Import gmap strings.
From Stdlib Require Import ZArith String Ascii List Bool Lia ZifyBool Floats DecimalString.
From Stdlib Require DecimalFacts DecimalPos DecimalN.
Import ListNotations.

Local Open Scope string_scope.
Local Open Scope Z_scope.

(** ** Exceptions and results *)

Inductive exn : Type :=
| ValueError            (* float(), datetime.strptime, datetime(...) *)
| ZeroDivisionError     (* float division by zero *)
| Timeout               (* requests.exceptions.Timeout and its subclasses *)
| ConnectionError       (* requests.exceptions.ConnectionError (not a timeout) *)
| HTTPError             (* response.raise_for_status() *)
| KeyError              (* a missing dict key *)
| OtherError.           (* any other subclass of Exception *)

Inductive result (A : Type) : Type :=
| Ok (a : A)
| Raise (e : exn).
Arguments Ok {A} a.
Arguments Raise {A} e.

Definition rbind {A B} (r : result A) (f : A -> result B) : result B :=
  match r with
  | Ok a => f a
  | Raise e => Raise e
  end.

Notation "'do' x <- c1 'in' c2" := (rbind c1 (fun x => c2))
  (at level 10, x name, c1 at level 100, c2 at level 200).

(** ** Text *)

Definition cclass := ascii -> bool.

Definition code (c : ascii) : Z := Z.of_nat (nat_of_ascii c).

Definition in_range (lo hi : ascii) : cclass :=
  fun c => (code lo <=? code c) && (code c <=? code hi).

Definition one_of (s : string) : cclass :=
  fun c => existsb (Ascii.eqb c) (list_ascii_of_string s).

Definition cor (p q : cclass) : cclass := fun c => p c || q c.

(** [\d] on code points below 256. *)
Definition digit : cclass := in_range "0" "9".

(** [\s] of a [str] pattern on code points below 256:
    [ \t\n\r\f\v], the separators 0x1c-0x1f, NEL 0x85 and NBSP 0xa0. *)
Definition space : cclass :=
  fun c => let n := code c in
    (n =? 32) || ((9 <=? n) && (n <=? 13)) || ((28 <=? n) && (n <=? 31))
    || (n =? 133) || (n =? 160).

Fixpoint drop (n : nat) (s : string) : string :=
  match n, s with
  | O, _ => s
  | S n', String _ s' => drop n' s'
  | S _, EmptyString => EmptyString
  end.

Fixpoint take (n : nat) (s : string) : string :=
  match n, s with
  | O, _ => EmptyString
  | S n', String c s' => String c (take n' s')
  | S _, EmptyString => EmptyString
  end.

(** [s.replace(c, '')] for a one-character [c]. *)
Fixpoint remove_char (c : ascii) (s : string) : string :=
  match s with
  | EmptyString => EmptyString
  | String d s' => if Ascii.eqb c d then remove_char c s' else String d (remove_char c s')
  end.

Fixpoint all_chars (p : cclass) (s : string) : bool :=
  match s with
  | EmptyString => true
  | String c s' => p c && all_chars p s'
  end.

(** [s.split(sep)] for a one-character [sep]: never empty. *)
Fixpoint split_on (sep : ascii) (s : string) : list string :=
  match s with
  | EmptyString => [EmptyString]
  | String c s' =>
      if Ascii.eqb c sep then EmptyString :: split_on sep s'
      else match split_on sep s' with
           | [] => [String c EmptyString]
           | l :: ls => String c l :: ls
           end
  end.

(** ** The fragment of [re] the program uses

    Backtracking matching in continuation-passing style: alternatives are
    tried left to right, [+] is greedy, and a group's text is recorded when
    the group closes. The only repetition in the program's patterns is a
    character class under [+]. *)

Inductive regex : Type :=
| Lit (s : string)          (* literal characters *)
| Cls (p : cclass)          (* one character of a class *)
| Plus (p : cclass)         (* [class]+ *)
| Seq (r1 r2 : regex)
| Alt (r1 r2 : regex)       (* r1|r2 *)
| Grp (r : regex).          (* ( r ) *)

Fixpoint lit_match {A} (l s : string) (k : string -> option A) : option A :=
  match l with
  | EmptyString => k s
  | String c l' =>
      match s with
      | String d s' => if Ascii.eqb c d then lit_match l' s' k else None
      | EmptyString => None
      end
  end.

Fixpoint plus_match {A} (p : cclass) (s : string) (k : string -> option A) : option A :=
  match s with
  | String c s' =>
      if p c then
        match plus_match p s' k with
        | Some a => Some a
        | None => k s'
        end
      else None
  | EmptyString => None
  end.

Fixpoint rmatch {A} (r : regex) (s : string) (caps : list string)
         (k : string -> list string -> option A) : option A :=
  match r with
  | Lit l => lit_match l s (fun s' => k s' caps)
  | Cls p =>
      match s with
      | String c s' => if p c then k s' caps else None
      | EmptyString => None
      end
  | Plus p => plus_match p s (fun s' => k s' caps)
  | Seq r1 r2 => rmatch r1 s caps (fun s' caps' => rmatch r2 s' caps' k)
  | Alt r1 r2 =>
      match rmatch r1 s caps k with
      | Some a => Some a
      | None => rmatch r2 s caps k
      end
  | Grp r1 =>
      rmatch r1 s caps (fun s' caps' =>
        k s' (caps' ++ [take (String.length s - String.length s') s])%list)
  end.

(** [re.match(r, s)]: the groups and the unconsumed rest. *)
Definition re_match (r : regex) (s : string) : option (list string * string) :=
  rmatch r s [] (fun s' caps => Some (caps, s')).

(** [re.search(r, s)]: the first start position that matches wins. *)
Fixpoint re_search (r : regex) (s : string) : option (list string) :=
  match re_match r s with
  | Some (caps, _) => Some caps
  | None =>
      match s with
      | String _ s' => re_search r s'
      | EmptyString => None
      end
  end.

(** [m.group(1)] of a pattern with one group. *)
Definition group1 (m : option (list string)) : option string :=
  match m with
  | Some (g :: _) => Some g
  | _ => None
  end.

Fixpoint seqs (rs : list regex) : regex :=
  match rs with
  | [] => Lit ""
  | [r] => r
  | r :: rs' => Seq r (seqs rs')
  end.

Fixpoint alts (r : regex) (rs : list regex) : regex :=
  match rs with
  | [] => r
  | r' :: rs' => Alt r (alts r' rs')
  end.

(** ** float *)

Definition digit_val (c : ascii) : Z := code c - 48.

(** [int(s)] for a text of decimal digits. *)
Fixpoint int_of_digits (s : string) (acc : Z) : Z :=
  match s with
  | EmptyString => acc
  | String c s' => int_of_digits s' (10 * acc + digit_val c)
  end.

Definition SF_of_Z (m : Z) : spec_float :=
  match m with
  | Z0 => S754_zero false
  | Zpos p => S754_finite false p 0
  | Zneg p => S754_finite true p 0
  end.

(** The decimal [m / 10^k] rounded once, to the nearest binary64 (ties to
    even): what [float] makes of a decimal text. The division is done on
    the exact integers; it overflows to infinity and underflows to zero. *)
Definition decimal_to_float (m : Z) (k : nat) : float :=
  SF2Prim (SFdiv prec emax (SF_of_Z m) (SF_of_Z (10 ^ Z.of_nat k))).

(** The text before the first point, and the text after it if there is one. *)
Fixpoint split_point (s : string) : string * option string :=
  match s with
  | EmptyString => (EmptyString, None)
  | String c s' =>
      if Ascii.eqb c "." then (EmptyString, Some s')
      else let (a, b) := split_point s' in (String c a, b)
  end.

(** [float(s)] for a text [s] over [0-9.], the only texts the extraction
    passes to it (see [price_text_chars]): digits with at most one point
    and at least one digit, else [ValueError]. *)
Definition python_float (s : string) : result float :=
  let (ip, fp) := split_point s in
  let fp := match fp with Some f => f | None => EmptyString end in
  if all_chars digit ip && all_chars digit fp
     && negb (String.eqb (ip ++ fp) EmptyString)
  then Ok (decimal_to_float (int_of_digits (ip ++ fp) 0) (String.length fp))
  else Raise ValueError.

(** [x / y]: Python raises on a zero divisor (of either sign) before
    dividing. *)
Definition float_div (x y : float) : result float :=
  if PrimFloat.eqb y 0%float then Raise ZeroDivisionError
  else Ok (x / y)%float.

(** ** datetime *)

Record datetime : Type := mk_datetime
  { year : Z; month : Z; day : Z; hour : Z; minute : Z; second : Z }.

Definition _is_leap (y : Z) : bool :=
  (y mod 4 =? 0) && (negb (y mod 100 =? 0) || (y mod 400 =? 0)).

Definition _days_in_month (y m : Z) : Z :=
  if (m =? 2) && _is_leap y then 29
  else nth (Z.to_nat m) [0; 31; 28; 31; 30; 31; 30; 31; 31; 30; 31; 30; 31] 0.

Definition _days_before_year (y : Z) : Z :=
  let y' := y - 1 in y' * 365 + y' / 4 - y' / 100 + y' / 400.

Definition _days_before_month (y m : Z) : Z :=
  nth (Z.to_nat m) [0; 0; 31; 59; 90; 120; 151; 181; 212; 243; 273; 304; 334] 0
  + (if (2 <? m) && _is_leap y then 1 else 0).

Definition _ymd2ord (y m d : Z) : Z :=
  _days_before_year y + _days_before_month y m + d.

Definition toordinal (t : datetime) : Z := _ymd2ord (year t) (month t) (day t).

(** [datetime(y, m, d, H, M, S)]: the constructor's range checks. *)
Definition new_datetime (y m d hh mm ss : Z) : result datetime :=
  if (1 <=? y) && (y <=? 9999) && (1 <=? m) && (m <=? 12)
     && (1 <=? d) && (d <=? _days_in_month y m)
     && (0 <=? hh) && (hh <=? 23) && (0 <=? mm) && (mm <=? 59)
     && (0 <=? ss) && (ss <=? 59)
  then Ok (mk_datetime y m d hh mm ss)
  else Raise ValueError.

(** [(a - b).total_seconds()], in whole seconds: neither datetime carries
    microseconds, and every such difference is below 2^53, so the float
    Python returns is this integer exactly. *)
Definition total_seconds (a b : datetime) : Z :=
  (toordinal a - toordinal b) * 86400
  + ((hour a * 3600 + minute a * 60 + second a)
     - (hour b * 3600 + minute b * 60 + second b)).

(** The pattern [_strptime] compiles for ['%Y-%m-%d %H:%M:%S']: each
    directive's group, and [\s+] for the blank. *)
Definition strptime_regex : regex :=
  seqs
    [ Grp (seqs [Cls digit; Cls digit; Cls digit; Cls digit]);          (* %Y *)
      Lit "-";
      Grp (alts (Seq (Lit "1") (Cls (in_range "0" "2")))                (* %m *)
                [Seq (Lit "0") (Cls (in_range "1" "9"));
                 Cls (in_range "1" "9")]);
      Lit "-";
      Grp (alts (Seq (Lit "3") (Cls (in_range "0" "1")))                (* %d *)
                [Seq (Cls (in_range "1" "2")) (Cls digit);
                 Seq (Lit "0") (Cls (in_range "1" "9"));
                 Cls (in_range "1" "9");
                 Seq (Lit " ") (Cls (in_range "1" "9"))]);
      Plus space;
      Grp (alts (Seq (Lit "2") (Cls (in_range "0" "3")))                (* %H *)
                [Seq (Cls (in_range "0" "1")) (Cls digit);
                 Cls digit]);
      Lit ":";
      Grp (alts (Seq (Cls (in_range "0" "5")) (Cls digit))              (* %M *)
                [Cls digit]);
      Lit ":";
      Grp (alts (Seq (Lit "6") (Cls (in_range "0" "1")))                (* %S *)
                [Seq (Cls (in_range "0" "5")) (Cls digit);
                 Cls digit]) ].

(** [int(s)] for a group of the pattern above ([int] skips the blank a
    day may start with). *)
Definition int_of_group (s : string) : Z :=
  int_of_digits (remove_char " " s) 0.

(** [datetime.strptime(s, '%Y-%m-%d %H:%M:%S')]: the pattern must match at
    the start and leave nothing unconverted; the fields must then make a
    date and a time. Every failure is a [ValueError]. *)
Definition strptime (s : string) : result datetime :=
  match re_match strptime_regex s with
  | Some ([gY; gm; gd; gH; gM; gS], EmptyString) =>
      new_datetime (int_of_group gY) (int_of_group gm) (int_of_group gd)
                   (int_of_group gH) (int_of_group gM) (int_of_group gS)
  | _ => Raise ValueError
  end.

(** ** Log lines

    One constructor per call of the logger in the functions embedded here,
    with the values that tell one line from another; the rendering of the
    line is the logger's. *)

Inductive log_event : Type :=
| price_extraction_error (e : exn)          (* log_error("Price Extraction", str(e)) *)
| skipping_minimal_change (btc_change eth_change : float)
| coingecko_request (success : bool)        (* log_coingecko_request("/markets", ...) *)
| missing_btc_or_eth                        (* log_error("Crypto Data", ...) *)
| fetched_crypto_data                       (* "Successfully fetched crypto data for ..." *)
| coingecko_timeout (attempt wait : Z)
| coingecko_api_error (e : exn)             (* log_error("CoinGecko API", str(e)) *)
| coingecko_max_retries                     (* log_error("CoinGecko API", "Maximum retries reached") *)
| claude_analysis (btc_price eth_price : float) (preview : string)
| claude_api_error (attempt wait : Z)
| sentiment_max_retries                     (* log_error("Market Sentiment Analysis", ...) *)
| get_last_posts_error (e : exn)            (* log_error("Get Last Posts", str(e)) *)
| tweet_posted
| post_button_not_found
| tweet_posting_error (attempt : Z) (e : exn)
| waiting_before_retry (wait : Z)
| tweet_max_retries                         (* log_error("Tweet Creation", ...) *)
| failed_to_get_crypto_data
| cycle_fetched_crypto_data
| failed_to_generate_analysis
| cycle_generated_analysis
| posted_to_twitter
| failed_to_post
| skipping_duplicate
| correlation_cycle_error (e : exn).        (* log_error("Correlation Cycle", str(e)) *)

(** ** DuplicateGuard: [_extract_price_data], [_is_duplicate_analysis] *)

(** The dict the extraction returns: [None] is [{}]; a non-empty dict has
    ['btc'] and ['eth'], and ['timestamp'] when [timestamp] is [Some]. *)
Record price_data : Type := mk_price_data
  { btc : float; eth : float; timestamp : option datetime }.

(** [r'Analysis - ([\d-]+ [\d:]+)'] *)
Definition timestamp_re : regex :=
  Seq (Lit "Analysis - ")
      (Grp (seqs [Plus (cor digit (one_of "-")); Lit " "; Plus (cor digit (one_of ":"))])).

(** [r'BTC: \$([0-9,.]+)'] and [r'ETH: \$([0-9,.]+)'] *)
Definition price_class : cclass := cor (in_range "0" "9") (one_of ",.").
Definition btc_re : regex := Seq (Lit "BTC: $") (Grp (Plus price_class)).
Definition eth_re : regex := Seq (Lit "ETH: $") (Grp (Plus price_class)).

(** The body of the [try]: [Ok None] is falling out of the [if] to the
    final [return {}]. *)
Definition extract_try (tweet : string) : result (option price_data) :=
  let timestamp_match := group1 (re_search timestamp_re tweet) in
  let btc_match := group1 (re_search btc_re tweet) in
  let eth_match := group1 (re_search eth_re tweet) in
  match btc_match, eth_match with
  | Some b, Some e =>
      do vb <- python_float (remove_char "," b) in
      do ve <- python_float (remove_char "," e) in
      match timestamp_match with
      | Some t =>
          do ts <- strptime t in
          Ok (Some (mk_price_data vb ve (Some ts)))
      | None => Ok (Some (mk_price_data vb ve None))
      end
  | _, _ => Ok None
  end.

(** [except Exception] logs and falls to [return {}]: the log lines and
    the dict. *)
Definition _extract_price_data (tweet : string) : list log_event * option price_data :=
  match extract_try tweet with
  | Ok d => ([], d)
  | Raise e => ([price_extraction_error e], None)
  end.

#[local] Set Warnings "-inexact-float".
Definition MIN_CHANGE_THRESHOLD : float := 0.01%float.
#[local] Set Warnings "inexact-float".

(** [abs((new - old) / old * 100)] *)
Definition price_change (new old : float) : result float :=
  do q <- float_div (new - old)%float old in
  Ok (PrimFloat.abs (q * 100)%float).

(** One pass of the loop body over a parsed entry: [Ok (Some changes)] is
    the [return True], [Ok None] goes on to the next post. *)
Definition compare_with (new_data old_data : price_data) : result (option (float * float)) :=
  do btc_change <- price_change (btc new_data) (btc old_data) in
  do eth_change <- price_change (eth new_data) (eth old_data) in
  if PrimFloat.ltb btc_change MIN_CHANGE_THRESHOLD
     && PrimFloat.ltb eth_change MIN_CHANGE_THRESHOLD
  then
    match timestamp new_data, timestamp old_data with
    | Some new_ts, Some old_ts =>
        let time_diff := total_seconds new_ts old_ts in
        if time_diff <? 30 then Ok (Some (btc_change, eth_change)) else Ok None
    | _, _ => Ok None
    end
  else Ok None.

(** The [for post in last_posts] loop. *)
Fixpoint duplicate_loop (new_data : price_data) (last_posts : list string)
  : list log_event * result bool :=
  match last_posts with
  | [] => ([], Ok false)
  | post :: rest =>
      let (l1, old) := _extract_price_data post in
      match old with
      | None =>
          let (l2, r) := duplicate_loop new_data rest in ((l1 ++ l2)%list, r)
      | Some old_data =>
          match compare_with new_data old_data with
          | Raise e => (l1, Raise e)
          | Ok (Some (b, e)) => ((l1 ++ [skipping_minimal_change b e])%list, Ok true)
          | Ok None =>
              let (l2, r) := duplicate_loop new_data rest in ((l1 ++ l2)%list, r)
          end
      end
  end.

Definition _is_duplicate_analysis (new_tweet : string) (last_posts : list string)
  : list log_event * result bool :=
  let (l0, new) := _extract_price_data new_tweet in
  match new with
  | None => (l0, Ok false)
  | Some new_data =>
      let (l, r) := duplicate_loop new_data last_posts in ((l0 ++ l)%list, r)
  end.

(** ** Configuration (src/config.py) *)

Record TweetConstraints : Type :=
  { MIN_LENGTH : Z; MAX_LENGTH : Z; HARD_STOP_LENGTH : Z }.

Definition TWEET_CONSTRAINTS : TweetConstraints :=
  {| MIN_LENGTH := 220; MAX_LENGTH := 270; HARD_STOP_LENGTH := 280 |}.

(** ** Formatting numbers and dates *)

Definition LF : ascii := ascii_of_nat 10.
Definition nl : string := String LF EmptyString.

Definition len (s : string) : Z := Z.of_nat (String.length s).

(** [str(n)] for [0 <= n]. *)
Definition decimal (n : Z) : string :=
  DecimalString.NilZero.string_of_uint (N.to_uint (Z.to_N n)).

(** [n] in at least [w] digits, zero-filled on the left. *)
Fixpoint zeros (k : nat) : string :=
  match k with
  | O => EmptyString
  | S k' => String "0" (zeros k')
  end.

Definition zero_fill (w : nat) (n : Z) : string :=
  let d := decimal n in zeros (w - String.length d) ++ d.

(** The thousands separator of the [,] option: a comma before every group
    of three digits counted from the right. *)
Fixpoint group_thousands (digits : string) : string :=
  match digits with
  | EmptyString => EmptyString
  | String c rest =>
      String c
        (if negb (String.eqb rest EmptyString) && (Nat.modulo (String.length rest) 3 =? 0)%nat
         then String "," (group_thousands rest)
         else group_thousands rest)
  end.

(** [round(m * 2^e * 10^p)] to the nearest integer, ties to even: the
    digits [format] prints for a finite binary64 [m * 2^e]. *)
Definition scaled_round (m e : Z) (p : nat) : Z :=
  let n := m * 10 ^ Z.of_nat p in
  if 0 <=? e then n * 2 ^ e
  else
    let d := 2 ^ (- e) in
    let q := n / d in
    let r := n mod d in
    if (2 * r <? d) then q
    else if (d <? 2 * r) then q + 1
    else if Z.even q then q else q + 1.

(** [format(x, ',.pf')] when [comma], [format(x, '.pf')] otherwise. *)
Definition format_f (comma : bool) (p : nat) (x : float) : string :=
  match Prim2SF x with
  | S754_nan => "nan"
  | S754_infinity s => if s then "-inf" else "inf"
  | S754_zero s =>
      (if s then "-" else "") ++ "0" ++ (if (0 <? p)%nat then "." ++ zeros p else "")
  | S754_finite s m e =>
      let n := scaled_round (Zpos m) e p in
      let ip := decimal (n / 10 ^ Z.of_nat p) in
      (if s then "-" else "")
      ++ (if comma then group_thousands ip else ip)
      ++ (if (0 <? p)%nat then "." ++ zero_fill p (n mod 10 ^ Z.of_nat p) else "")
  end.

(** [t.strftime('%Y-%m-%d %H:%M:%S')] for a clock reading (a year of four
    digits). *)
Definition strftime (t : datetime) : string :=
  zero_fill 4 (year t) ++ "-" ++ zero_fill 2 (month t) ++ "-" ++ zero_fill 2 (day t)
  ++ " " ++ zero_fill 2 (hour t) ++ ":" ++ zero_fill 2 (minute t) ++ ":"
  ++ zero_fill 2 (second t).

(** ** PostFormatter: [_format_tweet_analysis] *)

(** A coin record of the markets response, with the fields the agent
    reads. *)
Record coin : Type := mk_coin
  { symbol : string;
    current_price : float;
    price_change_percentage_24h : float;
    total_volume : float }.

Definition base_tweet_of (now : datetime) (btc eth : coin) : string :=
  "ETH/BTC Market Analysis - " ++ strftime now ++ nl ++ nl
  ++ "BTC: $" ++ format_f true 2 (current_price btc)
  ++ " (" ++ format_f false 2 (price_change_percentage_24h btc) ++ "%)" ++ nl
  ++ "ETH: $" ++ format_f true 2 (current_price eth)
  ++ " (" ++ format_f false 2 (price_change_percentage_24h eth) ++ "%)" ++ nl ++ nl.

Definition hashtags : string := "#Crypto #ETH #BTC".

(** The [for line in analysis_lines] loop: the value of
    [formatted_analysis] when it ends or breaks. *)
Fixpoint fit_lines (base_tweet formatted_analysis : string) (analysis_lines : list string)
  : string :=
  match analysis_lines with
  | [] => formatted_analysis
  | line :: rest =>
      if len (base_tweet ++ formatted_analysis ++ line ++ nl ++ nl ++ hashtags)
         <=? HARD_STOP_LENGTH TWEET_CONSTRAINTS
      then fit_lines base_tweet (formatted_analysis ++ line ++ nl) rest
      else formatted_analysis
  end.

(** [now] is the reading of [datetime.now()]. *)
Definition _format_tweet_analysis (now : datetime) (analysis : string) (btc eth : coin)
  : string :=
  let base_tweet := base_tweet_of now btc eth in
  let analysis_lines := split_on LF analysis in
  let formatted_analysis := fit_lines base_tweet EmptyString analysis_lines in
  let final_tweet := base_tweet ++ formatted_analysis ++ nl ++ hashtags in
  if len final_tweet <? MIN_LENGTH TWEET_CONSTRAINTS
  then final_tweet ++ nl ++ "Detailed analysis available."
  else final_tweet.

(** ** Collaborators and effects *)

(** What the [try] of [_get_crypto_data] meets: an exception of
    [session.get] or [raise_for_status], an exception after the request
    was logged as a success (decoding the body, indexing the records), or
    the decoded list of coin records. *)
Inductive http_outcome : Type :=
| GetRaises (e : exn)
| JsonRaises (e : exn)
| Json (coins : list coin).

(** One attempt of [_post_analysis]: the Post button was found and
    clicked, no locator found it, or a browser call raised. *)
Inductive post_outcome : Type :=
| Clicked
| NoButton
| PostRaises (e : exn).

(** The collaborators' answers. A call is identified by its number, from
    0, among the calls of its kind. *)
Record Env : Type :=
  { session_get : nat -> http_outcome;
    (* messages.create on the prompt built from btc and eth:
       response.content[0].text, or what was raised on the way *)
    messages_create : nat -> coin -> coin -> result string;
    datetime_now : nat -> datetime;
    (* the texts of the tweets found on the profile page *)
    tweet_texts : nat -> result (list string);
    compose_tweet : nat -> string -> post_outcome }.

(** The effects performed so far. [slept] has the waits of the retry
    paths, in seconds and in order; the pacing sleeps inside the browser
    automation belong to that collaborator and are not recorded. *)
Record World : Type := mk_World
  { slept : list Z;
    logged : list log_event;
    n_get : nat;
    n_create : nat;
    n_now : nat;
    n_profile : nat;
    n_compose : nat;
    posted : list string }.

Definition world0 : World := mk_World [] [] 0 0 0 0 0 [].

Definition sleep (s : Z) (w : World) : World :=
  mk_World (slept w ++ [s]) (logged w) (n_get w) (n_create w) (n_now w)
           (n_profile w) (n_compose w) (posted w).

Definition emit_all (l : list log_event) (w : World) : World :=
  mk_World (slept w) (logged w ++ l) (n_get w) (n_create w) (n_now w)
           (n_profile w) (n_compose w) (posted w).

Definition emit (ev : log_event) (w : World) : World := emit_all [ev] w.

Definition count_get (w : World) : World :=
  mk_World (slept w) (logged w) (S (n_get w)) (n_create w) (n_now w)
           (n_profile w) (n_compose w) (posted w).

Definition count_create (w : World) : World :=
  mk_World (slept w) (logged w) (n_get w) (S (n_create w)) (n_now w)
           (n_profile w) (n_compose w) (posted w).

Definition count_now (w : World) : World :=
  mk_World (slept w) (logged w) (n_get w) (n_create w) (S (n_now w))
           (n_profile w) (n_compose w) (posted w).

Definition count_profile (w : World) : World :=
  mk_World (slept w) (logged w) (n_get w) (n_create w) (n_now w)
           (S (n_profile w)) (n_compose w) (posted w).

Definition count_compose (w : World) : World :=
  mk_World (slept w) (logged w) (n_get w) (n_create w) (n_now w)
           (n_profile w) (S (n_compose w)) (posted w).

Definition record_post (t : string) (w : World) : World :=
  mk_World (slept w) (logged w) (n_get w) (n_create w) (n_now w)
           (n_profile w) (n_compose w) (posted w ++ [t]).

(** ** MarketDataSource: [_get_crypto_data] *)

(** [s.upper()] on ASCII letters, the alphabet of the symbols. *)
Definition upper_char (c : ascii) : ascii :=
  if in_range "a" "z" c then ascii_of_nat (nat_of_ascii c - 32) else c.

Fixpoint upper (s : string) : string :=
  match s with
  | EmptyString => EmptyString
  | String c s' => String (upper_char c) (upper s')
  end.

(** [{coin['symbol'].upper(): coin for coin in coins}] *)
Definition by_symbol (coins : list coin) : gmap string coin :=
  fold_left (fun d c => <[upper (symbol c) := c]> d) coins ∅.

Definition max_retries : Z := 3.

(** The [while retry_count < max_retries] loop. A pass that does not return
    adds one to [retry_count], so the passes left are
    [max_retries - retry_count]: the loop is written by recursion on that
    number, [left]. *)
Fixpoint crypto_loop (env : Env) (left : nat) (retry_count : Z) (w : World)
  : option (gmap string coin) * World :=
  match left with
  | O => (None, emit coingecko_max_retries w)
  | S left' =>
      let on_exception (e : exn) (w : World) :=
        match e with
        | Timeout =>
            let retry_count := retry_count + 1 in
            let wait_time := retry_count * 10 in
            let w := emit (coingecko_timeout retry_count wait_time) w in
            let w := sleep wait_time w in
            crypto_loop env left' retry_count w
        | _ =>
            let w := emit (coingecko_request false) w in
            let w := emit (coingecko_api_error e) w in
            (None, w)
        end in
      let response := session_get env (n_get w) in
      let w := count_get w in
      match response with
      | GetRaises e => on_exception e w
      | JsonRaises e => on_exception e (emit (coingecko_request true) w)
      | Json coins =>
          let w := emit (coingecko_request true) w in
          let data := by_symbol coins in
          match data !! "BTC", data !! "ETH" with
          | Some _, Some _ => (Some data, emit fetched_crypto_data w)
          | _, _ => (None, emit missing_btc_or_eth w)
          end
      end
  end.

Definition _get_crypto_data (env : Env) (w : World) : option (gmap string coin) * World :=
  crypto_loop env (Z.to_nat max_retries) 0 w.

(** ** AnalysisGenerator: [_analyze_market_sentiment] *)

Definition getitem (d : gmap string coin) (k : string) : result coin :=
  match d !! k with
  | Some c => Ok c
  | None => Raise KeyError
  end.

(** [analysis[:100] + "..."] *)
Definition preview (analysis : string) : string := take 100 analysis ++ "...".

(** The body of the [try], with the world it leaves. *)
Definition sentiment_try (env : Env) (crypto_data : gmap string coin) (w : World)
  : result string * World :=
  match getitem crypto_data "BTC" with
  | Raise e => (Raise e, w)
  | Ok btc =>
      match getitem crypto_data "ETH" with
      | Raise e => (Raise e, w)
      | Ok eth =>
          let response := messages_create env (n_create w) btc eth in
          let w := count_create w in
          match response with
          | Raise e => (Raise e, w)
          | Ok analysis =>
              let w := emit (claude_analysis (current_price btc) (current_price eth)
                                             (preview analysis)) w in
              let now := datetime_now env (n_now w) in
              let w := count_now w in
              (Ok (_format_tweet_analysis now analysis btc eth), w)
          end
      end
  end.

Fixpoint sentiment_loop (env : Env) (crypto_data : gmap string coin)
         (left : nat) (retry_count : Z) (w : World) : option string * World :=
  match left with
  | O => (None, emit sentiment_max_retries w)
  | S left' =>
      match sentiment_try env crypto_data w with
      | (Ok tweet, w) => (Some tweet, w)
      | (Raise _, w) =>
          let retry_count := retry_count + 1 in
          let wait_time := retry_count * 10 in
          let w := emit (claude_api_error retry_count wait_time) w in
          let w := sleep wait_time w in
          sentiment_loop env crypto_data left' retry_count w
      end
  end.

Definition _analyze_market_sentiment (env : Env) (crypto_data : gmap string coin)
           (w : World) : option string * World :=
  sentiment_loop env crypto_data (Z.to_nat max_retries) 0 w.

(** ** HistoryReader: [_get_last_posts] *)

(** [posts[:10]], or [[]] after logging when the page raised. *)
Definition _get_last_posts (env : Env) (w : World) : list string * World :=
  let texts := tweet_texts env (n_profile w) in
  let w := count_profile w in
  match texts with
  | Ok posts => (firstn 10 posts, w)
  | Raise e => ([], emit (get_last_posts_error e) w)
  end.

(** ** Publisher: [_post_analysis] *)

Fixpoint post_loop (env : Env) (tweet_text : string)
         (left : nat) (retry_count : Z) (w : World) : bool * World :=
  match left with
  | O => (false, emit tweet_max_retries w)
  | S left' =>
      let outcome := compose_tweet env (n_compose w) tweet_text in
      let w := count_compose w in
      match outcome with
      | Clicked =>
          let w := record_post tweet_text w in
          (true, emit tweet_posted w)
      | NoButton =>
          let w := emit post_button_not_found w in
          let retry_count := retry_count + 1 in
          let w := sleep 2 w in
          post_loop env tweet_text left' retry_count w
      | PostRaises e =>
          let w := emit (tweet_posting_error (retry_count + 1) e) w in
          let retry_count := retry_count + 1 in
          let wait_time := retry_count * 10 in
          let w := emit (waiting_before_retry wait_time) w in
          let w := sleep wait_time w in
          post_loop env tweet_text left' retry_count w
      end
  end.

Definition _post_analysis (env : Env) (tweet_text : string) (w : World) : bool * World :=
  post_loop env tweet_text (Z.to_nat max_retries) 0 w.

(** ** PublishGate: [_run_correlation_cycle] *)

(** Truth value of an optional dict ([None] and [{}] are false) and of an
    optional text ([None] and [''] are false). *)
Definition truthy_dict (d : option (gmap string coin)) : bool :=
  match d with
  | Some m => negb (bool_decide (m = ∅))
  | None => false
  end.

Definition truthy_text (t : option string) : bool :=
  match t with
  | Some s => negb (String.eqb s EmptyString)
  | None => false
  end.

(** The body of the cycle's [try]: [Raise e] is an exception that reaches
    the cycle's [except]. *)
Definition cycle_try (env : Env) (w : World) : result unit * World :=
  let (crypto_data, w) := _get_crypto_data env w in
  match crypto_data with
  | Some data =>
      if truthy_dict crypto_data then
        let w := emit cycle_fetched_crypto_data w in
        let (tweet_text, w) := _analyze_market_sentiment env data w in
        match tweet_text with
        | Some text =>
            if truthy_text tweet_text then
              let w := emit cycle_generated_analysis w in
              let (last_posts, w) := _get_last_posts env w in
              let (l, dup) := _is_duplicate_analysis text last_posts in
              let w := emit_all l w in
              match dup with
              | Raise e => (Raise e, w)
              | Ok false =>
                  let (ok, w) := _post_analysis env text w in
                  if ok then (Ok tt, emit posted_to_twitter w)
                  else (Ok tt, emit failed_to_post w)
              | Ok true => (Ok tt, emit skipping_duplicate w)
              end
            else (Ok tt, emit failed_to_generate_analysis w)
        | None => (Ok tt, emit failed_to_generate_analysis w)
        end
      else (Ok tt, emit failed_to_get_crypto_data w)
  | None => (Ok tt, emit failed_to_get_crypto_data w)
  end.

(** [except Exception as e: logger.log_error("Correlation Cycle", str(e))] *)
Definition _run_correlation_cycle (env : Env) (w : World) : result unit * World :=
  match cycle_try env w with
  | (Ok tt, w) => (Ok tt, w)
  | (Raise e, w) => (Ok tt, emit (correlation_cycle_error e) w)
  end.

(** ** Reading the guard's loop *)

(** What the loop does with one post: it is skipped or compared without
    a match ([passes]), it is a match ([hits]), or the comparison raises
    ([faults]). *)
Definition passes new_data post : Prop :=
  snd (_extract_price_data post) = None \/
  exists old_data, snd (_extract_price_data post) = Some old_data
                   /\ compare_with new_data old_data = Ok None.

Definition hits new_data post : Prop :=
  exists old_data changes, snd (_extract_price_data post) = Some old_data
                   /\ compare_with new_data old_data = Ok (Some changes).

Definition faults new_data post (e : exn) : Prop :=
  exists old_data, snd (_extract_price_data post) = Some old_data
                   /\ compare_with new_data old_data = Raise e.

(** No arithmetic fault can occur on [hist]: every post that parses has
    non-zero prices. *)
Definition nonzero_prices (hist : list string) : Prop :=
  forall post old_data, In post hist ->
    snd (_extract_price_data post) = Some old_data ->
    PrimFloat.eqb (btc old_data) 0 = false /\ PrimFloat.eqb (eth old_data) 0 = false.

(** [a <= b] on datetimes: Python compares the tuples
    [(year, month, day, hour, minute, second)]. *)
Fixpoint tuple_leb (a b : list Z) : bool :=
  match a, b with
  | x :: a', y :: b' => (x <? y) || ((x =? y) && tuple_leb a' b')
  | [], _ => true
  | _ :: _, [] => false
  end.

Definition datetime_tuple (t : datetime) : list Z :=
  [year t; month t; day t; hour t; minute t; second t].

Definition datetime_leb (a b : datetime) : bool :=
  tuple_leb (datetime_tuple a) (datetime_tuple b).

(** The fields [datetime(...)] accepts. *)
Definition valid_datetime (t : datetime) : Prop :=
  new_datetime (year t) (month t) (day t) (hour t) (minute t) (second t) = Ok t.

(** The change as the specification words it, [|new - old| / old * 100],
    to be compared with [price_change]. *)
Definition spec_change (new old : float) : float :=
  (PrimFloat.abs (new - old) / old * 100)%float.

(** A positive double or positive infinity. *)
Definition SF_positive (y : spec_float) : Prop :=
  y = S754_infinity false \/ exists m e, y = S754_finite false m e.

(** Every post of [hist] that parses has positive prices. *)
Definition positive_prices (hist : list string) : Prop :=
  forall post old_data, In post hist ->
    snd (_extract_price_data post) = Some old_data ->
    PrimFloat.ltb 0 (btc old_data) = true /\ PrimFloat.ltb 0 (eth old_data) = true.

(** ** Sample posts and collaborators *)

Definition candidate_post : string :=
  "BTC: $50000.00 ETH: $3000.00 Analysis - 2024-01-01 00:00:00".
Definition post_10s_earlier : string :=
  "BTC: $50000.01, ETH: $3000.00 Analysis - 2023-12-31 23:59:50".
Definition post_40s_earlier : string :=
  "BTC: $50000.01, ETH: $3000.00 Analysis - 2023-12-31 23:59:20".
Definition post_a_year_later : string :=
  "BTC: $50000.01, ETH: $3000.00 Analysis - 2025-01-01 00:00:00".
Definition post_zero_price : string :=
  "BTC: $0.00 ETH: $3000.00 Analysis - 2023-12-31 23:59:50".
Definition post_bad_date : string :=
  "BTC: $50000.00 ETH: $3000.00 Analysis - 2024-02-30 00:00:00".
Definition post_no_date : string :=
  "BTC: $50000.00 ETH: $3000.00".
Definition post_no_prices : string := "gm, markets are open".

#[local] Set Warnings "-inexact-float".
Definition btc_coin : coin := mk_coin "btc" 50000 1.5 1e9.
Definition eth_coin : coin := mk_coin "eth" 3000 (-2.25) 1e8.
(** A record whose price prints in 336 characters. *)
Definition btc_huge : coin := mk_coin "btc" 1e250 1.5 1e9.
#[local] Set Warnings "inexact-float".

Definition new_year : datetime := mk_datetime 2024 1 1 0 0 0.

(** What the stages before the publisher leave alone. *)
Definition publisher_untouched (w w' : World) : Prop :=
  n_compose w' = n_compose w /\ posted w' = posted w.

(** ** Injected failures *)

Definition timed_out (o : http_outcome) : bool :=
  match o with
  | GetRaises Timeout | JsonRaises Timeout => true
  | _ => false
  end.

(** From world [w] on, the next [k] calls of [session.get] time out. *)
Definition gets_time_out (env : Env) (w : World) (k : nat) : Prop :=
  forall i, (i < k)%nat -> timed_out (session_get env (n_get w + i)) = true.

(** From world [w] on, the next [k] generation calls for [btc] and [eth] raise. *)
Definition creates_fail (env : Env) (w : World) (btc eth : coin) (k : nat) : Prop :=
  forall i, (i < k)%nat -> exists e, messages_create env (n_create w + i) btc eth = Raise e.

(** The response has a BTC and an ETH record. *)
Definition well_shaped (coins : list coin) : Prop :=
  is_Some (by_symbol coins !! "BTC") /\ is_Some (by_symbol coins !! "ETH").

(** The waits after failed attempts [rc + 1 .. rc + k]: ten seconds times
    the number of the attempt. *)
Definition backoff_from (rc : Z) (k : nat) : list Z :=
  map (fun i => (rc + Z.of_nat i) * 10) (seq 1 k).

Definition backoff (k : nat) : list Z := backoff_from 0 k.

(** A collaborator set for one cycle: the first [n_timeouts] calls of
    [session.get] answer [first_get], the later ones a good response; the
    first [n_errors] generation calls raise, the later ones give an
    analysis. *)
Definition env_of (first_get : http_outcome) (n_timeouts n_errors : nat)
           (profile : result (list string)) (compose : post_outcome) : Env :=
  {| session_get := fun n =>
       if (n <? n_timeouts)%nat then first_get else Json [btc_coin; eth_coin];
     messages_create := fun n _ _ =>
       if (n <? n_errors)%nat then Raise OtherError else Ok "Markets are flat.";
     datetime_now := fun _ => new_year;
     tweet_texts := fun _ => profile;
     compose_tweet := fun _ _ => compose |}.

(** ** The publisher's typing and waits (src/bot.py, lines 399-445) *)

(** The texts [_post_analysis] sends to the text area, in order:
    [text_parts[0]], then ['#' + part] for every later part of
    [tweet_text.split('#')]. *)
Definition typed_chunks (tweet_text : string) : list string :=
  match split_on "#" tweet_text with
  | [] => []
  | first :: others => first :: map (fun part => "#" ++ part) others
  end.

(** [''.join(chunks)] *)
Definition join_all (chunks : list string) : string :=
  fold_right String.append EmptyString chunks.

(** The outcomes of the next [k] attempts to post [text], from world [w]
    on. *)
Definition next_outcomes (env : Env) (text : string) (w : World) (k : nat)
  : list post_outcome :=
  map (fun i => compose_tweet env (n_compose w + i) text) (seq 0 k).

(** The attempts before the first click. *)
Fixpoint before_click (os : list post_outcome) : list post_outcome :=
  match os with
  | [] => []
  | Clicked :: _ => []
  | o :: os' => o :: before_click os'
  end.

(** The waits after failed attempts, the first of them being attempt
    [rc + 1]: two seconds when the button was not found, ten per attempt
    after an exception. *)
Fixpoint post_waits (rc : Z) (failed : list post_outcome) : list Z :=
  match failed with
  | [] => []
  | NoButton :: os => 2 :: post_waits (rc + 1) os
  | PostRaises _ :: os => (rc + 1) * 10 :: post_waits (rc + 1) os
  | Clicked :: os => post_waits (rc + 1) os
  end.
(** ** The formatter's parts *)

(** [line + "\n"] for each line, joined: the analysis lines as the
    formatter appends them. *)
Definition with_newlines (lines : list string) : string :=
  join_all (map (fun line => line ++ nl) lines).

Definition filler : string := nl ++ "Detailed analysis available.".
(** ** Configuration from the environment (src/config.py)

    [os.environ] after [load_dotenv] is a map from names to texts. The
    builtin [int] applied to the text of [MAX_RETRIES] is a parameter
    [int_of] of the constructor. The settings that are literals read by
    nothing in [_validate_config] (the analysis parameters, the request
    parameters, the tracked coins, the prompt) are left out of the
    record. *)

Definition getenv (environ : gmap string string) (key fallback : string) : string :=
  match environ !! key with
  | Some value => value
  | None => fallback
  end.

(** [s.lstrip()], [s.rstrip()], [s.strip()] *)
Fixpoint lstrip (s : string) : string :=
  match s with
  | EmptyString => EmptyString
  | String c s' => if space c then lstrip s' else s
  end.

Fixpoint rstrip (s : string) : string :=
  match s with
  | EmptyString => EmptyString
  | String c s' =>
      match rstrip s' with
      | EmptyString => if space c then EmptyString else String c EmptyString
      | r => String c r
      end
  end.

Definition strip (s : string) : string := rstrip (lstrip s).

(** [sep.join(parts)] *)
Fixpoint join (sep : string) (parts : list string) : string :=
  match parts with
  | [] => EmptyString
  | [part] => part
  | part :: rest => part ++ sep ++ join sep rest
  end.

Record Config : Type := mk_Config
  { GOOGLE_SHEETS_PROJECT_ID : string;
    GOOGLE_SHEETS_PRIVATE_KEY : string;
    GOOGLE_SHEETS_CLIENT_EMAIL : string;
    GOOGLE_SHEET_ID : string;
    GOOGLE_SHEETS_RANGE : string;
    CLAUDE_API_KEY : string;
    CLAUDE_MODEL : string;
    TWITTER_USERNAME : string;
    TWITTER_PASSWORD : string;
    CHROME_DRIVER_PATH : string;
    CORRELATION_INTERVAL : Z;
    MAX_RETRIES : Z;
    COINGECKO_BASE_URL : string }.

Definition required_settings (self : Config) : list (string * string) :=
  [ ("TWITTER_USERNAME", TWITTER_USERNAME self);
    ("TWITTER_PASSWORD", TWITTER_PASSWORD self);
    ("CHROME_DRIVER_PATH", CHROME_DRIVER_PATH self);
    ("CLAUDE_API_KEY", CLAUDE_API_KEY self);
    ("GOOGLE_SHEETS_PROJECT_ID", GOOGLE_SHEETS_PROJECT_ID self);
    ("GOOGLE_SHEETS_PRIVATE_KEY", GOOGLE_SHEETS_PRIVATE_KEY self);
    ("GOOGLE_SHEETS_CLIENT_EMAIL", GOOGLE_SHEETS_CLIENT_EMAIL self);
    ("GOOGLE_SHEET_ID", GOOGLE_SHEET_ID self) ].

(** [not setting_value or setting_value.strip() == ''] *)
Definition is_missing (setting_value : string) : bool :=
  String.eqb setting_value EmptyString || String.eqb (strip setting_value) EmptyString.

Definition missing_settings (self : Config) : list string :=
  map fst (filter (fun setting => is_missing (snd setting)) (required_settings self)).

(** The lines of [logger.log_error("Config", _)] and the outcome. *)
Definition _validate_config (self : Config) : list string * result unit :=
  match missing_settings self with
  | [] => ([], Ok tt)
  | missing =>
      let error_msg := "Missing required configuration: " ++ join ", " missing in
      ([error_msg], Raise ValueError)
  end.

(** [Config.__init__]: the fields in the order they are assigned, then
    the validation. *)
Definition __init__ (int_of : string -> result Z) (environ : gmap string string)
  : list string * result Config :=
  let project_id := getenv environ "GOOGLE_SHEETS_PROJECT_ID" "" in
  let private_key := getenv environ "GOOGLE_SHEETS_PRIVATE_KEY" "" in
  let client_email := getenv environ "GOOGLE_SHEETS_CLIENT_EMAIL" "" in
  let sheet_id := getenv environ "GOOGLE_SHEET_ID" "" in
  let api_key := getenv environ "CLAUDE_API_KEY" "" in
  let username := getenv environ "TWITTER_USERNAME" "" in
  let password := getenv environ "TWITTER_PASSWORD" "" in
  let driver_path := getenv environ "CHROME_DRIVER_PATH" "/usr/local/bin/chromedriver" in
  match int_of (getenv environ "MAX_RETRIES" "3") with
  | Raise e => ([], Raise e)
  | Ok retries =>
      let self :=
        mk_Config project_id private_key client_email sheet_id "Market Analysis!A:F"
                  api_key "claude-3-5-sonnet-20241022" username password driver_path
                  5 retries "https://api.coingecko.com/api/v3" in
      match _validate_config self with
      | (l, Ok _) => (l, Ok self)
      | (l, Raise e) => (l, Raise e)
      end
  end.

(** [get_coingecko_markets_url] *)
Definition get_coingecko_markets_url (self : Config) : string :=
  COINGECKO_BASE_URL self ++ "/coins/markets".

(** ** Logging in: [_login_to_twitter] and [_verify_login]

    The browser session during one login is a [Browser]: the answer to
    each call it receives, [Ok] with the truth value of what the call
    returned or the exception it raised. What the agent does is recorded
    as the list of its steps, in order: browser calls, [time.sleep]s and
    log lines. *)

Inductive browser_call : Type :=
| initialize_driver
| set_page_load_timeout
| get_login_page
| username_wait | username_click | username_send_keys (text : string)
| next_wait | next_click
| password_wait | password_click | password_send_keys (text : string)
| save_screenshot
| login_wait | login_click
| verification_method (attempt : Z) (i : nat)   (* method i of the attempt *)
| wait_and_refresh (attempt : Z)                (* after the attempt *)
| close_browser.

Definition Browser : Type := browser_call -> result bool.

Inductive login_line : Type :=
| starting_login_sequence
| navigated_to_login_page
| attempting_username
| username_entered
| failed_to_enter_username (e : exn)
| attempting_next
| next_clicked
| failed_to_click_next (e : exn)
| attempting_password
| password_entered
| failed_to_enter_password (e : exn)
| saved_debug_screenshot
| attempting_login_button
| login_button_clicked
| failed_to_click_login (e : exn)
| waiting_for_2fa
| login_failed (e : exn)
| starting_verification
| verification_attempt (n max_retries : Z)
| login_verified (i : nat)
| verification_method_error (i : nat) (e : exn)
| verification_waiting (wait_time : Z)
| verification_exhausted (max_retries : Z)
| verification_failed (e : exn)
| browser_init_failed (n : Z)
| login_attempt_failed (n : Z)
| bot_initialized
| bot_execution_error (e : exn)
| closing_browser
| browser_close_warning (e : exn)
| shutdown.

Inductive step : Type :=
| Call (c : browser_call)
| Sleep (seconds : Z)
| Log (line : login_line).

(** Statements in sequence: the steps performed, and the exception that
    ended them if a call raised. *)
Fixpoint run (b : Browser) (script : list step) : list step * option exn :=
  match script with
  | [] => ([], None)
  | Call c :: rest =>
      match b c with
      | Ok _ => let (t, r) := run b rest in (Call c :: t, r)
      | Raise e => ([Call c], Some e)
      end
  | s :: rest => let (t, r) := run b rest in (s :: t, r)
  end.

(** A stretch of [_login_to_twitter]: statements directly in the outer
    [try], or a nested [try] whose [except] logs a line and returns
    [False]. *)
Inductive stage : Type :=
| Outer (script : list step)
| Inner (script : list step) (on_error : exn -> login_line).

Definition script_of (s : stage) : list step :=
  match s with
  | Outer script => script
  | Inner script _ => script
  end.

(** [Ok None] is reaching the end of the stages; [Ok (Some false)] a
    [return False]; [Raise e] an exception for the outer [except]. *)
Fixpoint run_stages (b : Browser) (stages : list stage)
  : list step * result (option bool) :=
  match stages with
  | [] => ([], Ok None)
  | Outer script :: rest =>
      match run b script with
      | (t, Some e) => (t, Raise e)
      | (t, None) => let (t', r) := run_stages b rest in ((t ++ t')%list, r)
      end
  | Inner script on_error :: rest =>
      match run b script with
      | (t, Some e) => ((t ++ [Log (on_error e)])%list, Ok (Some false))
      | (t, None) => let (t', r) := run_stages b rest in ((t ++ t')%list, r)
      end
  end.

Definition login_stages (config : Config) : list stage :=
  [ Outer [Log starting_login_sequence; Call set_page_load_timeout; Call get_login_page;
           Log navigated_to_login_page; Sleep 5; Log attempting_username];
    Inner [Call username_wait; Call username_click; Sleep 1;
           Call (username_send_keys (TWITTER_USERNAME config)); Log username_entered]
          failed_to_enter_username;
    Outer [Sleep 2; Log attempting_next];
    Inner [Call next_wait; Call next_click; Log next_clicked] failed_to_click_next;
    Outer [Sleep 3; Log attempting_password];
    Inner [Call password_wait; Call password_click; Sleep 1;
           Call (password_send_keys (TWITTER_PASSWORD config)); Log password_entered]
          failed_to_enter_password;
    Outer [Sleep 2; Call save_screenshot; Log saved_debug_screenshot;
           Log attempting_login_button];
    Inner [Call login_wait; Call login_click; Log login_button_clicked]
          failed_to_click_login;
    Outer [Log waiting_for_2fa; Sleep 10] ].

(** The [for i, method in enumerate(verification_methods, 1)] loop:
    [true] is the [return True]. *)
Fixpoint try_methods (b : Browser) (retry_count : Z) (methods : list nat)
  : list step * bool :=
  match methods with
  | [] => ([], false)
  | i :: rest =>
      let call := verification_method (retry_count + 1) i in
      match b call with
      | Ok true => ([Call call; Log (login_verified i)], true)
      | Ok false => let (t, r) := try_methods b retry_count rest in (Call call :: t, r)
      | Raise e =>
          let (t, r) := try_methods b retry_count rest in
          (Call call :: Log (verification_method_error i e) :: t, r)
      end
  end.

(** The [while retry_count < max_retries] loop of [_verify_login], by
    recursion on the passes left, [max_retries - retry_count]. *)
Fixpoint verify_loop (b : Browser) (max_retries : Z) (left : nat) (retry_count : Z)
  : list step * result bool :=
  match left with
  | O => ([Log (verification_exhausted max_retries)], Ok false)
  | S left' =>
      let (t1, verified) := try_methods b retry_count [1; 2; 3; 4]%nat in
      let t1 := Log (verification_attempt (retry_count + 1) max_retries) :: t1 in
      if verified then (t1, Ok true)
      else
        let retry_count := retry_count + 1 in
        if retry_count <? max_retries then
          let wait_time := 8 * retry_count in
          let t2 := [Log (verification_waiting wait_time); Sleep wait_time;
                     Call (wait_and_refresh retry_count)] in
          match b (wait_and_refresh retry_count) with
          | Raise e => ((t1 ++ t2)%list, Raise e)
          | Ok _ =>
              let (t3, r) := verify_loop b max_retries left' retry_count in
              ((t1 ++ t2 ++ t3)%list, r)
          end
        else
          let (t3, r) := verify_loop b max_retries left' retry_count in
          ((t1 ++ t3)%list, r)
  end.

Definition _verify_login (b : Browser) (config : Config) : list step * bool :=
  let max_retries := MAX_RETRIES config in
  let (t, r) := verify_loop b max_retries (Z.to_nat max_retries) 0 in
  match r with
  | Ok verified => (Log starting_verification :: t, verified)
  | Raise e => ((Log starting_verification :: t ++ [Log (verification_failed e)])%list, false)
  end.

Definition _login_to_twitter (b : Browser) (config : Config) : list step * bool :=
  let (t, r) := run_stages b (login_stages config) in
  match r with
  | Ok None => let (t', verified) := _verify_login b config in ((t ++ t')%list, verified)
  | Ok (Some returned) => (t, returned)
  | Raise e => ((t ++ [Log (login_failed e)])%list, false)
  end.

(** ** Reading a list of steps *)

Definition calls_of (t : list step) : list browser_call :=
  flat_map (fun s => match s with Call c => [c] | _ => [] end) t.

Definition sleeps_of (t : list step) : list Z :=
  flat_map (fun s => match s with Sleep n => [n] | _ => [] end) t.

Definition answers (b : Browser) (c : browser_call) : Prop := exists v, b c = Ok v.

(** The statements of the login in the order of the source. *)
Definition login_script (config : Config) : list step :=
  flat_map script_of (login_stages config).

(** An attempt of the verification that succeeds: one of its four methods
    returns something true. *)
Definition attempt_verifies (b : Browser) (attempt : Z) : Prop :=
  exists i, (1 <= i <= 4)%nat /\ b (verification_method attempt i) = Ok true.

Definition sum_Z (l : list Z) : Z := fold_right Z.add 0 l.

(** The waits [8 * retry_count] for the [m] values of [retry_count] after
    [rc]. *)
Definition wait_times (rc : Z) (m : nat) : list Z :=
  map (fun k => 8 * (rc + Z.of_nat k)) (seq 1 m).
(** ** The main loop: [start] and [_cleanup]

    The browser during the passes of the setup loop, numbered by the
    failures counted when the pass begins, and at cleanup.
    [KeyboardInterrupt] is not an [Exception] and is not modelled: the
    scheduling loop has no other way out, so [start] is given the number
    of its passes to run. *)
Record Session : Type :=
  { setup_pass : nat -> Browser;
    browser_truthy : bool;          (* the truth value of [self.browser] *)
    at_cleanup : Browser }.

Definition max_setup_retries : Z := 3.

(** The [while retry_count < max_setup_retries] loop with the [raise]
    behind it: leaving the loop by its condition is the failure. *)
Fixpoint setup_loop (s : Session) (config : Config) (left : nat) (retry_count : Z)
  : list step * result unit :=
  match left with
  | O => ([], Raise OtherError)
  | S left' =>
      let b := setup_pass s (Z.to_nat retry_count) in
      match b initialize_driver with
      | Raise e => ([Call initialize_driver], Raise e)
      | Ok false =>
          let retry_count := retry_count + 1 in
          let (t, r) := setup_loop s config left' retry_count in
          (Call initialize_driver :: Log (browser_init_failed retry_count) :: Sleep 10 :: t, r)
      | Ok true =>
          let (t1, logged_in) := _login_to_twitter b config in
          if logged_in then (Call initialize_driver :: t1, Ok tt)
          else
            let retry_count := retry_count + 1 in
            let (t, r) := setup_loop s config left' retry_count in
            ((Call initialize_driver :: t1
                ++ Log (login_attempt_failed retry_count) :: Sleep 15 :: t)%list, r)
      end
  end.

Definition _cleanup (s : Session) : list step :=
  if browser_truthy s then
    match at_cleanup s close_browser with
    | Ok _ => [Log closing_browser; Call close_browser; Sleep 1; Log shutdown]
    | Raise e =>
        [Log closing_browser; Call close_browser; Log (browser_close_warning e);
         Log shutdown]
    end
  else [Log shutdown].

(** One pass of [while True]: the cycle, then [time.sleep(60)], or the
    [except] with its five minutes. *)
Definition scheduler_pass (env : Env) (w : World) : World :=
  match _run_correlation_cycle env w with
  | (Ok _, w) => sleep 60 w
  | (Raise e, w) => sleep (5 * 60) (emit (correlation_cycle_error e) w)
  end.

(** The steps of the setup (and of the cleanup, when the setup failed),
    and the world after [passes] passes of the scheduling loop. *)
Definition start (s : Session) (config : Config) (env : Env) (passes : nat)
  : list step * World :=
  let (t, r) := setup_loop s config (Z.to_nat max_setup_retries) 0 in
  match r with
  | Ok _ => ((t ++ [Log bot_initialized])%list, Nat.iter passes (scheduler_pass env) world0)
  | Raise e => ((t ++ Log (bot_execution_error e) :: _cleanup s)%list, world0)
  end.

(** A pass of the setup loop that counts as a failure, and one that ends
    the setup. *)
Definition pass_fails (s : Session) (config : Config) (k : Z) : Prop :=
  let b := setup_pass s (Z.to_nat k) in
  b initialize_driver = Ok false
  \/ (b initialize_driver = Ok true /\ snd (_login_to_twitter b config) = false).

Definition pass_succeeds (s : Session) (config : Config) (k : Z) : Prop :=
  let b := setup_pass s (Z.to_nat k) in
  b initialize_driver = Ok true /\ snd (_login_to_twitter b config) = true.

Definition pass_raises (s : Session) (k : Z) (e : exn) : Prop :=
  setup_pass s (Z.to_nat k) initialize_driver = Raise e.

(** Waits of a retry loop entered with [rc] failures counted and [left]
    passes left: each at most ten seconds per failure counted by then,
    and their sum. *)
Definition bounded_waits (rc : Z) (left : nat) (extra : list Z) : Prop :=
  Forall (fun s => 0 < s <= 10 * (rc + Z.of_nat left)) extra
  /\ sum_Z extra <= 10 * rc * Z.of_nat left + 5 * Z.of_nat left * (Z.of_nat left + 1).
(** ** The parts of the [strptime] pattern *)

Definition year_re : regex := seqs [Cls digit; Cls digit; Cls digit; Cls digit].

Definition month_re : regex :=
  alts (Seq (Lit "1") (Cls (in_range "0" "2")))
       [Seq (Lit "0") (Cls (in_range "1" "9")); Cls (in_range "1" "9")].

Definition day_re : regex :=
  alts (Seq (Lit "3") (Cls (in_range "0" "1")))
       [Seq (Cls (in_range "1" "2")) (Cls digit);
        Seq (Lit "0") (Cls (in_range "1" "9"));
        Cls (in_range "1" "9");
        Seq (Lit " ") (Cls (in_range "1" "9"))].

Definition hour_re : regex :=
  alts (Seq (Lit "2") (Cls (in_range "0" "3")))
       [Seq (Cls (in_range "0" "1")) (Cls digit); Cls digit].

Definition minute_re : regex :=
  alts (Seq (Cls (in_range "0" "5")) (Cls digit)) [Cls digit].

Definition second_re : regex :=
  alts (Seq (Lit "6") (Cls (in_range "0" "1")))
       [Seq (Cls (in_range "0" "5")) (Cls digit); Cls digit].

(** A text of four digits that reads back as [y]; one of two digits that
    reads back as [v]. *)
Definition four_digits (y : Z) (s : string) : bool :=
  match s with
  | String c1 (String c2 (String c3 (String c4 EmptyString))) =>
      digit c1 && digit c2 && digit c3 && digit c4 && (int_of_group s =? y)
  | _ => false
  end.

Definition two_digits (v : Z) (s : string) : bool :=
  match s with
  | String c1 (String c2 EmptyString) => digit c1 && digit c2 && (int_of_group s =? v)
  | _ => false
  end.
(** ** Prices as they are printed *)

(** A price that prints as digits: finite, with the sign bit clear. *)
Definition printable (x : float) : Prop :=
  match Prim2SF x with
  | S754_zero false | S754_finite false _ _ => True
  | _ => False
  end.

(** The price in cents as [format(x, ',.2f')] rounds it. *)
Definition cents (x : float) : Z :=
  match Prim2SF x with
  | S754_finite _ m e => scaled_round (Zpos m) e 2
  | _ => 0
  end.

(** The characters [format] can print. *)
Definition format_char : cclass := cor digit (one_of ",.-infa").

(** A double that is finite and not zero. *)
Definition finite_nonzero (x : float) : Prop :=
  match Prim2SF x with
  | S754_finite _ _ _ => True
  | _ => False
  end.
(** ** Sample settings and browsers *)

Definition sample_config : Config :=
  mk_Config "project" "key" "bot@example.org" "sheet" "Market Analysis!A:F"
            "api-key" "claude-3-5-sonnet-20241022" "agent" "secret"
            "/usr/local/bin/chromedriver" 5 3 "https://api.coingecko.com/api/v3".

Definition sample_environ : gmap string string :=
  list_to_map
    [ ("TWITTER_USERNAME", "agent"); ("TWITTER_PASSWORD", "   ");
      ("CLAUDE_API_KEY", "api-key"); ("GOOGLE_SHEETS_PROJECT_ID", "project");
      ("GOOGLE_SHEETS_PRIVATE_KEY", "key");
      ("GOOGLE_SHEETS_CLIENT_EMAIL", "bot@example.org") ].

(** [int] on the two texts the samples give it. *)
Definition sample_int (text : string) : result Z :=
  if String.eqb text "3" then Ok 3
  else if String.eqb text "0" then Ok 0
  else Raise ValueError.

(** A browser in which every call returns something true, one that
    cannot find the password field, and one whose home page shows at the
    second verification attempt only. *)
Definition willing : Browser := fun _ => Ok true.

Definition no_password_field : Browser :=
  fun c => match c with
           | password_wait => Raise Timeout
           | _ => Ok true
           end.

Definition slow_home : Browser :=
  fun c => match c with
           | verification_method 2 4 => Ok true
           | verification_method _ 4 => Ok false
           | verification_method _ _ => Raise Timeout
           | _ => Ok true
           end.

(** * Properties *)

(** ** The library models at known values *)

Section Checks.

Example float_tenth : python_float "0.1" = Ok 0x1.999999999999ap-4%float.
Proof. reflexivity. Qed.

Example float_price : python_float "50000.01" = Ok 0x1.86a0051eb851fp+15%float.
Proof. reflexivity. Qed.

(** A tie between two doubles goes to the even one. *)
Example float_tie : python_float "9007199254740993" = Ok 9007199254740992%float.
Proof. reflexivity. Qed.

Example float_trailing_point : python_float "1." = Ok 1%float.
Proof. reflexivity. Qed.

Example float_two_points : python_float "1.2.3" = Raise ValueError.
Proof. reflexivity. Qed.

Example float_empty : python_float "" = Raise ValueError.
Proof. reflexivity. Qed.

Example format_thousands : format_f true 2 0x1.2d687e428f5c3p+20%float = "1,234,567.89".
Proof. vm_compute. reflexivity. Qed.

(** Halfway cases are decided on the exact binary value: 0.125 is a tie
    (to even), the double nearest 2.675 lies below it. *)
Example format_tie : format_f false 2 0.125%float = "0.12".
Proof. vm_compute. reflexivity. Qed.

Example format_below_half : format_f false 2 0x1.5666666666666p+1%float = "2.67".
Proof. vm_compute. reflexivity. Qed.

Example format_negative_zero : format_f false 2 (-0x1.0624dd2f1a9fcp-10)%float = "-0.00".
Proof. vm_compute. reflexivity. Qed.

Example strptime_plain :
  strptime "2024-01-01 00:00:00" = Ok (mk_datetime 2024 1 1 0 0 0).
Proof. vm_compute. reflexivity. Qed.

Example strptime_short_fields :
  strptime "2024-1-1 0:0:0" = Ok (mk_datetime 2024 1 1 0 0 0).
Proof. vm_compute. reflexivity. Qed.

Example strptime_no_such_day : strptime "2024-02-30 00:00:00" = Raise ValueError.
Proof. vm_compute. reflexivity. Qed.

Example strptime_leap_second : strptime "2023-12-31 23:59:60" = Raise ValueError.
Proof. vm_compute. reflexivity. Qed.

Example strptime_trailing : strptime "2024-01-01 00:00:000" = Raise ValueError.
Proof. vm_compute. reflexivity. Qed.

Example seconds_over_new_year :
  total_seconds (mk_datetime 2024 1 1 0 0 0) (mk_datetime 2023 12 31 23 59 50) = 10.
Proof. reflexivity. Qed.

Example search_takes_first_match :
  group1 (re_search btc_re "BTC: $1,000.50 then BTC: $2") = Some "1,000.50".
Proof. vm_compute. reflexivity. Qed.

Example extract_formatted_post :
  snd (_extract_price_data
         (_format_tweet_analysis new_year "Markets are flat." btc_coin eth_coin))
  = Some (mk_price_data 50000 3000 (Some new_year)).
Proof. vm_compute. reflexivity. Qed.

End Checks.

(** ** The duplicate guard *)

Section DuplicateGuard.

Implicit Types (new_data old_data : price_data) (post : string) (rest : list string).

Lemma extract_raise tweet e :
  extract_try tweet = Raise e ->
  _extract_price_data tweet = ([price_extraction_error e], None).
Proof. unfold _extract_price_data. now intros ->. Qed.

Lemma extract_ok tweet d :
  extract_try tweet = Ok d -> _extract_price_data tweet = ([], d).
Proof. unfold _extract_price_data. now intros ->. Qed.

Lemma extract_no_match tweet :
  group1 (re_search btc_re tweet) = None \/ group1 (re_search eth_re tweet) = None ->
  _extract_price_data tweet = ([], None).
Proof.
  intros H. apply extract_ok. unfold extract_try.
  destruct (group1 (re_search btc_re tweet)); [|reflexivity].
  destruct (group1 (re_search eth_re tweet)); [|reflexivity].
  destruct H; discriminate.
Qed.

Lemma is_duplicate_unparsed cand hist :
  snd (_extract_price_data cand) = None ->
  snd (_is_duplicate_analysis cand hist) = Ok false.
Proof.
  unfold _is_duplicate_analysis.
  destruct (_extract_price_data cand) as [l0 new]; simpl. now intros ->.
Qed.

Lemma is_duplicate_parsed cand hist new_data :
  snd (_extract_price_data cand) = Some new_data ->
  snd (_is_duplicate_analysis cand hist) = snd (duplicate_loop new_data hist).
Proof.
  unfold _is_duplicate_analysis.
  destruct (_extract_price_data cand) as [l0 new]; simpl. intros ->.
  now destruct (duplicate_loop new_data hist).
Qed.

Lemma loop_skip new_data post rest :
  snd (_extract_price_data post) = None ->
  snd (duplicate_loop new_data (post :: rest)) = snd (duplicate_loop new_data rest).
Proof.
  simpl. destruct (_extract_price_data post) as [l1 old]; simpl. intros ->.
  now destruct (duplicate_loop new_data rest).
Qed.

Lemma loop_parsed new_data post rest old_data :
  snd (_extract_price_data post) = Some old_data ->
  snd (duplicate_loop new_data (post :: rest)) =
  match compare_with new_data old_data with
  | Raise e => Raise e
  | Ok (Some _) => Ok true
  | Ok None => snd (duplicate_loop new_data rest)
  end.
Proof.
  simpl. destruct (_extract_price_data post) as [l1 old]; simpl. intros ->.
  destruct (compare_with new_data old_data) as [[[b e]|]|e]; simpl; try reflexivity.
  now destruct (duplicate_loop new_data rest).
Qed.

Lemma loop_passes new_data pre rest :
  Forall (passes new_data) pre ->
  snd (duplicate_loop new_data (pre ++ rest)) = snd (duplicate_loop new_data rest).
Proof.
  induction 1 as [|post pre [Hs | (old & Hp & Hc)] _ IH]; [reflexivity| |].
  - cbn [app]. now rewrite loop_skip.
  - cbn [app]. now rewrite (loop_parsed _ _ _ _ Hp), Hc.
Qed.

Lemma loop_pass new_data post rest :
  passes new_data post ->
  snd (duplicate_loop new_data (post :: rest)) = snd (duplicate_loop new_data rest).
Proof. intros H. apply (loop_passes new_data [post] rest). now constructor. Qed.

Lemma loop_hits new_data post rest :
  hits new_data post -> snd (duplicate_loop new_data (post :: rest)) = Ok true.
Proof. intros (old & ch & Hp & Hc). now rewrite (loop_parsed _ _ _ _ Hp), Hc. Qed.

Lemma loop_faults new_data post rest e :
  faults new_data post e -> snd (duplicate_loop new_data (post :: rest)) = Raise e.
Proof. intros (old & Hp & Hc). now rewrite (loop_parsed _ _ _ _ Hp), Hc. Qed.

Lemma post_cases new_data post :
  passes new_data post \/ hits new_data post \/ exists e, faults new_data post e.
Proof.
  unfold passes, hits, faults.
  destruct (snd (_extract_price_data post)) as [old|]. 2: { left; left; reflexivity. }
  destruct (compare_with new_data old) as [[ch|]|e] eqn:Hc.
- right; left. now exists old, ch.
- left; right. now exists old.
- right; right. exists e. now exists old.
Qed.

(** The loop answers by the first post that does not pass. *)
Lemma loop_true_iff new_data hist :
  snd (duplicate_loop new_data hist) = Ok true <->
  exists pre post rest, hist = (pre ++ post :: rest)%list
                        /\ Forall (passes new_data) pre /\ hits new_data post.
Proof.
  split.
  - induction hist as [|post rest IH]; [discriminate|].
    destruct (post_cases new_data post) as [Hp | [Hh | [e Hf]]].
    + rewrite (loop_pass _ _ _ Hp).
      intros (pre & p & r & -> & Hpre & Hh)%IH.
      exists (post :: pre), p, r. repeat split; auto.
    + intros _. exists [], post, rest. repeat split; auto.
    + rewrite (loop_faults _ _ _ _ Hf). discriminate.
  - intros (pre & post & rest & -> & Hpre & Hh).
    rewrite loop_passes by assumption. now apply loop_hits.
Qed.

Lemma compare_nonzero new_data old_data :
  PrimFloat.eqb (btc old_data) 0 = false ->
  PrimFloat.eqb (eth old_data) 0 = false ->
  exists r, compare_with new_data old_data = Ok r.
Proof.
  intros Hb He. unfold compare_with, price_change, float_div. rewrite Hb, He. simpl.
  repeat match goal with
         | |- context [if ?c then _ else _] => destruct c
         | |- context [match ?x with Some _ => _ | None => _ end] => destruct x
         end; eauto.
Qed.

Lemma compare_zero new_data old_data :
  PrimFloat.eqb (btc old_data) 0 = true \/ PrimFloat.eqb (eth old_data) 0 = true ->
  compare_with new_data old_data = Raise ZeroDivisionError.
Proof.
  intros H. unfold compare_with, price_change, float_div.
  destruct (PrimFloat.eqb (btc old_data) 0); [reflexivity|]. simpl.
  destruct H as [H|H]; [discriminate|]. now rewrite H.
Qed.

(** On a history without zero prices the guard returns, and returns
    [true] exactly when some post hits. *)
Lemma loop_nonzero new_data hist :
  nonzero_prices hist ->
  (exists b, snd (duplicate_loop new_data hist) = Ok b) /\
  (snd (duplicate_loop new_data hist) = Ok true <->
   exists post, In post hist /\ hits new_data post).
Proof.
  induction hist as [|post rest IH]; intros Hnz.
  - split; [now exists false|]. split; [discriminate|]. now intros (p & [] & _).
  - destruct IH as [IHb IHt].
    { intros p o Hin. apply Hnz. now right. }
    destruct (post_cases new_data post) as [Hp | [Hh | [e (old & Ho & Hc)]]].
    + rewrite (loop_pass _ _ _ Hp).
      split; [exact IHb|]. rewrite IHt. split.
      * intros (p & Hin & Hh). exists p. split; [now right|exact Hh].
      * intros (p & [<-|Hin] & Hh); [|now exists p].
        exfalso. destruct Hh as (o & ch & Ho & Hc).
        destruct Hp as [Hp | (o' & Ho' & Hc')]; congruence.
    + rewrite (loop_hits _ _ _ Hh). split; [now exists true|].
      split; [|reflexivity]. intros _. exists post. split; [now left|exact Hh].
    + exfalso. destruct (Hnz post old (or_introl eq_refl) Ho) as [Hb He].
      destruct (compare_nonzero new_data old Hb He) as [r Hr]. congruence.
Qed.

End DuplicateGuard.

(** ** What a price group holds *)

Section Captures.

Lemma len_app (a b : string) : String.length (a ++ b) = (String.length a + String.length b)%nat.
Proof. induction a as [|c a IH]; simpl; [reflexivity | now rewrite IH]. Qed.

Lemma take_app (a b : string) : take (String.length (a ++ b) - String.length b) (a ++ b) = a.
Proof.
  rewrite len_app. replace (String.length a + String.length b - String.length b)%nat
    with (String.length a) by lia.
  induction a as [|c a IH]; simpl; [now destruct b | now rewrite IH].
Qed.

Lemma lit_match_inv {A} l s (k : string -> option A) a :
  lit_match l s k = Some a -> exists s', s = l ++ s' /\ k s' = Some a.
Proof.
  revert s. induction l as [|c l IH]; intros s; simpl.
  - intros H. now exists s.
  - destruct s as [|d s]; [discriminate|].
    destruct (Ascii.eqb_spec c d) as [->|]; [|discriminate].
    intros (s' & -> & Hk)%IH. now exists s'.
Qed.

Lemma plus_match_inv {A} p s (k : string -> option A) a :
  plus_match p s k = Some a ->
  exists pre s', s = pre ++ s' /\ pre <> EmptyString
                 /\ all_chars p pre = true /\ k s' = Some a.
Proof.
  revert a. induction s as [|c s IH]; intros a; simpl; [discriminate|].
  destruct (p c) eqn:Hc; [|discriminate].
  destruct (plus_match p s k) as [a'|] eqn:Hm.
  - intros [= <-]. destruct (IH a' eq_refl) as (pre & s' & -> & _ & Hall & Hk).
    exists (String c pre), s'. simpl. rewrite Hc, Hall. repeat split; auto; discriminate.
  - intros Hk. exists (String c EmptyString), s. simpl. rewrite Hc.
    repeat split; auto; discriminate.
Qed.

Lemma re_search_inv r s caps :
  re_search r s = Some caps -> exists n rest, re_match r (drop n s) = Some (caps, rest).
Proof.
  induction s as [|c s IH]; simpl.
  - destruct (re_match r EmptyString) as [[cs rest]|] eqn:Hm; [|discriminate].
    intros [= <-]. now exists O, rest.
  - destruct (re_match r (String c s)) as [[cs rest]|] eqn:Hm.
    + intros [= <-]. now exists O, rest.
    + intros (n & rest & H)%IH. now exists (S n), rest.
Qed.

(** The group of [prefix([class]+)] is a non-empty run of the class. *)
Lemma class_group_chars prefix p tweet g :
  group1 (re_search (Seq (Lit prefix) (Grp (Plus p))) tweet) = Some g ->
  g <> EmptyString /\ all_chars p g = true.
Proof.
  destruct (re_search _ tweet) as [caps|] eqn:Hs; [|discriminate].
  destruct caps as [|g' caps]; [discriminate|]. intros [= ->].
  apply re_search_inv in Hs as (n & rest & Hm).
  unfold re_match in Hm. cbn [rmatch] in Hm.
  apply lit_match_inv in Hm as (s1 & _ & Hm).
  apply plus_match_inv in Hm as (pre & s' & -> & Hne & Hall & Hk).
  rewrite take_app in Hk. now injection Hk as <- _.
Qed.

Lemma remove_char_chars p c s :
  all_chars p s = true -> all_chars p (remove_char c s) = true.
Proof.
  induction s as [|d s IH]; simpl; [reflexivity|].
  intros [Hd Hs]%andb_prop. destruct (Ascii.eqb c d); simpl; [auto|].
  now rewrite Hd, IH.
Qed.

Lemma remove_char_gone p c s :
  all_chars (cor p (one_of (String c EmptyString))) s = true ->
  all_chars p (remove_char c s) = true.
Proof.
  induction s as [|d s IH]; simpl; [reflexivity|].
  intros [Hd Hs]%andb_prop. destruct (Ascii.eqb_spec c d) as [->|Hcd]; [auto|].
  simpl. rewrite IH by assumption. rewrite andb_true_r.
  unfold cor, one_of in Hd. simpl in Hd. rewrite orb_false_r in Hd.
  apply orb_prop in Hd as [Hd|Hd]; [assumption|].
  apply Ascii.eqb_eq in Hd. congruence.
Qed.

(** The text [float] is given has only digits and points. *)
Lemma price_text_chars prefix tweet g :
  group1 (re_search (Seq (Lit prefix) (Grp (Plus price_class))) tweet) = Some g ->
  all_chars (cor digit (one_of ".")) (remove_char "," g) = true.
Proof.
  intros [_ H]%class_group_chars. apply remove_char_gone.
  clear -H. induction g as [|c g IH]; simpl in *; [reflexivity|].
  apply andb_prop in H as [Hc Hg]. rewrite IH by assumption. rewrite andb_true_r.
  unfold price_class, cor, one_of, digit in *. simpl in *.
  rewrite !orb_false_r in *.
  destruct (in_range "0" "9" c); simpl in *; [reflexivity|].
  now rewrite orb_comm.
Qed.

End Captures.

(** ** The calendar *)

Section Calendar.

Lemma new_datetime_fields y m d hh mm ss t :
  new_datetime y m d hh mm ss = Ok t ->
  t = mk_datetime y m d hh mm ss
  /\ 1 <= y <= 9999 /\ 1 <= m <= 12 /\ 1 <= d <= _days_in_month y m
  /\ 0 <= hh <= 23 /\ 0 <= mm <= 59 /\ 0 <= ss <= 59.
Proof.
  unfold new_datetime.
  destruct (_ && _) eqn:H; [|discriminate]. intros [= <-].
  repeat (apply andb_prop in H as [H ?]). split; [reflexivity|lia].
Qed.

Lemma new_datetime_valid y m d hh mm ss t :
  new_datetime y m d hh mm ss = Ok t -> valid_datetime t.
Proof.
  intros H. pose proof (new_datetime_fields _ _ _ _ _ _ _ H) as [-> _]. exact H.
Qed.

Lemma strptime_valid s t : strptime s = Ok t -> valid_datetime t.
Proof.
  unfold strptime.
  destruct (re_match strptime_regex s) as [[caps rest]|]; [|discriminate].
  do 7 (destruct caps as [|? caps]; try discriminate).
  destruct rest; [|discriminate]. apply new_datetime_valid.
Qed.

Lemma days_before_year_succ y :
  _days_before_year (y + 1) = _days_before_year y + 365 + (if _is_leap y then 1 else 0).
Proof.
  unfold _days_before_year, _is_leap. replace (y + 1 - 1) with y by lia.
  destruct (Z.eqb_spec (y mod 4) 0), (Z.eqb_spec (y mod 100) 0), (Z.eqb_spec (y mod 400) 0);
    simpl; Z.div_mod_to_equations; lia.
Qed.

Lemma days_before_year_mono y1 y2 :
  y1 <= y2 -> _days_before_year y1 <= _days_before_year y2.
Proof. unfold _days_before_year. intros H. Z.div_mod_to_equations. lia. Qed.

Ltac month_cases m :=
  let H := fresh in
  assert (H : m = 1 \/ m = 2 \/ m = 3 \/ m = 4 \/ m = 5 \/ m = 6 \/ m = 7 \/ m = 8
              \/ m = 9 \/ m = 10 \/ m = 11 \/ m = 12) by lia;
  repeat (destruct H as [H|H]); subst m.

Lemma day_of_year_bounds y m d :
  1 <= m <= 12 -> 1 <= d <= _days_in_month y m ->
  1 <= _days_before_month y m + d <= 365 + (if _is_leap y then 1 else 0).
Proof.
  intros Hm. unfold _days_before_month, _days_in_month.
  month_cases m; destruct (_is_leap y); simpl; lia.
Qed.

Lemma month_order y m1 d1 m2 d2 :
  1 <= m1 -> m1 < m2 -> m2 <= 12 ->
  d1 <= _days_in_month y m1 -> 1 <= d2 ->
  _days_before_month y m1 + d1 < _days_before_month y m2 + d2.
Proof.
  intros H1 H12 H2. unfold _days_before_month, _days_in_month.
  month_cases m1; month_cases m2; try lia; destruct (_is_leap y); simpl; lia.
Qed.

(** A datetime that is not later, as Python orders datetimes, lies a
    non-positive number of seconds away. *)
Lemma datetime_leb_seconds a b :
  valid_datetime a -> valid_datetime b ->
  datetime_leb a b = true -> total_seconds a b <= 0.
Proof.
  intros (_ & Hya & Hma & Hda & Hha & Hmia & Hsa)%new_datetime_fields
         (_ & Hyb & Hmb & Hdb & Hhb & Hmib & Hsb)%new_datetime_fields.
  unfold datetime_leb, datetime_tuple, total_seconds, toordinal, _ymd2ord. simpl.
  destruct a as [ya ma da ha mia sa], b as [yb mb db hb mib sb]; simpl in *.
  pose proof (day_of_year_bounds ya ma da Hma Hda) as Ba.
  pose proof (day_of_year_bounds yb mb db Hmb Hdb) as Bb.
  destruct (Z.ltb_spec ya yb) as [Hy|Hy]; simpl.
  { intros _. pose proof (days_before_year_succ ya) as Hs.
    pose proof (days_before_year_mono (ya + 1) yb ltac:(lia)). lia. }
  destruct (Z.eqb_spec ya yb) as [->|]; [simpl|discriminate].
  destruct (Z.ltb_spec ma mb) as [Hm|Hm]; simpl.
  { intros _. pose proof (month_order yb ma da mb db). lia. }
  destruct (Z.eqb_spec ma mb) as [->|]; [simpl|discriminate].
  destruct (Z.ltb_spec da db) as [Hd|Hd]; simpl; [lia|].
  destruct (Z.eqb_spec da db) as [->|]; [simpl|discriminate].
  destruct (Z.ltb_spec ha hb); simpl; [lia|].
  destruct (Z.eqb_spec ha hb) as [->|]; [simpl|discriminate].
  destruct (Z.ltb_spec mia mib); simpl; [lia|].
  destruct (Z.eqb_spec mia mib) as [->|]; [simpl|discriminate].
  destruct (Z.ltb_spec sa sb); simpl; [lia|].
  destruct (Z.eqb_spec sa sb) as [->|]; [simpl|discriminate]. lia.
Qed.

End Calendar.

(** ** The guard's contract *)

Section GuardClaims.

Implicit Types (new_data old_data : price_data) (post cand : string) (rest hist : list string).

Lemma extract_timestamp_valid tweet d t :
  snd (_extract_price_data tweet) = Some d -> timestamp d = Some t -> valid_datetime t.
Proof.
  unfold _extract_price_data, extract_try.
  destruct (group1 (re_search btc_re tweet)) as [b|]; [|discriminate].
  destruct (group1 (re_search eth_re tweet)) as [e|]; [|discriminate].
  destruct (python_float (remove_char "," b)) as [vb|]; [|discriminate].
  destruct (python_float (remove_char "," e)) as [ve|]; [|discriminate]. simpl.
  destruct (group1 (re_search timestamp_re tweet)) as [ts|].
  - destruct (strptime ts) as [t'|] eqn:Hp; [|discriminate]. simpl.
    intros [= <-] [= <-]. now apply strptime_valid in Hp.
  - simpl. intros [= <-]. discriminate.
Qed.

(** A comparison is a match exactly under the conditions of the [if]s. *)
Lemma compare_hit_iff new_data old_data bc ec :
  compare_with new_data old_data = Ok (Some (bc, ec)) <->
  price_change (btc new_data) (btc old_data) = Ok bc
  /\ price_change (eth new_data) (eth old_data) = Ok ec
  /\ PrimFloat.ltb bc MIN_CHANGE_THRESHOLD = true
  /\ PrimFloat.ltb ec MIN_CHANGE_THRESHOLD = true
  /\ exists new_ts old_ts, timestamp new_data = Some new_ts
       /\ timestamp old_data = Some old_ts /\ total_seconds new_ts old_ts < 30.
Proof.
  unfold compare_with.
  destruct (price_change (btc new_data) (btc old_data)) as [b|]; simpl.
  2: { split; [discriminate | now intros [? _]]. }
  destruct (price_change (eth new_data) (eth old_data)) as [e|]; simpl.
  2: { split; [discriminate | now intros (_ & ? & _)]. }
  destruct (PrimFloat.ltb b MIN_CHANGE_THRESHOLD) eqn:Hb; simpl.
  2: { split; [discriminate | intros ([= <-] & _ & ? & _); congruence]. }
  destruct (PrimFloat.ltb e MIN_CHANGE_THRESHOLD) eqn:He; simpl.
  2: { split; [discriminate | intros (_ & [= <-] & _ & ? & _); congruence]. }
  destruct (timestamp new_data) as [tn|], (timestamp old_data) as [to|];
    try (split; [discriminate | now intros (_ & _ & _ & _ & ? & ? & ? & ? & _)]).
  destruct (Z.ltb_spec (total_seconds tn to) 30).
  - split.
    + intros [= <- <-]. repeat split; auto. now exists tn, to.
    + now intros ([= <-] & [= <-] & _).
  - split; [discriminate|].
    intros (_ & _ & _ & _ & tn' & to' & [= <-] & [= <-] & ?). lia.
Qed.

(** C7. The duplicate check is fail-open on malformed text. Extraction
    always returns a dict, the empty one whenever its [try] raised or a
    price pattern did not match; a candidate without a usable price pair
    makes the check return [False]; a history entry without one is skipped
    and the check goes on with the entries after it; a history of such
    entries only gives [False]. *)
Theorem C7_guard_fail_open :
  (forall tweet e, extract_try tweet = Raise e -> snd (_extract_price_data tweet) = None)
  /\ (forall tweet,
        group1 (re_search btc_re tweet) = None \/ group1 (re_search eth_re tweet) = None ->
        _extract_price_data tweet = ([], None))
  /\ (forall cand hist,
        snd (_extract_price_data cand) = None ->
        snd (_is_duplicate_analysis cand hist) = Ok false)
  /\ (forall cand post rest,
        snd (_extract_price_data post) = None ->
        snd (_is_duplicate_analysis cand (post :: rest))
        = snd (_is_duplicate_analysis cand rest))
  /\ (forall cand hist,
        Forall (fun post => snd (_extract_price_data post) = None) hist ->
        snd (_is_duplicate_analysis cand hist) = Ok false).
Proof.
  split; [|split; [|split; [|split]]].
  - intros tweet e H. now rewrite (extract_raise _ _ H).
  - exact extract_no_match.
  - exact is_duplicate_unparsed.
  - intros cand post rest H.
    destruct (snd (_extract_price_data cand)) as [n|] eqn:Hc.
    + rewrite !(is_duplicate_parsed _ _ _ Hc). now apply loop_skip.
    + now rewrite !is_duplicate_unparsed.
  - intros cand hist H.
    destruct (snd (_extract_price_data cand)) as [n|] eqn:Hc.
    + rewrite (is_duplicate_parsed _ _ _ Hc).
      induction H as [|post hist Hp _ IH]; [reflexivity|]. now rewrite loop_skip.
    + now apply is_duplicate_unparsed.
Qed.

Lemma C7_guard_fail_open_witness :
  snd (_is_duplicate_analysis post_no_prices [post_10s_earlier]) = Ok false
  /\ snd (_is_duplicate_analysis candidate_post [post_no_prices; post_10s_earlier])
     = snd (_is_duplicate_analysis candidate_post [post_10s_earlier]).
Proof.
  destruct C7_guard_fail_open as (_ & _ & Hcand & Hskip & _). split.
  - apply Hcand. vm_compute. reflexivity.
  - apply Hskip. vm_compute. reflexivity.
Defined.

(** C8. The percentage change divides by the old prices without a zero
    guard: when the entry the loop reaches parses and its BTC or ETH price
    is zero, the check raises [ZeroDivisionError] instead of answering; and
    such a candidate and entry exist. *)
Theorem C8_zero_price_unhandled :
  (forall cand pre post rest new_data old_data,
      snd (_extract_price_data cand) = Some new_data ->
      Forall (passes new_data) pre ->
      snd (_extract_price_data post) = Some old_data ->
      PrimFloat.eqb (btc old_data) 0 = true \/ PrimFloat.eqb (eth old_data) 0 = true ->
      snd (_is_duplicate_analysis cand (pre ++ post :: rest)) = Raise ZeroDivisionError)
  /\ (exists cand post new_data old_data,
        snd (_extract_price_data cand) = Some new_data
        /\ snd (_extract_price_data post) = Some old_data
        /\ PrimFloat.eqb (btc old_data) 0 = true
        /\ snd (_is_duplicate_analysis cand [post]) = Raise ZeroDivisionError).
Proof.
  split.
  - intros cand pre post rest n o Hc Hpre Hp Hz.
    rewrite (is_duplicate_parsed _ _ _ Hc), loop_passes by assumption.
    apply loop_faults. exists o. split; [exact Hp | now apply compare_zero].
  - exists candidate_post, post_zero_price.
    destruct (snd (_extract_price_data candidate_post)) as [n|] eqn:Hn;
      [|vm_compute in Hn; discriminate].
    destruct (snd (_extract_price_data post_zero_price)) as [o|] eqn:Ho;
      [|vm_compute in Ho; discriminate].
    exists n, o. split; [reflexivity|]. split; [reflexivity|]. split.
    + vm_compute in Ho. injection Ho as <-. reflexivity.
    + vm_compute. reflexivity.
Qed.

Lemma C8_zero_price_unhandled_witness :
  snd (_is_duplicate_analysis candidate_post
         [post_no_prices; post_zero_price; post_10s_earlier])
  = Raise ZeroDivisionError.
Proof.
  destruct (snd (_extract_price_data candidate_post)) as [n|] eqn:Hn;
    [|vm_compute in Hn; discriminate].
  destruct (snd (_extract_price_data post_zero_price)) as [o|] eqn:Ho;
    [|vm_compute in Ho; discriminate].
  apply (proj1 C8_zero_price_unhandled candidate_post [post_no_prices] post_zero_price
               [post_10s_earlier] n o Hn).
  - constructor; [|constructor]. left. vm_compute. reflexivity.
  - exact Ho.
  - left. vm_compute in Ho. injection Ho as <-. reflexivity.
Defined.

(** C9. The 30-second window is a signed comparison. When candidate and
    entry both parse with prices and timestamps, both price changes are
    below the threshold, and the entry's timestamp is not earlier than the
    candidate's, the entry is a duplicate, however far in the future it
    lies: only [new - old < 30 s] is tested. (The entry is the one the loop
    reaches: the posts before it pass.) *)
Theorem C9_window_is_signed cand pre post rest new_data old_data new_ts old_ts bc ec :
  snd (_extract_price_data cand) = Some new_data ->
  Forall (passes new_data) pre ->
  snd (_extract_price_data post) = Some old_data ->
  timestamp new_data = Some new_ts ->
  timestamp old_data = Some old_ts ->
  price_change (btc new_data) (btc old_data) = Ok bc ->
  price_change (eth new_data) (eth old_data) = Ok ec ->
  PrimFloat.ltb bc MIN_CHANGE_THRESHOLD = true ->
  PrimFloat.ltb ec MIN_CHANGE_THRESHOLD = true ->
  datetime_leb new_ts old_ts = true ->
  total_seconds new_ts old_ts <= 0
  /\ snd (_is_duplicate_analysis cand (pre ++ post :: rest)) = Ok true.
Proof.
  intros Hc Hpre Hp Hn Ho Hb He Hbt Het Hle.
  assert (Hs : total_seconds new_ts old_ts <= 0).
  { apply datetime_leb_seconds; [| |exact Hle].
    - exact (extract_timestamp_valid _ _ _ Hc Hn).
    - exact (extract_timestamp_valid _ _ _ Hp Ho). }
  split; [exact Hs|].
  rewrite (is_duplicate_parsed _ _ _ Hc), loop_passes by assumption.
  apply loop_hits. exists old_data, (bc, ec). split; [exact Hp|].
  apply compare_hit_iff. repeat split; auto.
  exists new_ts, old_ts. repeat split; auto. lia.
Qed.

Lemma C9_window_is_signed_witness :
  total_seconds (mk_datetime 2024 1 1 0 0 0) (mk_datetime 2025 1 1 0 0 0) <= 0
  /\ snd (_is_duplicate_analysis candidate_post [post_40s_earlier; post_a_year_later])
     = Ok true.
Proof.
  eapply (C9_window_is_signed candidate_post [post_40s_earlier] post_a_year_later []).
  - vm_compute. reflexivity.
  - constructor; [|constructor]. right. eexists.
    split; [vm_compute; reflexivity | vm_compute; reflexivity].
  - vm_compute. reflexivity.
  - reflexivity.
  - reflexivity.
  - vm_compute. reflexivity.
  - vm_compute. reflexivity.
  - vm_compute. reflexivity.
  - vm_compute. reflexivity.
  - vm_compute. reflexivity.
Defined.

(** C10. A timestamp match that is not a datetime discards the prices.
    When both price patterns match and convert, the outcome is decided by
    the match of the timestamp pattern ([re.search], so the first one): if
    its text is refused by [strptime], extraction logs the error and
    returns the empty dict; only when the pattern does not match at all are
    the prices returned without a timestamp. *)
Theorem C10_bad_timestamp_empties_record tweet b e vb ve :
  group1 (re_search btc_re tweet) = Some b ->
  group1 (re_search eth_re tweet) = Some e ->
  python_float (remove_char "," b) = Ok vb ->
  python_float (remove_char "," e) = Ok ve ->
  (forall t err,
      group1 (re_search timestamp_re tweet) = Some t -> strptime t = Raise err ->
      _extract_price_data tweet = ([price_extraction_error err], None))
  /\ (forall t ts,
      group1 (re_search timestamp_re tweet) = Some t -> strptime t = Ok ts ->
      _extract_price_data tweet = ([], Some (mk_price_data vb ve (Some ts))))
  /\ (group1 (re_search timestamp_re tweet) = None ->
      _extract_price_data tweet = ([], Some (mk_price_data vb ve None))).
Proof.
  intros Hb He Hvb Hve.
  unfold _extract_price_data, extract_try. rewrite Hb, He, Hvb, Hve. simpl.
  repeat split.
  - intros t err -> ->. reflexivity.
  - intros t ts -> ->. reflexivity.
  - intros ->. reflexivity.
Qed.

Lemma C10_bad_timestamp_empties_record_witness :
  _extract_price_data post_bad_date = ([price_extraction_error ValueError], None)
  /\ exists vb ve, _extract_price_data post_no_date = ([], Some (mk_price_data vb ve None)).
Proof.
  split.
  - edestruct (C10_bad_timestamp_empties_record post_bad_date) as (H & _ & _);
      [vm_compute; reflexivity .. |].
    apply (H "2024-02-30 00:00:00"); vm_compute; reflexivity.
  - edestruct (C10_bad_timestamp_empties_record post_no_date) as (_ & _ & H);
      [vm_compute; reflexivity .. |].
    eexists _, _. apply H. vm_compute. reflexivity.
Defined.

(** The guard on a history without zero prices: it returns, and returns
    [True] exactly when some entry parses, both changes are below the
    threshold, both records carry timestamps and the signed difference is
    below 30 seconds. *)
Lemma guard_on_nonzero_history cand hist new_data :
  snd (_extract_price_data cand) = Some new_data ->
  nonzero_prices hist ->
  (exists b, snd (_is_duplicate_analysis cand hist) = Ok b)
  /\ (snd (_is_duplicate_analysis cand hist) = Ok true <->
      exists post old_data bc ec new_ts old_ts,
        In post hist
        /\ snd (_extract_price_data post) = Some old_data
        /\ price_change (btc new_data) (btc old_data) = Ok bc
        /\ price_change (eth new_data) (eth old_data) = Ok ec
        /\ PrimFloat.ltb bc MIN_CHANGE_THRESHOLD = true
        /\ PrimFloat.ltb ec MIN_CHANGE_THRESHOLD = true
        /\ timestamp new_data = Some new_ts
        /\ timestamp old_data = Some old_ts
        /\ total_seconds new_ts old_ts < 30).
Proof.
  intros Hc Hnz. rewrite (is_duplicate_parsed _ _ _ Hc).
  destruct (loop_nonzero new_data hist Hnz) as [Hb Ht]. split; [exact Hb|].
  rewrite Ht. split.
  - intros (post & Hin & old & [bc ec] & Hp & Hcmp).
    apply compare_hit_iff in Hcmp as (H1 & H2 & H3 & H4 & tn & to & H5 & H6 & H7).
    exists post, old, bc, ec, tn, to. repeat split; auto.
  - intros (post & old & bc & ec & tn & to & Hin & Hp & H1 & H2 & H3 & H4 & H5 & H6 & H7).
    exists post. split; [exact Hin|]. exists old, (bc, ec). split; [exact Hp|].
    apply compare_hit_iff. repeat split; auto. now exists tn, to.
Qed.

(** *** The change is the specification's formula

    Rounding to nearest is symmetric in the sign, so taking the absolute
    value before or after dividing by a positive price and scaling gives
    the same double. *)

Lemma binary_round_aux_abs s m e l :
  SFabs (binary_round_aux prec emax s m e l) = binary_round_aux prec emax false m e l.
Proof.
  unfold binary_round_aux.
  destruct (shr_fexp prec emax m e l) as [mrs' e'].
  destruct (shr_fexp prec emax _ e' loc_Exact) as [mrs'' e''].
  destruct (shr_m mrs''); [reflexivity| |reflexivity].
  now destruct (Z.leb e'' (emax - prec)).
Qed.

Lemma SFdiv_abs x y :
  SF_positive y ->
  SFabs (SFdiv prec emax x y) = SFdiv prec emax (SFabs x) y.
Proof.
  intros [-> | (m & e & ->)]; destruct x as [sx|sx| |sx mx ex]; try reflexivity.
  cbn [SFdiv SFabs]. destruct (SFdiv_core_binary prec emax _ ex _ e) as [[mz ez] lz].
  apply binary_round_aux_abs.
Qed.

Lemma SFmul_abs x m e :
  SFabs (SFmul prec emax x (S754_finite false m e))
  = SFmul prec emax (SFabs x) (S754_finite false m e).
Proof.
  destruct x as [sx|sx| |sx mx ex]; try reflexivity.
  cbn [SFmul SFabs]. apply binary_round_aux_abs.
Qed.

Lemma positive_float c :
  PrimFloat.ltb 0 c = true ->
  SF_positive (Prim2SF c) /\ PrimFloat.eqb c 0 = false.
Proof.
  rewrite ltb_spec, eqb_spec. change (Prim2SF 0) with (S754_zero false).
  destruct (Prim2SF c) as [[|]|[|]| |[|] m e]; simpl; try discriminate; intros _.
  - split; [now left | reflexivity].
  - split; [right; now exists m, e | reflexivity].
Qed.

Lemma abs_scaled_quotient a c :
  PrimFloat.ltb 0 c = true ->
  PrimFloat.abs (a / c * 100)%float = (PrimFloat.abs a / c * 100)%float.
Proof.
  intros [Hc _]%positive_float. apply Prim2SF_inj.
  rewrite abs_spec, !mul_spec, !div_spec, abs_spec. unfold SF64mul, SF64div.
  change (Prim2SF 100) with (S754_finite false 7036874417766400 (-46)).
  now rewrite SFmul_abs, SFdiv_abs.
Qed.

(** For a positive old price the code's change is the specification's. *)
Lemma price_change_is_spec_change new old :
  PrimFloat.ltb 0 old = true -> price_change new old = Ok (spec_change new old).
Proof.
  intros H. unfold price_change, float_div, spec_change.
  rewrite (proj2 (positive_float old H)). simpl. now rewrite abs_scaled_quotient.
Qed.

Lemma positive_nonzero hist : positive_prices hist -> nonzero_prices hist.
Proof.
  intros H post old Hin Hp. destruct (H post old Hin Hp) as [Hb He].
  split; now apply positive_float.
Qed.

(** The guard on a history of positive prices, in the words of the
    specification: it returns, and returns [True] exactly when for some
    entry both [|new - old| / old * 100] are below the threshold, both
    records carry a timestamp, and [new - old] is below 30 seconds. *)
Lemma guard_on_positive_history cand hist new_data :
  snd (_extract_price_data cand) = Some new_data ->
  positive_prices hist ->
  (exists b, snd (_is_duplicate_analysis cand hist) = Ok b)
  /\ (snd (_is_duplicate_analysis cand hist) = Ok true <->
      exists post old_data new_ts old_ts,
        In post hist
        /\ snd (_extract_price_data post) = Some old_data
        /\ PrimFloat.ltb (spec_change (btc new_data) (btc old_data))
                         MIN_CHANGE_THRESHOLD = true
        /\ PrimFloat.ltb (spec_change (eth new_data) (eth old_data))
                         MIN_CHANGE_THRESHOLD = true
        /\ timestamp new_data = Some new_ts
        /\ timestamp old_data = Some old_ts
        /\ total_seconds new_ts old_ts < 30).
Proof.
  intros Hc Hpos.
  destruct (guard_on_nonzero_history cand hist new_data Hc (positive_nonzero _ Hpos))
    as [Hb Ht].
  split; [exact Hb|]. rewrite Ht. split.
  - intros (post & old & bc & ec & tn & to & Hin & Hp & H1 & H2 & H3 & H4 & H5 & H6 & H7).
    destruct (Hpos post old Hin Hp) as [Pb Pe].
    rewrite (price_change_is_spec_change _ _ Pb) in H1. injection H1 as <-.
    rewrite (price_change_is_spec_change _ _ Pe) in H2. injection H2 as <-.
    exists post, old, tn, to. repeat split; auto.
  - intros (post & old & tn & to & Hin & Hp & H3 & H4 & H5 & H6 & H7).
    destruct (Hpos post old Hin Hp) as [Pb Pe].
    exists post, old, (spec_change (btc new_data) (btc old)),
      (spec_change (eth new_data) (eth old)), tn, to.
    repeat split; auto using price_change_is_spec_change.
Qed.

(** C1. The guard at the spec's two examples, on an empty history, and
    where it departs from the claim: a history entry with a zero price
    makes the check raise before it reaches the matching entry behind
    it. *)
Theorem C1_guard_examples_and_zero_price :
  snd (_is_duplicate_analysis candidate_post [post_10s_earlier]) = Ok true
  /\ snd (_is_duplicate_analysis candidate_post [post_40s_earlier]) = Ok false
  /\ snd (_is_duplicate_analysis candidate_post []) = Ok false
  /\ snd (_is_duplicate_analysis candidate_post [post_zero_price; post_10s_earlier])
     = Raise ZeroDivisionError.
Proof. repeat split; vm_compute; reflexivity. Qed.

End GuardClaims.

(** ** The formatter's length *)

Section Formatter.

Lemma len_append (a b : string) : len (a ++ b) = len a + len b.
Proof. unfold len. rewrite len_app. lia. Qed.

Lemma len_nonneg (a : string) : 0 <= len a.
Proof. unfold len. lia. Qed.

(** The loop keeps header, lines and hashtag block within the hard stop
    once header and hashtag block fit. *)
Lemma fit_lines_bound base formatted lines :
  len (base ++ formatted ++ nl ++ hashtags) <= HARD_STOP_LENGTH TWEET_CONSTRAINTS ->
  len (base ++ fit_lines base formatted lines ++ nl ++ hashtags)
  <= HARD_STOP_LENGTH TWEET_CONSTRAINTS.
Proof.
  revert formatted. induction lines as [|line rest IH]; intros formatted H; cbn [fit_lines].
  - exact H.
  - destruct (Z.leb_spec
                (len (base ++ formatted ++ line ++ nl ++ nl ++ hashtags))
                (HARD_STOP_LENGTH TWEET_CONSTRAINTS)) as [Hfit|_]; [|exact H].
    apply IH. rewrite !len_append in *. lia.
Qed.

(** When header and hashtag block do not fit, no line is taken. *)
Lemma fit_lines_none base lines :
  HARD_STOP_LENGTH TWEET_CONSTRAINTS < len (base ++ nl ++ hashtags) ->
  fit_lines base EmptyString lines = EmptyString.
Proof.
  intros H. destruct lines as [|line rest]; cbn [fit_lines]; [reflexivity|].
  destruct (Z.leb_spec (len (base ++ EmptyString ++ line ++ nl ++ nl ++ hashtags))
                       (HARD_STOP_LENGTH TWEET_CONSTRAINTS)) as [Hfit|_]; [|reflexivity].
  rewrite !len_append in *. pose proof (len_nonneg line).
  change (len EmptyString) with 0 in *. change (len nl) with 1 in *. lia.
Qed.

Lemma format_length_cases now analysis btc eth :
  let base := base_tweet_of now btc eth in
  (len (base ++ nl ++ hashtags) <= HARD_STOP_LENGTH TWEET_CONSTRAINTS ->
   len (_format_tweet_analysis now analysis btc eth) <= HARD_STOP_LENGTH TWEET_CONSTRAINTS)
  /\ (HARD_STOP_LENGTH TWEET_CONSTRAINTS < len (base ++ nl ++ hashtags) ->
      _format_tweet_analysis now analysis btc eth = base ++ nl ++ hashtags).
Proof.
  intros base. unfold _format_tweet_analysis. fold base. split; intros H.
  - pose proof (fit_lines_bound base EmptyString (split_on LF analysis) H) as Hb.
    destruct (Z.ltb_spec
      (len (base ++ fit_lines base EmptyString (split_on LF analysis) ++ nl ++ hashtags))
      (MIN_LENGTH TWEET_CONSTRAINTS)) as [Hshort|_]; [|exact Hb].
    rewrite len_append. rewrite (len_append nl). simpl in *. 
    change (len nl) with 1. change (len "Detailed analysis available.") with 28. lia.
  - rewrite (fit_lines_none base _ H).
    change (base ++ EmptyString ++ nl ++ hashtags) with (base ++ nl ++ hashtags).
    destruct (Z.ltb_spec (len (base ++ nl ++ hashtags))
                         (MIN_LENGTH TWEET_CONSTRAINTS)) as [Hshort|_]; [|reflexivity].
    simpl in *. lia.
Qed.

(** C2, as the code has it. Whenever the header (timestamp and the two
    price lines) and the hashtag block fit in [HARD_STOP_LENGTH] by
    themselves, that is whenever the header has at most 262 characters,
    the formatted post has at most [HARD_STOP_LENGTH] = 280 characters, for
    every analysis text. *)
Theorem C2_format_within_hard_stop now analysis btc eth :
  len (base_tweet_of now btc eth) <= 262 ->
  len (_format_tweet_analysis now analysis btc eth) <= HARD_STOP_LENGTH TWEET_CONSTRAINTS.
Proof.
  intros H. apply format_length_cases. rewrite len_append.
  change (len (nl ++ hashtags)) with 18. simpl. lia.
Qed.

Lemma C2_format_within_hard_stop_witness :
  len (_format_tweet_analysis new_year "Markets are flat." btc_coin eth_coin)
  <= HARD_STOP_LENGTH TWEET_CONSTRAINTS.
Proof.
  apply C2_format_within_hard_stop. vm_compute. discriminate.
Defined.

(** C2 as stated fails: a header that is too long by itself is never
    shortened. *)
Lemma C2_counterexample :
  ~ (forall now analysis btc eth,
        len (_format_tweet_analysis now analysis btc eth)
        <= HARD_STOP_LENGTH TWEET_CONSTRAINTS).
Proof.
  intros H. specialize (H new_year "Markets are flat." btc_huge eth_coin).
  vm_compute in H. apply H. reflexivity.
Qed.

(** A header that does not fit is returned with the hashtag block and
    nothing else, over the hard stop. *)
Lemma format_over_hard_stop now analysis btc eth :
  262 < len (base_tweet_of now btc eth) ->
  HARD_STOP_LENGTH TWEET_CONSTRAINTS < len (_format_tweet_analysis now analysis btc eth).
Proof.
  intros H.
  assert (H' : HARD_STOP_LENGTH TWEET_CONSTRAINTS
               < len (base_tweet_of now btc eth ++ nl ++ hashtags)).
  { rewrite len_append. change (len (nl ++ hashtags)) with 18. simpl. lia. }
  now rewrite (proj2 (format_length_cases now analysis btc eth) H').
Qed.

(** The post is never the empty text. *)
Lemma format_nonempty now analysis btc eth :
  String.eqb (_format_tweet_analysis now analysis btc eth) EmptyString = false.
Proof.
  unfold _format_tweet_analysis.
  destruct (_ <? _); unfold base_tweet_of; reflexivity.
Qed.

End Formatter.

(** ** The market-data fetch *)

Ltac conjuncts := repeat match goal with |- _ /\ _ => split end.

Section Fetch.

Variable env : Env.

Lemma gets_time_out_next w k :
  gets_time_out env w (S k) ->
  timed_out (session_get env (n_get w)) = true
  /\ forall w', n_get w' = S (n_get w) -> gets_time_out env w' k.
Proof.
  intros H. split.
  - specialize (H O). rewrite Nat.add_0_r in H. apply H. lia.
  - intros w' Hw i Hi. rewrite Hw.
    replace (S (n_get w) + i)%nat with (n_get w + S i)%nat by lia. apply H. lia.
Qed.

Lemma backoff_from_S rc k :
  backoff_from rc (S k) = ((rc + 1) * 10 :: backoff_from (rc + 1) k)%list.
Proof.
  unfold backoff_from. cbn [seq map]. f_equal.
  rewrite <- seq_shift, map_map. apply map_ext. intros i. f_equal. lia.
Qed.

(** [k] timeouts use up [k] passes of the loop and wait after each. *)
Lemma crypto_loop_timeouts k : forall left rc w,
  gets_time_out env w k ->
  exists w' l,
    crypto_loop env (k + left) rc w = crypto_loop env left (rc + Z.of_nat k) w'
    /\ n_get w' = (n_get w + k)%nat
    /\ slept w' = (slept w ++ backoff_from rc k)%list
    /\ logged w' = (logged w ++ l)%list
    /\ ~ In coingecko_max_retries l
    /\ n_create w' = n_create w /\ n_now w' = n_now w /\ n_profile w' = n_profile w
    /\ publisher_untouched w w'.
Proof.
  induction k as [|k IH]; intros left rc w H.
  - exists w, []. unfold backoff_from, publisher_untouched. simpl.
    rewrite Z.add_0_r, Nat.add_0_r, !app_nil_r. repeat split; auto.
  - apply gets_time_out_next in H as [H0 Hk].
    cbn [Nat.add crypto_loop].
    destruct (session_get env (n_get w)) as [e|e|coins]; try discriminate;
      destruct e; try discriminate.
    + pose (w1 := sleep ((rc + 1) * 10)
                     (emit (coingecko_timeout (rc + 1) ((rc + 1) * 10)) (count_get w))).
      destruct (IH left (rc + 1) w1 (Hk w1 eq_refl))
        as (w' & l & Heq & Hn & Hs & Hl & Hnot & Hf). subst w1.
      exists w', (coingecko_timeout (rc + 1) ((rc + 1) * 10) :: l)%list.
      rewrite Heq. unfold publisher_untouched in *. simpl in *.
      rewrite Hn, Hs, Hl, backoff_from_S, <- !app_assoc.
      replace (rc + 1 + Z.of_nat k) with (rc + Z.pos (Pos.of_succ_nat k)) by lia.
      repeat split; try tauto; try lia.
      intros [Hin|Hin]; [discriminate|tauto].
    + pose (w1 := sleep ((rc + 1) * 10)
                     (emit (coingecko_timeout (rc + 1) ((rc + 1) * 10))
                        (emit (coingecko_request true) (count_get w)))).
      destruct (IH left (rc + 1) w1 (Hk w1 eq_refl))
        as (w' & l & Heq & Hn & Hs & Hl & Hnot & Hf). subst w1.
      exists w', (coingecko_request true :: coingecko_timeout (rc + 1) ((rc + 1) * 10) :: l)%list.
      rewrite Heq. unfold publisher_untouched in *. simpl in *.
      rewrite Hn, Hs, Hl, backoff_from_S, <- !app_assoc.
      replace (rc + 1 + Z.of_nat k) with (rc + Z.pos (Pos.of_succ_nat k)) by lia.
      repeat split; try tauto; try lia.
      intros [Hin|[Hin|Hin]]; [discriminate|discriminate|tauto].
Qed.

(** Every pass leaves the other collaborators alone, and a returned dict
    has both records. *)
Lemma crypto_loop_frame : forall left rc w,
  let r := crypto_loop env left rc w in
  n_create (snd r) = n_create w /\ n_now (snd r) = n_now w
  /\ n_profile (snd r) = n_profile w /\ publisher_untouched w (snd r)
  /\ forall data, fst r = Some data ->
       is_Some (data !! "BTC") /\ is_Some (data !! "ETH").
Proof.
  unfold publisher_untouched.
  induction left as [|left IH]; intros rc w; cbn [crypto_loop].
  - simpl. conjuncts; auto; discriminate.
  - destruct (session_get env (n_get w)) as [e|e|coins].
    + destruct e; simpl; try (conjuncts; auto; discriminate).
      edestruct IH as (H1 & H2 & H3 & [H4 H5] & H6). rewrite H1, H2, H3, H4, H5.
      simpl. conjuncts; auto.
    + destruct e; simpl; try (conjuncts; auto; discriminate).
      edestruct IH as (H1 & H2 & H3 & [H4 H5] & H6). rewrite H1, H2, H3, H4, H5.
      simpl. conjuncts; auto.
    + destruct (by_symbol coins !! "BTC") as [b|] eqn:Hb;
        [destruct (by_symbol coins !! "ETH") as [e|] eqn:He|];
        simpl; conjuncts; auto; try discriminate.
      intros d [= <-]. rewrite Hb, He. eauto.
Qed.

(** The max-retries line is logged only by a call whose passes all timed
    out. *)
Lemma crypto_loop_max_retries : forall left rc w,
  exists l, logged (snd (crypto_loop env left rc w)) = (logged w ++ l)%list
            /\ (In coingecko_max_retries l ->
                gets_time_out env w left
                /\ n_get (snd (crypto_loop env left rc w)) = (n_get w + left)%nat).
Proof.
  induction left as [|left IH]; intros rc w; cbn [crypto_loop].
  - exists [coingecko_max_retries]. simpl. split; [reflexivity|]. intros _.
    split; [intros i Hi; lia | lia].
  - assert (Hnext : forall w1 l1 rc1,
      n_get w1 = S (n_get w) -> logged w1 = (logged w ++ l1)%list ->
      ~ In coingecko_max_retries l1 ->
      timed_out (session_get env (n_get w)) = true ->
      exists l, logged (snd (crypto_loop env left rc1 w1)) = (logged w ++ l)%list
                /\ (In coingecko_max_retries l ->
                    gets_time_out env w (S left)
                    /\ n_get (snd (crypto_loop env left rc1 w1)) = (n_get w + S left)%nat)).
    { intros w1 l1 rc1 Hn Hl Hnot Ht.
      destruct (IH rc1 w1) as (l & Hlog & Hmax).
      exists (l1 ++ l)%list. rewrite Hlog, Hl, app_assoc. split; [reflexivity|].
      intros [Hin|Hin]%in_app_or; [tauto|].
      destruct (Hmax Hin) as [Hto Hcount]. split; [|lia].
      intros [|i] Hi; [now rewrite Nat.add_0_r|].
      replace (n_get w + S i)%nat with (n_get w1 + i)%nat by lia. apply Hto. lia. }
    assert (Hstop : forall l0,
      ~ In coingecko_max_retries l0 ->
      exists l, (logged w ++ l0 = logged w ++ l)%list
                /\ (In coingecko_max_retries l -> False)).
    { intros l0 H. now exists l0. }
    destruct (session_get env (n_get w)) as [e|e|coins] eqn:Hget.
    + destruct e;
        try (simpl; rewrite <- app_assoc;
             edestruct Hstop as (l & -> & Hl);
             [|exists l; split; [reflexivity | intros H; destruct (Hl H)]];
             simpl; intuition discriminate).
      apply (Hnext _ [coingecko_timeout (rc + 1) ((rc + 1) * 10)]); auto.
      simpl. intuition discriminate.
    + destruct e;
        try (simpl; rewrite <- !app_assoc;
             edestruct Hstop as (l & -> & Hl);
             [|exists l; split; [reflexivity | intros H; destruct (Hl H)]];
             simpl; intuition discriminate).
      apply (Hnext _ [coingecko_request true; coingecko_timeout (rc + 1) ((rc + 1) * 10)]);
        auto.
      * simpl. now rewrite <- app_assoc.
      * simpl. intuition discriminate.
    + destruct (by_symbol coins !! "BTC"); [destruct (by_symbol coins !! "ETH")|];
        simpl; rewrite <- !app_assoc;
        (edestruct Hstop as (l & -> & Hl);
         [|exists l; split; [reflexivity | intros H; destruct (Hl H)]]);
        simpl; intuition discriminate.
Qed.

(** The call after [k] timeouts, with [left] passes to go. *)
Lemma fetch_after_timeouts k left w :
  Z.to_nat max_retries = (k + left)%nat ->
  gets_time_out env w k ->
  exists w1 l,
    _get_crypto_data env w = crypto_loop env left (Z.of_nat k) w1
    /\ n_get w1 = (n_get w + k)%nat
    /\ slept w1 = (slept w ++ backoff k)%list
    /\ logged w1 = (logged w ++ l)%list.
Proof.
  intros Hm H. unfold _get_crypto_data. rewrite Hm.
  destruct (crypto_loop_timeouts k left 0 w H) as (w1 & l & Heq & Hn & Hs & Hl & _).
  exists w1, l. rewrite Heq. auto.
Qed.

(** At most two timeouts, then a well-shaped response: the data, after
    [k + 1] attempts and the waits [10, .., 10 k]. *)
Lemma fetch_succeeds k coins w :
  (k <= 2)%nat -> gets_time_out env w k ->
  session_get env (n_get w + k) = Json coins -> well_shaped coins ->
  fst (_get_crypto_data env w) = Some (by_symbol coins)
  /\ n_get (snd (_get_crypto_data env w)) = (n_get w + k + 1)%nat
  /\ slept (snd (_get_crypto_data env w)) = (slept w ++ backoff k)%list.
Proof.
  intros Hk H Hget [[b Hb] [e He]].
  destruct (fetch_after_timeouts k (S (2 - k)) w) as (w1 & l & -> & Hn & Hs & Hl);
    [change (Z.to_nat max_retries) with 3%nat; lia | exact H |].
  cbn [crypto_loop]. rewrite Hn, Hget, Hb, He. simpl. rewrite Hn, Hs.
  repeat split; auto; lia.
Qed.

(** Three timeouts: failure after exactly three attempts, a wait after each
    of them, and the max-retries line last. *)
Lemma fetch_exhausted w :
  gets_time_out env w 3 ->
  fst (_get_crypto_data env w) = None
  /\ n_get (snd (_get_crypto_data env w)) = (n_get w + 3)%nat
  /\ slept (snd (_get_crypto_data env w)) = (slept w ++ [10; 20; 30])%list
  /\ exists l, logged (snd (_get_crypto_data env w))
               = (logged w ++ l ++ [coingecko_max_retries])%list.
Proof.
  intros H.
  destruct (fetch_after_timeouts 3 0 w) as (w1 & l & -> & Hn & Hs & Hl);
    [reflexivity | exact H |].
  simpl. rewrite Hn, Hs, Hl. repeat split; auto. exists l. now rewrite app_assoc.
Qed.

(** A failure that is not a timeout ends the call at once: no further
    attempt, no wait, the error line last. *)
Lemma fetch_fails_fast k e w :
  (k <= 2)%nat -> gets_time_out env w k -> e <> Timeout ->
  session_get env (n_get w + k) = GetRaises e
  \/ session_get env (n_get w + k) = JsonRaises e ->
  fst (_get_crypto_data env w) = None
  /\ n_get (snd (_get_crypto_data env w)) = (n_get w + k + 1)%nat
  /\ slept (snd (_get_crypto_data env w)) = (slept w ++ backoff k)%list
  /\ exists l, logged (snd (_get_crypto_data env w))
               = (logged w ++ l ++ [coingecko_api_error e])%list.
Proof.
  intros Hk H He Hget.
  destruct (fetch_after_timeouts k (S (2 - k)) w) as (w1 & l & -> & Hn & Hs & Hl);
    [change (Z.to_nat max_retries) with 3%nat; lia | exact H |].
  cbn [crypto_loop]. rewrite Hn.
  destruct Hget as [-> | ->]; destruct e; try congruence; simpl;
    rewrite Hn, Hs, Hl; (repeat split; auto; try lia);
    first [ exists (l ++ [coingecko_request false])%list;
            now rewrite <- !app_assoc
          | exists (l ++ [coingecko_request true; coingecko_request false])%list;
            now rewrite <- !app_assoc ].
Qed.

(** A response without BTC or ETH ends the call at once as well. *)
Lemma fetch_bad_shape k coins w :
  (k <= 2)%nat -> gets_time_out env w k ->
  session_get env (n_get w + k) = Json coins ->
  by_symbol coins !! "BTC" = None \/ by_symbol coins !! "ETH" = None ->
  fst (_get_crypto_data env w) = None
  /\ n_get (snd (_get_crypto_data env w)) = (n_get w + k + 1)%nat
  /\ slept (snd (_get_crypto_data env w)) = (slept w ++ backoff k)%list
  /\ exists l, logged (snd (_get_crypto_data env w))
               = (logged w ++ l ++ [missing_btc_or_eth])%list.
Proof.
  intros Hk H Hget Hshape.
  destruct (fetch_after_timeouts k (S (2 - k)) w) as (w1 & l & -> & Hn & Hs & Hl);
    [change (Z.to_nat max_retries) with 3%nat; lia | exact H |].
  cbn [crypto_loop]. rewrite Hn, Hget.
  assert (Hnone : match by_symbol coins !! "BTC", by_symbol coins !! "ETH" with
                  | Some _, Some _ => false
                  | _, _ => true
                  end = true).
  { destruct Hshape as [-> | ->]; [reflexivity|].
    now destruct (by_symbol coins !! "BTC"). }
  destruct (by_symbol coins !! "BTC"); [destruct (by_symbol coins !! "ETH")|];
    try discriminate; simpl; rewrite Hn, Hs, Hl;
    (repeat split; auto; try lia);
    exists (l ++ [coingecko_request true])%list; now rewrite <- !app_assoc.
Qed.

End Fetch.

(** ** The analysis generation *)

Section Generation.

Variable env : Env.
Variable crypto_data : gmap string coin.
Variables btc eth : coin.
Hypothesis has_btc : crypto_data !! "BTC" = Some btc.
Hypothesis has_eth : crypto_data !! "ETH" = Some eth.

Lemma sentiment_try_raise w e :
  messages_create env (n_create w) btc eth = Raise e ->
  sentiment_try env crypto_data w = (Raise e, count_create w).
Proof. unfold sentiment_try, getitem. rewrite has_btc, has_eth. now intros ->. Qed.

Lemma sentiment_try_ok w analysis :
  messages_create env (n_create w) btc eth = Ok analysis ->
  sentiment_try env crypto_data w =
  (Ok (_format_tweet_analysis (datetime_now env (n_now w)) analysis btc eth),
   count_now (emit (claude_analysis (current_price btc) (current_price eth)
                                    (preview analysis)) (count_create w))).
Proof. unfold sentiment_try, getitem. rewrite has_btc, has_eth. now intros ->. Qed.

Lemma creates_fail_next w k :
  creates_fail env w btc eth (S k) ->
  (exists e, messages_create env (n_create w) btc eth = Raise e)
  /\ forall w', n_create w' = S (n_create w) -> creates_fail env w' btc eth k.
Proof.
  intros H. split.
  - specialize (H O). rewrite Nat.add_0_r in H. apply H. lia.
  - intros w' Hw i Hi. rewrite Hw.
    replace (S (n_create w) + i)%nat with (n_create w + S i)%nat by lia. apply H. lia.
Qed.

(** [k] failed calls use up [k] passes of the loop and wait after each. *)
Lemma sentiment_loop_failures k : forall left rc w,
  creates_fail env w btc eth k ->
  exists w' l,
    sentiment_loop env crypto_data (k + left) rc w
    = sentiment_loop env crypto_data left (rc + Z.of_nat k) w'
    /\ n_create w' = (n_create w + k)%nat
    /\ slept w' = (slept w ++ backoff_from rc k)%list
    /\ logged w' = (logged w ++ l)%list
    /\ n_now w' = n_now w.
Proof.
  induction k as [|k IH]; intros left rc w H.
  - exists w, []. unfold backoff_from. simpl.
    rewrite Z.add_0_r, Nat.add_0_r, !app_nil_r. auto.
  - apply creates_fail_next in H as [[e He] Hk].
    cbn [Nat.add sentiment_loop]. rewrite (sentiment_try_raise _ _ He).
    pose (w1 := sleep ((rc + 1) * 10)
                  (emit (claude_api_error (rc + 1) ((rc + 1) * 10)) (count_create w))).
    destruct (IH left (rc + 1) w1 (Hk w1 eq_refl)) as (w' & l & Heq & Hn & Hs & Hl & Hc).
    subst w1. exists w', (claude_api_error (rc + 1) ((rc + 1) * 10) :: l)%list.
    rewrite Heq. simpl in *. rewrite Hn, Hs, Hl, backoff_from_S, <- !app_assoc.
    replace (rc + 1 + Z.of_nat k) with (rc + Z.pos (Pos.of_succ_nat k)) by lia.
    repeat split; auto; lia.
Qed.

(** At most two failed calls, then an analysis: the formatted post, after
    [k + 1] calls and the waits [10, .., 10 k]. *)
Lemma generate_succeeds k analysis w :
  (k <= 2)%nat -> creates_fail env w btc eth k ->
  messages_create env (n_create w + k) btc eth = Ok analysis ->
  fst (_analyze_market_sentiment env crypto_data w)
  = Some (_format_tweet_analysis (datetime_now env (n_now w)) analysis btc eth)
  /\ n_create (snd (_analyze_market_sentiment env crypto_data w)) = (n_create w + k + 1)%nat
  /\ slept (snd (_analyze_market_sentiment env crypto_data w)) = (slept w ++ backoff k)%list.
Proof.
  intros Hk H Hok. unfold _analyze_market_sentiment.
  change (Z.to_nat max_retries) with 3%nat.
  replace 3%nat with (k + S (2 - k))%nat by lia.
  destruct (sentiment_loop_failures k (S (2 - k)) 0 w H) as (w1 & l & -> & Hn & Hs & Hl & Hc).
  cbn [sentiment_loop]. rewrite <- Hn in Hok. rewrite (sentiment_try_ok _ _ Hok).
  simpl. rewrite Hn, Hs, Hc. repeat split; auto; lia.
Qed.

(** Three failed calls: failure after exactly three calls, a wait after
    each of them, and the max-retries line last. *)
Lemma generate_exhausted w :
  creates_fail env w btc eth 3 ->
  fst (_analyze_market_sentiment env crypto_data w) = None
  /\ n_create (snd (_analyze_market_sentiment env crypto_data w)) = (n_create w + 3)%nat
  /\ slept (snd (_analyze_market_sentiment env crypto_data w)) = (slept w ++ [10; 20; 30])%list
  /\ exists l, logged (snd (_analyze_market_sentiment env crypto_data w))
               = (logged w ++ l ++ [sentiment_max_retries])%list.
Proof.
  intros H. unfold _analyze_market_sentiment. change (Z.to_nat max_retries) with (3 + 0)%nat.
  destruct (sentiment_loop_failures 3 0 0 w H) as (w1 & l & -> & Hn & Hs & Hl & Hc).
  simpl. rewrite Hn, Hs, Hl. repeat split; auto. exists l. now rewrite app_assoc.
Qed.

End Generation.

(** The generation leaves the other collaborators alone, and a returned
    post is not empty. *)
Lemma sentiment_try_frame env crypto_data w :
  let r := sentiment_try env crypto_data w in
  n_get (snd r) = n_get w /\ n_profile (snd r) = n_profile w
  /\ publisher_untouched w (snd r)
  /\ forall tweet, fst r = Ok tweet -> String.eqb tweet EmptyString = false.
Proof.
  unfold sentiment_try, publisher_untouched.
  destruct (getitem crypto_data "BTC") as [b|];
    [destruct (getitem crypto_data "ETH") as [e|];
     [destruct (messages_create env (n_create w) b e) as [analysis|]|]|];
    simpl; conjuncts; auto; try discriminate.
  intros tweet [= <-]. apply format_nonempty.
Qed.

Lemma sentiment_loop_frame env crypto_data : forall left rc w,
  let r := sentiment_loop env crypto_data left rc w in
  n_get (snd r) = n_get w /\ n_profile (snd r) = n_profile w
  /\ publisher_untouched w (snd r)
  /\ forall text, fst r = Some text -> String.eqb text EmptyString = false.
Proof.
  unfold publisher_untouched.
  induction left as [|left IH]; intros rc w; cbn [sentiment_loop].
  - simpl. conjuncts; auto; discriminate.
  - pose proof (sentiment_try_frame env crypto_data w) as F.
    unfold publisher_untouched in F.
    destruct (sentiment_try env crypto_data w) as [[tweet|e] w1]; simpl in F;
      destruct F as (F1 & F2 & [F3 F4] & F5).
    + simpl. conjuncts; auto. intros text [= <-]. now apply F5.
    + edestruct IH as (H1 & H2 & [H3 H4] & H5). rewrite H1, H2, H3, H4.
      simpl. conjuncts; auto.
Qed.

(** ** The retry budget *)

Lemma sample_well_shaped : well_shaped [btc_coin; eth_coin].
Proof. split; eexists; vm_compute; reflexivity. Qed.

Lemma env_of_timeouts first n e p c w k :
  timed_out first = true -> n_get w = O -> (k <= n)%nat ->
  gets_time_out (env_of first n e p c) w k.
Proof.
  intros Hf Hw Hk i Hi. rewrite Hw. simpl.
  destruct (Nat.ltb_spec i n); [exact Hf | lia].
Qed.

Lemma env_of_creates_fail first n m p c w btc eth k :
  n_create w = O -> (k <= m)%nat ->
  creates_fail (env_of first n m p c) w btc eth k.
Proof.
  intros Hw Hk i Hi. exists OtherError. rewrite Hw. simpl.
  destruct (Nat.ltb_spec i m); [reflexivity | lia].
Qed.

(** C3, as the code has it. Both retrying calls make at most three
    attempts. After at most two transient failures (a timeout for the
    fetch, any exception for the generation) followed by a success, the
    call returns the success, having made one attempt per failure plus one
    and having waited [attempt * 10] seconds after each failed attempt.
    When the first three attempts fail, the call returns the failure after
    exactly three attempts, with waits of 10, 20 and 30 seconds, and logs
    that the maximum of retries was reached. *)
Theorem C3_retry_budget env w :
  (forall k coins,
      (k <= 2)%nat -> gets_time_out env w k ->
      session_get env (n_get w + k) = Json coins -> well_shaped coins ->
      fst (_get_crypto_data env w) = Some (by_symbol coins)
      /\ n_get (snd (_get_crypto_data env w)) = (n_get w + k + 1)%nat
      /\ slept (snd (_get_crypto_data env w)) = (slept w ++ backoff k)%list)
  /\ (gets_time_out env w 3 ->
      fst (_get_crypto_data env w) = None
      /\ n_get (snd (_get_crypto_data env w)) = (n_get w + 3)%nat
      /\ slept (snd (_get_crypto_data env w)) = (slept w ++ [10; 20; 30])%list
      /\ exists l, logged (snd (_get_crypto_data env w))
                   = (logged w ++ l ++ [coingecko_max_retries])%list)
  /\ (forall (data : gmap string coin) btc eth k analysis,
      data !! "BTC" = Some btc -> data !! "ETH" = Some eth ->
      (k <= 2)%nat -> creates_fail env w btc eth k ->
      messages_create env (n_create w + k) btc eth = Ok analysis ->
      fst (_analyze_market_sentiment env data w)
      = Some (_format_tweet_analysis (datetime_now env (n_now w)) analysis btc eth)
      /\ n_create (snd (_analyze_market_sentiment env data w)) = (n_create w + k + 1)%nat
      /\ slept (snd (_analyze_market_sentiment env data w)) = (slept w ++ backoff k)%list)
  /\ (forall (data : gmap string coin) btc eth,
      data !! "BTC" = Some btc -> data !! "ETH" = Some eth ->
      creates_fail env w btc eth 3 ->
      fst (_analyze_market_sentiment env data w) = None
      /\ n_create (snd (_analyze_market_sentiment env data w)) = (n_create w + 3)%nat
      /\ slept (snd (_analyze_market_sentiment env data w)) = (slept w ++ [10; 20; 30])%list
      /\ exists l, logged (snd (_analyze_market_sentiment env data w))
                   = (logged w ++ l ++ [sentiment_max_retries])%list).
Proof.
  conjuncts.
  - intros k coins. apply fetch_succeeds.
  - apply fetch_exhausted.
  - intros data btc eth k analysis Hb He. now apply generate_succeeds.
  - intros data btc eth Hb He. now apply generate_exhausted.
Qed.

Lemma C3_retry_budget_witness :
  (let env := env_of (GetRaises Timeout) 2 2 (Ok []) Clicked in
   (fst (_get_crypto_data env world0) = Some (by_symbol [btc_coin; eth_coin])
    /\ n_get (snd (_get_crypto_data env world0)) = 3%nat
    /\ slept (snd (_get_crypto_data env world0)) = [10; 20])
   /\ n_create (snd (_analyze_market_sentiment env (by_symbol [btc_coin; eth_coin]) world0))
      = 3%nat)
  /\ (let env := env_of (JsonRaises Timeout) 3 3 (Ok []) Clicked in
      fst (_get_crypto_data env world0) = None
      /\ fst (_analyze_market_sentiment env (by_symbol [btc_coin; eth_coin]) world0) = None).
Proof.
  split; intros env.
  - destruct (C3_retry_budget env world0) as (Hfetch & _ & Hgen & _). split.
    + apply (Hfetch 2%nat [btc_coin; eth_coin]).
      * lia.
      * now apply env_of_timeouts.
      * reflexivity.
      * exact sample_well_shaped.
    + apply (Hgen (by_symbol [btc_coin; eth_coin]) btc_coin eth_coin 2%nat "Markets are flat.").
      * vm_compute. reflexivity.
      * vm_compute. reflexivity.
      * lia.
      * now apply env_of_creates_fail.
      * reflexivity.
  - destruct (C3_retry_budget env world0) as (_ & Hfetch & _ & Hgen). split.
    + apply Hfetch. now apply env_of_timeouts.
    + apply (Hgen (by_symbol [btc_coin; eth_coin]) btc_coin eth_coin).
      * vm_compute. reflexivity.
      * vm_compute. reflexivity.
      * now apply env_of_creates_fail.
Defined.

(** C3 as stated fails at three failures followed by a success: the third
    failure uses up the budget. *)
Lemma C3_counterexample :
  ~ (forall env w k coins,
        (k <= 3)%nat -> gets_time_out env w k ->
        session_get env (n_get w + k) = Json coins -> well_shaped coins ->
        fst (_get_crypto_data env w) = Some (by_symbol coins)).
Proof.
  intros H.
  specialize (H (env_of (GetRaises Timeout) 3 0 (Ok []) Clicked) world0 3%nat
                [btc_coin; eth_coin]).
  assert (Hnone : fst (_get_crypto_data (env_of (GetRaises Timeout) 3 0 (Ok []) Clicked) world0)
                  = None) by (vm_compute; reflexivity).
  rewrite Hnone in H. discriminate H.
  - lia.
  - now apply env_of_timeouts.
  - reflexivity.
  - exact sample_well_shaped.
Qed.

(** C4, as the code has it. The fetch retries a timeout and nothing else.
    After at most two timeouts: a well-shaped response is returned; any
    other exception, a connection error included, ends the call at once
    with a failure, as a response without BTC or ETH does, without a
    further attempt or wait. Three timeouts end the call with the
    max-retries failure, and that line is logged by no call that made
    fewer than three attempts or met anything but timeouts. *)
Theorem C4_only_timeouts_retried env w :
  (forall k coins,
      (k <= 2)%nat -> gets_time_out env w k ->
      session_get env (n_get w + k) = Json coins -> well_shaped coins ->
      fst (_get_crypto_data env w) = Some (by_symbol coins)
      /\ n_get (snd (_get_crypto_data env w)) = (n_get w + k + 1)%nat
      /\ slept (snd (_get_crypto_data env w)) = (slept w ++ backoff k)%list)
  /\ (forall k e,
      (k <= 2)%nat -> gets_time_out env w k -> e <> Timeout ->
      session_get env (n_get w + k) = GetRaises e
      \/ session_get env (n_get w + k) = JsonRaises e ->
      fst (_get_crypto_data env w) = None
      /\ n_get (snd (_get_crypto_data env w)) = (n_get w + k + 1)%nat
      /\ slept (snd (_get_crypto_data env w)) = (slept w ++ backoff k)%list
      /\ exists l, logged (snd (_get_crypto_data env w))
                   = (logged w ++ l ++ [coingecko_api_error e])%list)
  /\ (forall k coins,
      (k <= 2)%nat -> gets_time_out env w k ->
      session_get env (n_get w + k) = Json coins ->
      by_symbol coins !! "BTC" = None \/ by_symbol coins !! "ETH" = None ->
      fst (_get_crypto_data env w) = None
      /\ n_get (snd (_get_crypto_data env w)) = (n_get w + k + 1)%nat
      /\ slept (snd (_get_crypto_data env w)) = (slept w ++ backoff k)%list
      /\ exists l, logged (snd (_get_crypto_data env w))
                   = (logged w ++ l ++ [missing_btc_or_eth])%list)
  /\ (gets_time_out env w 3 ->
      fst (_get_crypto_data env w) = None
      /\ n_get (snd (_get_crypto_data env w)) = (n_get w + 3)%nat
      /\ slept (snd (_get_crypto_data env w)) = (slept w ++ [10; 20; 30])%list
      /\ exists l, logged (snd (_get_crypto_data env w))
                   = (logged w ++ l ++ [coingecko_max_retries])%list)
  /\ (exists l, logged (snd (_get_crypto_data env w)) = (logged w ++ l)%list
                /\ (In coingecko_max_retries l ->
                    gets_time_out env w 3
                    /\ n_get (snd (_get_crypto_data env w)) = (n_get w + 3)%nat)).
Proof.
  conjuncts.
  - intros k coins. apply fetch_succeeds.
  - intros k e. apply fetch_fails_fast.
  - intros k coins. apply fetch_bad_shape.
  - apply fetch_exhausted.
  - apply (crypto_loop_max_retries env 3 0 w).
Qed.

Lemma C4_only_timeouts_retried_witness :
  (let env := env_of (GetRaises ConnectionError) 1 0 (Ok []) Clicked in
   fst (_get_crypto_data env world0) = None
   /\ n_get (snd (_get_crypto_data env world0)) = 1%nat
   /\ slept (snd (_get_crypto_data env world0)) = []
   /\ exists l, logged (snd (_get_crypto_data env world0))
                = ([] ++ l ++ [coingecko_api_error ConnectionError])%list)
  /\ (let env := env_of (Json [btc_coin]) 1 0 (Ok []) Clicked in
      fst (_get_crypto_data env world0) = None
      /\ n_get (snd (_get_crypto_data env world0)) = 1%nat)
  /\ (let env := env_of (GetRaises Timeout) 1 0 (Ok []) Clicked in
      fst (_get_crypto_data env world0) = Some (by_symbol [btc_coin; eth_coin])
      /\ n_get (snd (_get_crypto_data env world0)) = 2%nat
      /\ slept (snd (_get_crypto_data env world0)) = [10]).
Proof.
  conjuncts; intros env.
  - apply (proj1 (proj2 (C4_only_timeouts_retried env world0)) 0%nat ConnectionError).
    + lia.
    + intros i Hi. lia.
    + discriminate.
    + left. reflexivity.
  - destruct (C4_only_timeouts_retried env world0) as (_ & _ & Hshape & _).
    destruct (Hshape 0%nat [btc_coin]) as (H1 & H2 & _);
      [lia | intros i Hi; lia | reflexivity | right; vm_compute; reflexivity |].
    split; assumption.
  - apply (proj1 (C4_only_timeouts_retried env world0) 1%nat [btc_coin; eth_coin]).
    + lia.
    + now apply env_of_timeouts.
    + reflexivity.
    + exact sample_well_shaped.
Defined.

(** C4 as stated fails on a connection error: it is not retried, although
    the next attempt would have succeeded. *)
Lemma C4_counterexample :
  ~ (forall env coins e,
        e = Timeout \/ e = ConnectionError ->
        session_get env 0 = GetRaises e ->
        session_get env 1 = Json coins -> well_shaped coins ->
        fst (_get_crypto_data env world0) = Some (by_symbol coins)).
Proof.
  intros H.
  specialize (H (env_of (GetRaises ConnectionError) 1 0 (Ok []) Clicked)
                [btc_coin; eth_coin] ConnectionError).
  assert (Hnone : fst (_get_crypto_data
                         (env_of (GetRaises ConnectionError) 1 0 (Ok []) Clicked) world0)
                  = None) by (vm_compute; reflexivity).
  rewrite Hnone in H. discriminate H.
  - now right.
  - reflexivity.
  - reflexivity.
  - exact sample_well_shaped.
Qed.

(** ** The cycle *)

Section Cycle.

Variable env : Env.

Lemma get_last_posts_frame w :
  n_compose (snd (_get_last_posts env w)) = n_compose w
  /\ posted (snd (_get_last_posts env w)) = posted w.
Proof. unfold _get_last_posts. now destruct (tweet_texts env (n_profile w)). Qed.

(** A failed read of the profile is logged there and read as no history. *)
Lemma get_last_posts_raise w e :
  tweet_texts env (n_profile w) = Raise e ->
  _get_last_posts env w = ([], emit (get_last_posts_error e) (count_profile w)).
Proof. unfold _get_last_posts. now intros ->. Qed.

(** The publisher, once called, asks the browser at least once. *)
Lemma post_loop_mono text : forall left rc w,
  (n_compose w <= n_compose (snd (post_loop env text left rc w)))%nat.
Proof.
  induction left as [|left IH]; intros rc w; cbn [post_loop]; [simpl; lia|].
  destruct (compose_tweet env (n_compose w) text); simpl; [lia| |].
  - etransitivity; [|apply IH]. simpl. lia.
  - etransitivity; [|apply IH]. simpl. lia.
Qed.

Lemma post_loop_calls text left rc w :
  (n_compose w < n_compose (snd (post_loop env text (S left) rc w)))%nat.
Proof.
  cbn [post_loop].
  destruct (compose_tweet env (n_compose w) text); [simpl; lia| |].
  - eapply Nat.lt_le_trans; [|apply post_loop_mono]. simpl. lia.
  - eapply Nat.lt_le_trans; [|apply post_loop_mono]. simpl. lia.
Qed.

Lemma post_analysis_calls text w :
  (n_compose w < n_compose (snd (_post_analysis env text w)))%nat.
Proof. apply post_loop_calls. Qed.

Lemma post_analysis_clicked text w :
  compose_tweet env (n_compose w) text = Clicked ->
  _post_analysis env text w = (true, emit tweet_posted (record_post text (count_compose w))).
Proof.
  unfold _post_analysis. change (Z.to_nat max_retries) with 3%nat.
  cbn [post_loop]. now intros ->.
Qed.

Lemma fetch_frame w :
  let r := _get_crypto_data env w in
  n_create (snd r) = n_create w /\ n_now (snd r) = n_now w
  /\ n_profile (snd r) = n_profile w /\ publisher_untouched w (snd r)
  /\ forall data, fst r = Some data -> truthy_dict (Some data) = true.
Proof.
  destruct (crypto_loop_frame env (Z.to_nat max_retries) 0 w) as (H1 & H2 & H3 & H4 & H5).
  unfold _get_crypto_data. conjuncts; auto.
  intros data [[b Hb] _]%H5. simpl. apply negb_true_iff, bool_decide_eq_false.
  intros ->. rewrite lookup_empty in Hb. discriminate.
Qed.

Lemma generate_frame data w :
  let r := _analyze_market_sentiment env data w in
  publisher_untouched w (snd r)
  /\ forall text, fst r = Some text -> truthy_text (Some text) = true.
Proof.
  destruct (sentiment_loop_frame env data (Z.to_nat max_retries) 0 w) as (_ & _ & H3 & H4).
  unfold _analyze_market_sentiment. split; [exact H3|].
  intros text Ht%H4. simpl. now rewrite Ht.
Qed.

(** The cycle when the fetch fails. *)
Lemma cycle_fetch_failed w :
  fst (_get_crypto_data env w) = None ->
  cycle_try env w = (Ok tt, emit failed_to_get_crypto_data (snd (_get_crypto_data env w))).
Proof.
  unfold cycle_try. destruct (_get_crypto_data env w) as [[data|] w1]; simpl;
    [discriminate | reflexivity].
Qed.

(** The cycle when the generation fails. *)
Lemma cycle_generation_failed w data w1 :
  _get_crypto_data env w = (Some data, w1) ->
  fst (_analyze_market_sentiment env data (emit cycle_fetched_crypto_data w1)) = None ->
  cycle_try env w
  = (Ok tt, emit failed_to_generate_analysis
              (snd (_analyze_market_sentiment env data (emit cycle_fetched_crypto_data w1)))).
Proof.
  intros Hf Hg. unfold cycle_try. rewrite Hf.
  destruct (fetch_frame w) as (_ & _ & _ & _ & Ht). rewrite Hf in Ht.
  rewrite (Ht data eq_refl).
  destruct (_analyze_market_sentiment env data _) as [[text|] w2]; simpl in *;
    [discriminate | reflexivity].
Qed.

(** The cycle from the duplicate check on. *)
Lemma cycle_after_generation w data w1 text w2 posts w3 :
  _get_crypto_data env w = (Some data, w1) ->
  _analyze_market_sentiment env data (emit cycle_fetched_crypto_data w1) = (Some text, w2) ->
  _get_last_posts env (emit cycle_generated_analysis w2) = (posts, w3) ->
  cycle_try env w =
  let w4 := emit_all (fst (_is_duplicate_analysis text posts)) w3 in
  match snd (_is_duplicate_analysis text posts) with
  | Raise e => (Raise e, w4)
  | Ok false =>
      if fst (_post_analysis env text w4)
      then (Ok tt, emit posted_to_twitter (snd (_post_analysis env text w4)))
      else (Ok tt, emit failed_to_post (snd (_post_analysis env text w4)))
  | Ok true => (Ok tt, emit skipping_duplicate w4)
  end.
Proof.
  intros Hf Hg Hh. unfold cycle_try. rewrite Hf.
  destruct (fetch_frame w) as (_ & _ & _ & _ & Ht). rewrite Hf in Ht.
  rewrite (Ht data eq_refl), Hg.
  destruct (generate_frame data (emit cycle_fetched_crypto_data w1)) as [_ Ht'].
  rewrite Hg in Ht'. rewrite (Ht' text eq_refl), Hh.
  destruct (_is_duplicate_analysis text posts) as [l [[|]|e]]; simpl; try reflexivity.
  now destruct (_post_analysis env text (emit_all l w3)) as [[|] w5].
Qed.

(** Up to the duplicate check the publisher is not touched. *)
Lemma before_publish_frame w data w1 text w2 posts w3 l :
  _get_crypto_data env w = (Some data, w1) ->
  _analyze_market_sentiment env data (emit cycle_fetched_crypto_data w1) = (Some text, w2) ->
  _get_last_posts env (emit cycle_generated_analysis w2) = (posts, w3) ->
  publisher_untouched w (emit_all l w3).
Proof.
  intros Hf Hg Hh. unfold publisher_untouched.
  destruct (fetch_frame w) as (_ & _ & _ & [F1 F2] & _). rewrite Hf in F1, F2.
  destruct (generate_frame data (emit cycle_fetched_crypto_data w1)) as [[G1 G2] _].
  rewrite Hg in G1, G2.
  destruct (get_last_posts_frame (emit cycle_generated_analysis w2)) as [L1 L2].
  rewrite Hh in L1, L2. simpl in *. split; congruence.
Qed.

Lemma is_duplicate_nil text : snd (_is_duplicate_analysis text []) = Ok false.
Proof.
  unfold _is_duplicate_analysis. now destruct (_extract_price_data text) as [l [d|]].
Qed.

Lemma run_cycle_of_try w r w' :
  cycle_try env w = (r, w') ->
  _run_correlation_cycle env w
  = (Ok tt, match r with Ok _ => w' | Raise e => emit (correlation_cycle_error e) w' end).
Proof. unfold _run_correlation_cycle. intros ->. now destruct r as [[]|e]. Qed.

(** C5, as the code has it. One run of the cycle always returns normally.
    A failed fetch or a failed generation ends it there with one failure
    line of the cycle; an exception of the duplicate check is caught by
    the cycle, logged as its error, and nothing is published; a failed
    publish ends it with the failed-to-post line. A failed read of the
    history does not end the cycle: it is caught and logged by the history
    reader, the history is taken as empty, the duplicate check answers
    [False], and the cycle goes on to publish. *)
Theorem C5_cycle_absorbs_failures w :
  fst (_run_correlation_cycle env w) = Ok tt
  /\ (fst (_get_crypto_data env w) = None ->
      snd (_run_correlation_cycle env w)
      = emit failed_to_get_crypto_data (snd (_get_crypto_data env w)))
  /\ (forall data w1,
      _get_crypto_data env w = (Some data, w1) ->
      fst (_analyze_market_sentiment env data (emit cycle_fetched_crypto_data w1)) = None ->
      snd (_run_correlation_cycle env w)
      = emit failed_to_generate_analysis
          (snd (_analyze_market_sentiment env data (emit cycle_fetched_crypto_data w1))))
  /\ (forall data w1 text w2 posts w3,
      _get_crypto_data env w = (Some data, w1) ->
      _analyze_market_sentiment env data (emit cycle_fetched_crypto_data w1) = (Some text, w2) ->
      _get_last_posts env (emit cycle_generated_analysis w2) = (posts, w3) ->
      let w4 := emit_all (fst (_is_duplicate_analysis text posts)) w3 in
      (forall e, tweet_texts env (n_profile w2) = Raise e ->
         posts = []
         /\ w3 = emit (get_last_posts_error e) (count_profile (emit cycle_generated_analysis w2))
         /\ snd (_is_duplicate_analysis text posts) = Ok false
         /\ (n_compose w < n_compose (snd (_run_correlation_cycle env w)))%nat)
      /\ (forall e, snd (_is_duplicate_analysis text posts) = Raise e ->
         snd (_run_correlation_cycle env w) = emit (correlation_cycle_error e) w4
         /\ publisher_untouched w (snd (_run_correlation_cycle env w)))
      /\ (snd (_is_duplicate_analysis text posts) = Ok false ->
         fst (_post_analysis env text w4) = false ->
         snd (_run_correlation_cycle env w)
         = emit failed_to_post (snd (_post_analysis env text w4)))).
Proof.
  conjuncts.
  - unfold _run_correlation_cycle. now destruct (cycle_try env w) as [[[]|e] w'].
  - intros H. now rewrite (run_cycle_of_try _ _ _ (cycle_fetch_failed w H)).
  - intros data w1 Hf Hg.
    now rewrite (run_cycle_of_try _ _ _ (cycle_generation_failed w data w1 Hf Hg)).
  - intros data w1 text w2 posts w3 Hf Hg Hh w4.
    pose proof (cycle_after_generation w data w1 text w2 posts w3 Hf Hg Hh) as Hc.
    pose proof (before_publish_frame w data w1 text w2 posts w3
                  (fst (_is_duplicate_analysis text posts)) Hf Hg Hh) as [Fc Fp].
    fold w4 in Hc, Fc, Fp. cbv zeta in Hc. fold w4 in Hc. conjuncts.
    + intros e He.
      rewrite (get_last_posts_raise (emit cycle_generated_analysis w2) e He) in Hh.
      injection Hh as <- <-. conjuncts; auto using is_duplicate_nil.
      rewrite is_duplicate_nil in Hc.
      pose proof (post_analysis_calls text w4) as Hcalls.
      destruct (fst (_post_analysis env text w4));
        rewrite (run_cycle_of_try _ _ _ Hc); simpl; lia.
    + intros e He. rewrite He in Hc. rewrite (run_cycle_of_try _ _ _ Hc). simpl.
      split; [reflexivity|]. split; assumption.
    + intros Hd Hp. rewrite Hd, Hp in Hc. now rewrite (run_cycle_of_try _ _ _ Hc).
Qed.

(** C6. When the duplicate check answers [True] for the fresh post against
    the fetched history, the cycle logs the skip and ends: the publisher is
    not called and nothing is posted. When it answers [False], as it does
    on an empty history, the cycle calls the publisher with the post, and
    ends with the line of the publisher's verdict. *)
Theorem C6_duplicate_skips_publish w data w1 text w2 posts w3 :
  _get_crypto_data env w = (Some data, w1) ->
  _analyze_market_sentiment env data (emit cycle_fetched_crypto_data w1) = (Some text, w2) ->
  _get_last_posts env (emit cycle_generated_analysis w2) = (posts, w3) ->
  let w4 := emit_all (fst (_is_duplicate_analysis text posts)) w3 in
  (snd (_is_duplicate_analysis text posts) = Ok true ->
     _run_correlation_cycle env w = (Ok tt, emit skipping_duplicate w4)
     /\ n_compose (snd (_run_correlation_cycle env w)) = n_compose w
     /\ posted (snd (_run_correlation_cycle env w)) = posted w)
  /\ (snd (_is_duplicate_analysis text posts) = Ok false ->
     snd (_run_correlation_cycle env w)
     = emit (if fst (_post_analysis env text w4) then posted_to_twitter else failed_to_post)
            (snd (_post_analysis env text w4))
     /\ n_compose w4 = n_compose w
     /\ (n_compose w < n_compose (snd (_run_correlation_cycle env w)))%nat
     /\ (compose_tweet env (n_compose w) text = Clicked ->
         posted (snd (_run_correlation_cycle env w)) = (posted w ++ [text])%list))
  /\ (posts = [] -> snd (_is_duplicate_analysis text posts) = Ok false).
Proof.
  intros Hf Hg Hh w4.
  pose proof (cycle_after_generation w data w1 text w2 posts w3 Hf Hg Hh) as Hc.
  pose proof (before_publish_frame w data w1 text w2 posts w3
                (fst (_is_duplicate_analysis text posts)) Hf Hg Hh) as [Fc Fp].
  fold w4 in Fc, Fp. cbv zeta in Hc. fold w4 in Hc. clearbody w4. conjuncts.
  - intros Hd. rewrite Hd in Hc. rewrite (run_cycle_of_try _ _ _ Hc). simpl. auto.
  - intros Hd. rewrite Hd in Hc.
    pose proof (post_analysis_calls text w4) as Hcalls.
    assert (Hrun : snd (_run_correlation_cycle env w)
                   = emit (if fst (_post_analysis env text w4)
                           then posted_to_twitter else failed_to_post)
                          (snd (_post_analysis env text w4))).
    { destruct (fst (_post_analysis env text w4));
        now rewrite (run_cycle_of_try _ _ _ Hc). }
    rewrite Hrun. conjuncts; auto.
    + simpl. lia.
    + rewrite <- Fc. intros Hclick. rewrite (post_analysis_clicked text w4 Hclick).
      simpl. now rewrite Fp.
  - intros ->. apply is_duplicate_nil.
Qed.

End Cycle.

Lemma C5_cycle_absorbs_failures_witness :
  (let env := env_of (GetRaises ConnectionError) 1 0 (Ok []) Clicked in
   snd (_run_correlation_cycle env world0)
   = emit failed_to_get_crypto_data (snd (_get_crypto_data env world0)))
  /\ (let env := env_of (Json []) 0 0 (Raise OtherError) Clicked in
      (n_compose world0 < n_compose (snd (_run_correlation_cycle env world0)))%nat)
  /\ (let env := env_of (Json []) 0 0 (Ok [post_zero_price]) Clicked in
      publisher_untouched world0 (snd (_run_correlation_cycle env world0))).
Proof.
  conjuncts; intros env.
  - apply (proj1 (proj2 (C5_cycle_absorbs_failures env world0))).
    vm_compute. reflexivity.
  - destruct (C5_cycle_absorbs_failures env world0) as (_ & _ & _ & H).
    edestruct H as (Hhist & _ & _); [vm_compute; reflexivity ..|].
    apply (Hhist OtherError). reflexivity.
  - destruct (C5_cycle_absorbs_failures env world0) as (_ & _ & _ & H).
    edestruct H as (_ & Hdup & _); [vm_compute; reflexivity ..|].
    apply (Hdup ZeroDivisionError). vm_compute. reflexivity.
Defined.

(** C5 as stated fails for the history read: its failure does not end the
    cycle, which goes on and publishes. *)
Lemma C5_counterexample :
  ~ (forall env w e,
        tweet_texts env (n_profile w) = Raise e ->
        n_compose (snd (_run_correlation_cycle env w)) = n_compose w
        /\ posted (snd (_run_correlation_cycle env w)) = posted w).
Proof.
  intros H.
  destruct (H (env_of (Json []) 0 0 (Raise OtherError) Clicked) world0 OtherError eq_refl)
    as [Hn _].
  vm_compute in Hn. discriminate Hn.
Qed.

Lemma C6_duplicate_skips_publish_witness :
  (let env := env_of (Json []) 0 0 (Ok [post_10s_earlier]) Clicked in
   n_compose (snd (_run_correlation_cycle env world0)) = O
   /\ posted (snd (_run_correlation_cycle env world0)) = [])
  /\ (let env := env_of (Json []) 0 0 (Ok [post_40s_earlier]) Clicked in
      (0 < n_compose (snd (_run_correlation_cycle env world0)))%nat).
Proof.
  split; intros env.
  - edestruct (C6_duplicate_skips_publish env world0) as [H _];
      [vm_compute; reflexivity .. |].
    apply H. vm_compute. reflexivity.
  - edestruct (C6_duplicate_skips_publish env world0) as (_ & H & _);
      [vm_compute; reflexivity .. |].
    apply H. vm_compute. reflexivity.
Defined.

(** * Further properties of the code *)

(** ** The publisher *)

Section Publisher.

Variable env : Env.
Variable text : string.

Lemma next_outcomes_S w w' k :
  n_compose w' = S (n_compose w) ->
  next_outcomes env text w (S k)
  = (compose_tweet env (n_compose w) text :: next_outcomes env text w' k)%list.
Proof.
  intros Hw. unfold next_outcomes. cbn [seq map]. rewrite Nat.add_0_r. f_equal.
  rewrite <- seq_shift, map_map. apply map_ext. intros i. rewrite Hw. f_equal. lia.
Qed.

(** The loop by its attempts: it stops at the first click; every attempt
    before it is counted and waited for. *)
Lemma post_loop_spec : forall left rc w,
  let r := post_loop env text left rc w in
  let failed := before_click (next_outcomes env text w left) in
  n_get (snd r) = n_get w /\ n_create (snd r) = n_create w
  /\ n_now (snd r) = n_now w /\ n_profile (snd r) = n_profile w
  /\ slept (snd r) = (slept w ++ post_waits rc failed)%list
  /\ (fst r = true ->
        (length failed < left)%nat
        /\ n_compose (snd r) = (n_compose w + length failed + 1)%nat
        /\ posted (snd r) = (posted w ++ [text])%list)
  /\ (fst r = false ->
        length failed = left
        /\ n_compose (snd r) = (n_compose w + left)%nat
        /\ posted (snd r) = posted w).
Proof.
  induction left as [|left IH]; intros rc w; cbn zeta.
  - simpl. rewrite app_nil_r. conjuncts; auto; discriminate.
  - cbn [post_loop].
    destruct (compose_tweet env (n_compose w) text) as [| |e] eqn:Ho.
    + rewrite (next_outcomes_S w (count_compose w) left eq_refl), Ho.
      simpl. rewrite app_nil_r. conjuncts; auto; try discriminate.
      intros _. conjuncts; auto; lia.
    + set (w1 := sleep 2 (emit post_button_not_found (count_compose w))).
      rewrite (next_outcomes_S w w1 left eq_refl), Ho.
      destruct (IH (rc + 1) w1) as (H1 & H2 & H3 & H4 & H5 & H6 & H7).
      cbn [before_click post_waits length]. rewrite H1, H2, H3, H4, H5.
      subst w1. simpl. rewrite <- app_assoc. conjuncts; auto.
      * intros Ht. destruct (H6 Ht) as (A & B & C). simpl in *. conjuncts; auto; lia.
      * intros Hf. destruct (H7 Hf) as (A & B & C). simpl in *. conjuncts; auto; lia.
    + set (w1 := sleep ((rc + 1) * 10)
           (emit (waiting_before_retry ((rc + 1) * 10))
              (emit (tweet_posting_error (rc + 1) e) (count_compose w)))).
      rewrite (next_outcomes_S w w1 left eq_refl), Ho.
      destruct (IH (rc + 1) w1) as (H1 & H2 & H3 & H4 & H5 & H6 & H7).
      cbn [before_click post_waits length]. rewrite H1, H2, H3, H4, H5.
      subst w1. simpl. rewrite <- app_assoc. conjuncts; auto.
      * intros Ht. destruct (H6 Ht) as (A & B & C). simpl in *. conjuncts; auto; lia.
      * intros Hf. destruct (H7 Hf) as (A & B & C). simpl in *. conjuncts; auto; lia.
Qed.

End Publisher.

Lemma before_click_length os : (length (before_click os) <= length os)%nat.
Proof. induction os as [|[| |e] os IH]; simpl; lia. Qed.

Lemma before_click_all os :
  length (before_click os) = length os <-> ~ In Clicked os.
Proof.
  induction os as [|o os IH]; simpl; [tauto|].
  pose proof (before_click_length os).
  destruct o; simpl; split; intros H'; try lia.
  - exfalso. apply H'. now left.
  - intros [?|Hin]; [discriminate|]. apply IH in Hin; [auto | lia].
  - f_equal. apply IH. tauto.
  - intros [?|Hin]; [discriminate|]. apply IH in Hin; [auto | lia].
  - f_equal. apply IH. tauto.
Qed.

Lemma next_outcomes_length env text w k : length (next_outcomes env text w k) = k.
Proof. unfold next_outcomes. now rewrite length_map, length_seq. Qed.

(** X1. [_post_analysis] posts at most once. It returns [True] exactly
    when one of the next three attempts finds and clicks the button; the
    text is then posted once, by the first such attempt, and no attempt
    follows it. Otherwise it returns [False] after exactly three attempts
    and nothing is posted. It never touches the other collaborators. *)
Theorem X1_post_at_most_once env text w :
  let r := _post_analysis env text w in
  let failed := before_click (next_outcomes env text w 3) in
  (fst r = true <-> In Clicked (next_outcomes env text w 3))
  /\ (fst r = true ->
      posted (snd r) = (posted w ++ [text])%list
      /\ n_compose (snd r) = (n_compose w + length failed + 1)%nat
      /\ (length failed < 3)%nat)
  /\ (fst r = false ->
      posted (snd r) = posted w /\ n_compose (snd r) = (n_compose w + 3)%nat)
  /\ n_get (snd r) = n_get w /\ n_create (snd r) = n_create w
  /\ n_profile (snd r) = n_profile w.
Proof.
  intros r failed.
  destruct (post_loop_spec env text 3 0 w) as (H1 & H2 & H3 & H4 & H5 & H6 & H7).
  fold (_post_analysis env text w) in H1, H2, H3, H4, H5, H6, H7.
  change (_post_analysis env text w) with r in H1, H2, H3, H4, H5, H6, H7.
  fold failed in H5, H6, H7.
  pose proof (before_click_all (next_outcomes env text w 3)) as Hall.
  rewrite next_outcomes_length in Hall. fold failed in Hall.
  conjuncts; auto.
  - split.
    + intros Ht. destruct (H6 Ht) as (Hlt & _).
      destruct (in_dec (fun a b : post_outcome => ltac:(decide equality; decide equality))
                  Clicked (next_outcomes env text w 3)) as [Hin|Hnin]; [exact Hin|].
      apply Hall in Hnin. lia.
    + intros Hin. destruct (fst r) eqn:Hr; [reflexivity|].
      destruct (H7 Hr) as (Hlen & _). apply Hall in Hlen. contradiction.
  - intros Ht. destruct (H6 Ht) as (A & B & C). auto.
  - intros Hf. destruct (H7 Hf) as (A & B & C). auto.
Qed.

Lemma X1_post_at_most_once_witness :
  let env := env_of (Json []) 0 0 (Ok []) NoButton in
  posted (snd (_post_analysis env "gm #BTC" world0)) = []
  /\ n_compose (snd (_post_analysis env "gm #BTC" world0)) = 3%nat.
Proof.
  intros env.
  destruct (X1_post_at_most_once env "gm #BTC" world0) as (_ & _ & H & _).
  apply H. reflexivity.
Defined.

(** X2. The waits of [_post_analysis]: after each failed attempt it
    waits two seconds when the button was not found and ten seconds per
    attempt made when a browser call raised; a successful attempt is not
    followed by a wait. *)
Theorem X2_post_waits env text w :
  slept (snd (_post_analysis env text w))
  = (slept w ++ post_waits 0 (before_click (next_outcomes env text w 3)))%list.
Proof. apply (post_loop_spec env text 3 0 w). Qed.

(** ** Typing the post in chunks *)

Lemma split_on_join t :
  match split_on "#" t with
  | first :: others => first ++ join_all (map (fun part => "#" ++ part) others) = t
  | [] => False
  end.
Proof.
  induction t as [|c t IH]; [reflexivity|]. cbn [split_on].
  destruct (split_on "#" t) as [|first others]; [contradiction|].
  destruct (Ascii.eqb_spec c "#") as [->|Hc]; rewrite <- IH; reflexivity.
Qed.

Lemma split_on_clean sep t :
  Forall (fun part => all_chars (fun c => negb (Ascii.eqb c sep)) part = true)
         (split_on sep t).
Proof.
  induction t as [|c t IH]; simpl; [now repeat constructor|].
  destruct (Ascii.eqb_spec c sep) as [->|Hc].
  - constructor; [reflexivity | exact IH].
  - assert (Hn : negb (Ascii.eqb c sep) = true)
      by now destruct (Ascii.eqb_spec c sep).
    destruct (split_on sep t) as [|l ls].
    + constructor; [|constructor]. simpl. now rewrite Hn.
    + inversion IH as [|? ? Hl Hls]; subst. constructor; [|exact Hls].
      simpl. now rewrite Hl, Hn.
Qed.

(** X3. Sending the post in chunks loses nothing: the chunks
    [_post_analysis] types, [text_parts[0]] and then ['#' + part] for each
    later part, joined in order are the post itself; there is always a
    first chunk, it holds no ['#'], and each later chunk is a ['#']
    followed by text without one. *)
Theorem X3_typed_chunks_are_the_post t :
  join_all (typed_chunks t) = t
  /\ exists first others,
       typed_chunks t = first :: map (fun part => "#" ++ part) others
       /\ Forall (fun part => all_chars (fun c => negb (Ascii.eqb c "#")) part = true)
                 (first :: others).
Proof.
  unfold typed_chunks. pose proof (split_on_join t) as Hj.
  pose proof (split_on_clean "#" t) as Hc.
  destruct (split_on "#" t) as [|first others]; [contradiction|].
  split; [exact Hj|]. now exists first, others.
Qed.


(** ** The formatter's lines *)

Section FormatterLines.

Lemma join_all_app a b : join_all (a ++ b)%list = join_all a ++ join_all b.
Proof.
  induction a as [|x a IH]; [reflexivity|].
  cbn [app join_all fold_right]. fold (join_all (a ++ b)%list). rewrite IH.
  fold (join_all a). clear. induction x as [|c x IH]; [reflexivity|].
  change (String c (x ++ join_all a ++ join_all b)
          = String c ((x ++ join_all a) ++ join_all b)). now rewrite IH.
Qed.

Lemma append_assoc (a b c : string) : (a ++ b) ++ c = a ++ b ++ c.
Proof.
  induction a as [|x a IH]; [reflexivity|].
  change (String x ((a ++ b) ++ c) = String x (a ++ b ++ c)). now rewrite IH.
Qed.

Lemma append_nil_r (a : string) : a ++ EmptyString = a.
Proof.
  induction a as [|x a IH]; [reflexivity|].
  change (String x (a ++ EmptyString) = String x a). now rewrite IH.
Qed.

Lemma with_newlines_snoc lines line :
  with_newlines (lines ++ [line])%list = with_newlines lines ++ line ++ nl.
Proof.
  unfold with_newlines. rewrite map_app, join_all_app. cbn [map join_all fold_right].
  now rewrite append_nil_r.
Qed.

(** The loop takes whole lines, the longest run of first lines each of
    which still fits when it is reached. *)
Lemma fit_lines_takes_prefix base : forall lines taken,
  exists n,
    (n <= length lines)%nat
    /\ fit_lines base (with_newlines taken) lines
       = with_newlines (taken ++ firstn n lines)%list
    /\ (forall line, nth_error lines n = Some line ->
          HARD_STOP_LENGTH TWEET_CONSTRAINTS
          < len (base ++ with_newlines (taken ++ firstn n lines)%list
                 ++ line ++ nl ++ nl ++ hashtags)).
Proof.
  induction lines as [|line rest IH]; intros taken; cbn [fit_lines].
  - exists O. simpl. rewrite app_nil_r. conjuncts; auto. discriminate.
  - destruct (Z.leb_spec
                (len (base ++ with_newlines taken ++ line ++ nl ++ nl ++ hashtags))
                (HARD_STOP_LENGTH TWEET_CONSTRAINTS)) as [Hfit|Hno].
    + destruct (IH (taken ++ [line])%list) as (n & Hn & Heq & Hnext).
      rewrite with_newlines_snoc in Heq.
      exists (S n). cbn [firstn length nth_error].
      replace (taken ++ line :: firstn n rest)%list
        with ((taken ++ [line]) ++ firstn n rest)%list by now rewrite <- app_assoc.
      conjuncts; auto; lia.
    + exists O. cbn [firstn nth_error]. rewrite app_nil_r. conjuncts; auto; try lia.
      now intros l [= <-].
Qed.

(** The shape of a post. *)
Lemma format_shape now analysis btc eth :
  let base := base_tweet_of now btc eth in
  let lines := split_on LF analysis in
  exists n,
    (n <= length lines)%nat
    /\ (let final := base ++ with_newlines (firstn n lines) ++ nl ++ hashtags in
        _format_tweet_analysis now analysis btc eth
        = if len final <? MIN_LENGTH TWEET_CONSTRAINTS then final ++ filler else final)
    /\ (forall line, nth_error lines n = Some line ->
          HARD_STOP_LENGTH TWEET_CONSTRAINTS
          < len (base ++ with_newlines (firstn n lines) ++ line ++ nl ++ nl ++ hashtags)).
Proof.
  intros base lines.
  destruct (fit_lines_takes_prefix base lines []) as (n & Hn & Heq & Hnext).
  exists n. change (with_newlines []) with EmptyString in Heq.
  cbn [app] in Heq, Hnext. conjuncts; auto.
  unfold _format_tweet_analysis. fold base. fold lines. rewrite Heq.
  cbv zeta. unfold filler.
  destruct (_ <? _); [|reflexivity].
  now rewrite !append_assoc.
Qed.

(** X4. The formatter emits whole lines only. The post is the header, a
    run of first lines of the analysis each followed by a newline, a
    newline and the hashtag block, and the filler sentence exactly when
    all that is shorter than [MIN_LENGTH]. The run is as long as the
    greedy fit allows: the line after it, if there is one, would have
    taken header, lines and hashtag block over [HARD_STOP_LENGTH]; no line
    is ever cut. *)
Theorem X4_format_whole_lines now analysis btc eth :
  let base := base_tweet_of now btc eth in
  let lines := split_on LF analysis in
  exists n,
    (n <= length lines)%nat
    /\ (let final := base ++ with_newlines (firstn n lines) ++ nl ++ hashtags in
        _format_tweet_analysis now analysis btc eth
        = if len final <? MIN_LENGTH TWEET_CONSTRAINTS then final ++ filler else final)
    /\ (forall line, nth_error lines n = Some line ->
          HARD_STOP_LENGTH TWEET_CONSTRAINTS
          < len (base ++ with_newlines (firstn n lines) ++ line ++ nl ++ nl ++ hashtags)).
Proof. exact (format_shape now analysis btc eth). Qed.

Lemma with_newlines_cons line lines :
  with_newlines (line :: lines) = line ++ nl ++ with_newlines lines.
Proof. unfold with_newlines. cbn [map join_all fold_right]. now rewrite append_assoc. Qed.

Lemma len_cons c a : len (String c a) = len a + 1.
Proof. unfold len. cbn [String.length]. lia. Qed.

Lemma split_on_nonempty sep t : split_on sep t <> [].
Proof.
  destruct t as [|c t]; simpl; [discriminate|].
  destruct (Ascii.eqb c sep); [discriminate|]. now destruct (split_on sep t).
Qed.

(** All the lines with their newlines are one character longer than the
    text. *)
Lemma with_newlines_split a : len (with_newlines (split_on LF a)) = len a + 1.
Proof.
  induction a as [|c a IH]; [reflexivity|]. cbn [split_on].
  pose proof (split_on_nonempty LF a) as Hne.
  destruct (split_on LF a) as [|l ls]; [contradiction|].
  rewrite with_newlines_cons, !len_append in IH.
  destruct (Ascii.eqb c LF).
  - rewrite !with_newlines_cons, !len_append, len_cons.
    change (len EmptyString) with 0. change (len nl) with 1 in *. lia.
  - rewrite with_newlines_cons, !len_append, !len_cons. lia.
Qed.

Lemma with_newlines_firstn n lines :
  len (with_newlines (firstn n lines)) <= len (with_newlines lines).
Proof.
  revert n. induction lines as [|l ls IH]; intros [|n]; cbn [firstn];
    try reflexivity.
  - change (with_newlines []) with EmptyString. apply len_nonneg.
  - rewrite !with_newlines_cons, !len_append. specialize (IH n). lia.
Qed.

(** X5. [MIN_LENGTH] is not enforced. The filler sentence is the only
    means to lengthen a post, so when header and analysis together have
    fewer than 172 characters the post stays below [MIN_LENGTH] = 220
    characters, filler included. *)
Theorem X5_min_length_not_enforced now analysis btc eth :
  len (base_tweet_of now btc eth) + len analysis < 172 ->
  len (_format_tweet_analysis now analysis btc eth) < MIN_LENGTH TWEET_CONSTRAINTS.
Proof.
  intros H.
  destruct (format_shape now analysis btc eth) as (n & _ & -> & _).
  cbv zeta.
  pose proof (with_newlines_firstn n (split_on LF analysis)) as Hf.
  rewrite with_newlines_split in Hf.
  assert (Hfinal : len (base_tweet_of now btc eth
                        ++ with_newlines (firstn n (split_on LF analysis))
                        ++ nl ++ hashtags) < 191).
  { rewrite !len_append. change (len nl) with 1. change (len hashtags) with 17. lia. }
  destruct (Z.ltb_spec
    (len (base_tweet_of now btc eth ++ with_newlines (firstn n (split_on LF analysis))
          ++ nl ++ hashtags)) (MIN_LENGTH TWEET_CONSTRAINTS)) as [_|Hge].
  - rewrite len_append. change (len filler) with 29. simpl. lia.
  - simpl in *. lia.
Qed.

Lemma X5_min_length_not_enforced_witness :
  len (_format_tweet_analysis new_year "Markets are flat." btc_coin eth_coin)
  < MIN_LENGTH TWEET_CONSTRAINTS.
Proof. apply X5_min_length_not_enforced. vm_compute. reflexivity. Defined.

End FormatterLines.


(** ** The response indexed by symbol *)

Section BySymbol.



End BySymbol.

(** ** What one cycle may spend *)

Section CycleBudget.

Variable env : Env.

Lemma crypto_loop_calls : forall left rc w,
  (n_get w <= n_get (snd (crypto_loop env left rc w)) <= n_get w + left)%nat.
Proof.
  induction left as [|left IH]; intros rc w; cbn [crypto_loop]; [simpl; lia|].
  destruct (session_get env (n_get w)) as [e|e|coins].
  - destruct e; simpl; try lia.
    match goal with |- context [crypto_loop env left ?r ?w1] =>
      specialize (IH r w1); simpl in IH end. lia.
  - destruct e; simpl; try lia.
    match goal with |- context [crypto_loop env left ?r ?w1] =>
      specialize (IH r w1); simpl in IH end. lia.
  - destruct (by_symbol coins !! "BTC"); [destruct (by_symbol coins !! "ETH")|];
      simpl; lia.
Qed.

Lemma sentiment_try_calls data w :
  let r := sentiment_try env data w in
  (n_create w <= n_create (snd r) <= n_create w + 1)%nat
  /\ match fst r with
     | Ok _ => n_now (snd r) = S (n_now w)
     | Raise _ => n_now (snd r) = n_now w
     end.
Proof.
  unfold sentiment_try.
  destruct (getitem data "BTC") as [b|];
    [destruct (getitem data "ETH") as [e|];
     [destruct (messages_create env (n_create w) b e)|]|]; simpl; lia.
Qed.

Lemma sentiment_loop_calls data : forall left rc w,
  let r := sentiment_loop env data left rc w in
  (n_create w <= n_create (snd r) <= n_create w + left)%nat
  /\ (n_now w <= n_now (snd r) <= n_now w + 1)%nat.
Proof.
  induction left as [|left IH]; intros rc w; cbn [sentiment_loop]; [simpl; lia|].
  pose proof (sentiment_try_calls data w) as Ht. cbv zeta in Ht.
  destruct (sentiment_try env data w) as [[tweet|e] w1]; simpl in Ht.
  - simpl. lia.
  - match goal with |- context [sentiment_loop env data left ?r ?w2] =>
      specialize (IH r w2); cbv zeta in IH; simpl in IH end.
    cbv zeta. lia.
Qed.

Lemma get_last_posts_calls w :
  let r := _get_last_posts env w in
  n_get (snd r) = n_get w /\ n_create (snd r) = n_create w
  /\ n_now (snd r) = n_now w /\ n_profile (snd r) = S (n_profile w)
  /\ n_compose (snd r) = n_compose w /\ posted (snd r) = posted w.
Proof. unfold _get_last_posts. now destruct (tweet_texts env (n_profile w)). Qed.

Lemma post_analysis_budget text w :
  let r := _post_analysis env text w in
  n_get (snd r) = n_get w /\ n_create (snd r) = n_create w
  /\ n_now (snd r) = n_now w /\ n_profile (snd r) = n_profile w
  /\ (n_compose w < n_compose (snd r) <= n_compose w + 3)%nat
  /\ (posted (snd r) = posted w \/ posted (snd r) = (posted w ++ [text])%list).
Proof.
  destruct (post_loop_spec env text 3 0 w) as (H1 & H2 & H3 & H4 & _ & H6 & H7).
  change (post_loop env text 3 0 w) with (_post_analysis env text w)
    in H1, H2, H3, H4, H6, H7.
  cbv zeta. destruct (fst (_post_analysis env text w)).
  - destruct (H6 eq_refl) as (A & B & C). conjuncts; auto; lia.
  - destruct (H7 eq_refl) as (A & B & C). conjuncts; auto; lia.
Qed.

(** What one cycle may ask of its collaborators. *)
Lemma cycle_budget w :
  let w' := snd (_run_correlation_cycle env w) in
  (n_get w <= n_get w' <= n_get w + 3)%nat
  /\ (n_create w <= n_create w' <= n_create w + 3)%nat
  /\ (n_now w <= n_now w' <= n_now w + 1)%nat
  /\ (n_profile w <= n_profile w' <= n_profile w + 1)%nat
  /\ (n_compose w <= n_compose w' <= n_compose w + 3)%nat
  /\ (posted w' = posted w \/ exists text, posted w' = (posted w ++ [text])%list).
Proof.
  unfold _run_correlation_cycle, cycle_try.
  pose proof (crypto_loop_calls (Z.to_nat max_retries) 0 w) as Fg.
  pose proof (crypto_loop_frame env (Z.to_nat max_retries) 0 w) as F.
  cbv zeta in F. unfold publisher_untouched in F.
  fold (_get_crypto_data env w) in Fg, F.
  change (Z.to_nat max_retries) with 3%nat in Fg.
  destruct (_get_crypto_data env w) as [[data|] w1]; cbn [fst snd] in Fg, F;
    destruct F as (F1 & F2 & F3 & [F4 F5] & _).
  2: { simpl. rewrite F1, F2, F3, F4, F5. conjuncts; auto; lia. }
  destruct (truthy_dict (Some data)).
  2: { simpl. rewrite F1, F2, F3, F4, F5. conjuncts; auto; lia. }
  pose proof (sentiment_loop_calls data (Z.to_nat max_retries) 0
                (emit cycle_fetched_crypto_data w1)) as Gc.
  pose proof (sentiment_loop_frame env data (Z.to_nat max_retries) 0
                (emit cycle_fetched_crypto_data w1)) as G.
  cbv zeta in Gc, G. unfold publisher_untouched in G.
  fold (_analyze_market_sentiment env data (emit cycle_fetched_crypto_data w1)) in Gc, G.
  change (Z.to_nat max_retries) with 3%nat in Gc.
  destruct (_analyze_market_sentiment env data (emit cycle_fetched_crypto_data w1))
    as [[text|] w2]; cbn [fst snd] in Gc, G;
    destruct G as (G1 & G2 & [G3 G4] & _); destruct Gc as [Gc1 Gc2];
    simpl in G1, G2, G3, G4, Gc1, Gc2.
  2: { simpl. rewrite G1, G2, G3, G4, F4, F5, F3. conjuncts; auto; lia. }
  destruct (truthy_text (Some text)).
  2: { simpl. rewrite G1, G2, G3, G4, F4, F5, F3. conjuncts; auto; lia. }
  pose proof (get_last_posts_calls (emit cycle_generated_analysis w2)) as A.
  cbv zeta in A.
  destruct (_get_last_posts env (emit cycle_generated_analysis w2)) as [posts w3];
    cbn [fst snd] in A; simpl in A; destruct A as (A1 & A2 & A3 & A4 & A5 & A6).
  destruct (_is_duplicate_analysis text posts) as [l [[|]|e]].
  1, 3: simpl; rewrite A1, A2, A3, A4, A5, A6, G1, G2, G3, G4, F3, F4, F5;
    conjuncts; auto; lia.
  pose proof (post_analysis_budget text (emit_all l w3)) as P. cbv zeta in P.
  destruct (_post_analysis env text (emit_all l w3)) as [[|] w5];
    cbn [fst snd] in P; simpl in P; destruct P as (P1 & P2 & P3 & P4 & P5 & P6).
  all: simpl; rewrite P1, P2, P3, P4, A1, A2, A3, A4, G1, G2, F3;
    rewrite A5, G3, F4 in P5; rewrite A6, G4, F5 in P6;
    conjuncts; try lia; destruct P6 as [-> | ->]; eauto.
Qed.

(** X7. One cycle spends at most three market requests, three generation
    calls, one reading of the clock, one reading of the profile and three
    attempts to post, and it posts at most one text. *)
Theorem X7_cycle_budget w :
  let w' := snd (_run_correlation_cycle env w) in
  (n_get w <= n_get w' <= n_get w + 3)%nat
  /\ (n_create w <= n_create w' <= n_create w + 3)%nat
  /\ (n_now w <= n_now w' <= n_now w + 1)%nat
  /\ (n_profile w <= n_profile w' <= n_profile w + 1)%nat
  /\ (n_compose w <= n_compose w' <= n_compose w + 3)%nat
  /\ (posted w' = posted w \/ exists text, posted w' = (posted w ++ [text])%list).
Proof. apply cycle_budget. Qed.

End CycleBudget.


(** ** The duplicate guard, entry by entry *)

Section GuardOrder.

Implicit Types (new_data old_data : price_data) (post cand : string) (rest hist : list string).

Lemma loop_false_iff new_data hist :
  snd (duplicate_loop new_data hist) = Ok false <-> Forall (passes new_data) hist.
Proof.
  induction hist as [|post rest IH]; [split; [constructor | reflexivity]|].
  destruct (post_cases new_data post) as [Hp | [Hh | [e Hf]]].
  - rewrite (loop_pass _ _ _ Hp), IH. split; [now constructor | now inversion 1].
  - rewrite (loop_hits _ _ _ Hh). split; [discriminate|].
    inversion 1 as [|? ? Hp _]; subst. exfalso.
    destruct Hh as (o & ch & Ho & Hc), Hp as [Hp | (o' & Ho' & Hc')]; congruence.
  - rewrite (loop_faults _ _ _ _ Hf). split; [discriminate|].
    inversion 1 as [|? ? Hp _]; subst. exfalso.
    destruct Hf as (o & Ho & Hc), Hp as [Hp | (o' & Ho' & Hc')]; congruence.
Qed.

Lemma loop_raise_iff new_data hist e :
  snd (duplicate_loop new_data hist) = Raise e <->
  exists pre post rest, hist = (pre ++ post :: rest)%list
                        /\ Forall (passes new_data) pre /\ faults new_data post e.
Proof.
  split.
  - induction hist as [|post rest IH]; [discriminate|].
    destruct (post_cases new_data post) as [Hp | [Hh | [e' Hf]]].
    + rewrite (loop_pass _ _ _ Hp).
      intros (pre & p & r & -> & Hpre & Hh)%IH.
      exists (post :: pre), p, r. repeat split; auto.
    + rewrite (loop_hits _ _ _ Hh). discriminate.
    + rewrite (loop_faults _ _ _ _ Hf). intros [= <-].
      exists [], post, rest. repeat split; auto.
  - intros (pre & post & rest & -> & Hpre & Hf).
    rewrite loop_passes by assumption. now apply loop_faults.
Qed.

(** X8. With a candidate that parses, the first entry of the history that
    is neither skipped nor compared without a match decides: the guard
    answers [True] when that entry is a match, raises when comparing with
    it raises, and answers [False] exactly when there is no such entry. *)
Theorem X8_guard_first_decides cand hist new_data :
  snd (_extract_price_data cand) = Some new_data ->
  (snd (_is_duplicate_analysis cand hist) = Ok true <->
   exists pre post rest, hist = (pre ++ post :: rest)%list
                         /\ Forall (passes new_data) pre /\ hits new_data post)
  /\ (forall e, snd (_is_duplicate_analysis cand hist) = Raise e <->
      exists pre post rest, hist = (pre ++ post :: rest)%list
                            /\ Forall (passes new_data) pre /\ faults new_data post e)
  /\ (snd (_is_duplicate_analysis cand hist) = Ok false <->
      Forall (passes new_data) hist).
Proof.
  intros Hc. rewrite (is_duplicate_parsed _ _ _ Hc).
  split; [apply loop_true_iff|]. split; [intros e; apply loop_raise_iff|].
  apply loop_false_iff.
Qed.

Lemma X8_guard_first_decides_witness :
  snd (_is_duplicate_analysis candidate_post
         [post_no_prices; post_40s_earlier; post_10s_earlier; post_zero_price]) = Ok true.
Proof.
  edestruct (X8_guard_first_decides candidate_post
               [post_no_prices; post_40s_earlier; post_10s_earlier; post_zero_price])
    as ([_ H] & _); [vm_compute; reflexivity|].
  apply H. exists [post_no_prices; post_40s_earlier], post_10s_earlier, [post_zero_price].
  split; [reflexivity|]. split.
  - constructor; [left; vm_compute; reflexivity|].
    constructor; [|constructor]. right. eexists.
    split; [vm_compute; reflexivity | vm_compute; reflexivity].
  - eexists. eexists. split; [vm_compute; reflexivity | vm_compute; reflexivity].
Defined.

Lemma loop_decided new_data more : forall pre,
  snd (duplicate_loop new_data pre) <> Ok false ->
  duplicate_loop new_data (pre ++ more) = duplicate_loop new_data pre.
Proof.
  induction pre as [|post pre IH]; [now intros []|].
  cbn [app duplicate_loop].
  destruct (_extract_price_data post) as [l1 [old|]].
  - destruct (compare_with new_data old) as [[[b e]|]|e]; try reflexivity.
    destruct (duplicate_loop new_data pre) as [l2 r] eqn:Hr. cbn [snd].
    intros Hn. now rewrite (IH Hn).
  - destruct (duplicate_loop new_data pre) as [l2 r] eqn:Hr. cbn [snd].
    intros Hn. now rewrite (IH Hn).
Qed.

(** X9. Once the guard has answered [True] or raised on a history, the
    posts behind it are not read: with any posts appended it gives the
    same answer and the same log lines. *)
Theorem X9_guard_stops_at_answer cand hist more :
  snd (_is_duplicate_analysis cand hist) <> Ok false ->
  _is_duplicate_analysis cand (hist ++ more) = _is_duplicate_analysis cand hist.
Proof.
  unfold _is_duplicate_analysis.
  destruct (_extract_price_data cand) as [l0 [new_data|]]; [|reflexivity].
  destruct (duplicate_loop new_data hist) as [l r] eqn:Hr. cbn [snd]. intros Hn.
  rewrite (loop_decided new_data more hist); rewrite Hr; [reflexivity | exact Hn].
Qed.

Lemma X9_guard_stops_at_answer_witness :
  _is_duplicate_analysis candidate_post ([post_10s_earlier] ++ [post_zero_price])
  = _is_duplicate_analysis candidate_post [post_10s_earlier].
Proof.
  apply (X9_guard_stops_at_answer candidate_post [post_10s_earlier] [post_zero_price]).
  vm_compute. discriminate.
Defined.

Lemma extract_without_timestamp tweet d :
  group1 (re_search timestamp_re tweet) = None ->
  snd (_extract_price_data tweet) = Some d -> timestamp d = None.
Proof.
  intros Ht. unfold _extract_price_data, extract_try. rewrite Ht.
  destruct (group1 (re_search btc_re tweet)) as [b|]; [|discriminate].
  destruct (group1 (re_search eth_re tweet)) as [e|]; [|discriminate].
  destruct (python_float (remove_char "," b)) as [vb|]; [|discriminate].
  destruct (python_float (remove_char "," e)) as [ve|]; [|discriminate]. simpl.
  now intros [= <-].
Qed.

Lemma hit_timestamps new_data post :
  hits new_data post ->
  is_Some (timestamp new_data)
  /\ exists old_data, snd (_extract_price_data post) = Some old_data
                      /\ is_Some (timestamp old_data).
Proof.
  intros (old & [bc ec] & Ho & Hc).
  apply compare_hit_iff in Hc as (_ & _ & _ & _ & tn & to & Hn & Hto & _).
  split; [now exists tn|]. exists old. split; [exact Ho | now exists to].
Qed.

(** X10. A text in which the timestamp pattern matches nowhere is never
    reported as a duplicate, whatever the history, and never makes a
    candidate one when it is the history. *)
Theorem X10_no_timestamp_no_duplicate tweet :
  group1 (re_search timestamp_re tweet) = None ->
  (forall hist, snd (_is_duplicate_analysis tweet hist) <> Ok true)
  /\ (forall cand pre,
        Forall (fun post => group1 (re_search timestamp_re post) = None) pre ->
        snd (_is_duplicate_analysis cand (pre ++ [tweet])) <> Ok true).
Proof.
  intros Ht. split.
  - intros hist. destruct (snd (_extract_price_data tweet)) as [new_data|] eqn:Hc.
    + rewrite (is_duplicate_parsed _ _ _ Hc).
      intros (pre & post & rest & _ & _ & Hh)%loop_true_iff.
      apply hit_timestamps in Hh as [[t Hn] _].
      rewrite (extract_without_timestamp _ _ Ht Hc) in Hn. discriminate.
    + rewrite (is_duplicate_unparsed _ _ Hc). discriminate.
  - intros cand pre Hpre.
    destruct (snd (_extract_price_data cand)) as [new_data|] eqn:Hc.
    2: { rewrite (is_duplicate_unparsed _ _ Hc). discriminate. }
    rewrite (is_duplicate_parsed _ _ _ Hc).
    intros (pre' & post & rest & Heq & _ & Hh)%loop_true_iff.
    apply hit_timestamps in Hh as (_ & old & Ho & [t Hto]).
    assert (Hin : In post (pre ++ [tweet])).
    { rewrite Heq. apply in_or_app. right. now left. }
    assert (Hnone : group1 (re_search timestamp_re post) = None).
    { apply in_app_or in Hin as [Hin | [<- | []]]; [|exact Ht].
      rewrite Forall_forall in Hpre. now apply Hpre. }
    rewrite (extract_without_timestamp _ _ Hnone Ho) in Hto. discriminate.
Qed.

Lemma X10_no_timestamp_no_duplicate_witness :
  match snd (_is_duplicate_analysis post_no_date [post_no_date; candidate_post]) with
  | Ok true => False
  | _ => True
  end.
Proof.
  edestruct (X10_no_timestamp_no_duplicate post_no_date) as [H _];
    [vm_compute; reflexivity|].
  specialize (H [post_no_date; candidate_post]).
  destruct (snd (_is_duplicate_analysis post_no_date [post_no_date; candidate_post]))
    as [[|]|e]; [now apply H | exact I | exact I].
Defined.

(** X11. On a history whose parsed entries all have positive prices the
    guard returns; it answers [True] exactly when for some entry both
    changes [|new - old| / old * 100] are below the threshold, both
    records carry a timestamp, and the candidate's timestamp is less than
    30 seconds after the entry's. *)
Theorem X11_guard_on_positive_prices cand hist new_data :
  snd (_extract_price_data cand) = Some new_data ->
  positive_prices hist ->
  (exists b, snd (_is_duplicate_analysis cand hist) = Ok b)
  /\ (snd (_is_duplicate_analysis cand hist) = Ok true <->
      exists post old_data new_ts old_ts,
        In post hist
        /\ snd (_extract_price_data post) = Some old_data
        /\ PrimFloat.ltb (spec_change (btc new_data) (btc old_data))
                         MIN_CHANGE_THRESHOLD = true
        /\ PrimFloat.ltb (spec_change (eth new_data) (eth old_data))
                         MIN_CHANGE_THRESHOLD = true
        /\ timestamp new_data = Some new_ts
        /\ timestamp old_data = Some old_ts
        /\ total_seconds new_ts old_ts < 30).
Proof. apply guard_on_positive_history. Qed.

Lemma X11_guard_on_positive_prices_witness :
  exists b, snd (_is_duplicate_analysis candidate_post
                   [post_40s_earlier; post_no_prices; post_10s_earlier]) = Ok b.
Proof.
  edestruct (X11_guard_on_positive_prices candidate_post
               [post_40s_earlier; post_no_prices; post_10s_earlier]) as [H _];
    [vm_compute; reflexivity | | exact H].
  intros post old [<- | [<- | [<- | []]]] Ho; vm_compute in Ho;
    try discriminate; injection Ho as <-; split; vm_compute; reflexivity.
Defined.

End GuardOrder.


(** ** The configuration *)

Section Configuration.

Lemma rstrip_empty s : rstrip s = EmptyString <-> all_chars space s = true.
Proof.
  induction s as [|c s IH]; [easy|]. cbn [rstrip all_chars].
  destruct (rstrip s) as [|d r] eqn:Hr.
  - destruct (space c); simpl.
    + split; [intros _; now apply IH | reflexivity].
    + split; discriminate.
  - split; [discriminate|]. intros [_ H]%andb_true_iff. apply IH in H. discriminate.
Qed.

Lemma lstrip_spaces s : all_chars space s = true -> lstrip s = EmptyString.
Proof.
  induction s as [|c s IH]; [reflexivity|]. cbn [lstrip all_chars].
  intros [-> H]%andb_true_iff. now apply IH.
Qed.

Lemma lstrip_keeps s : all_chars space s = false -> all_chars space (lstrip s) = false.
Proof.
  induction s as [|c s IH]; [discriminate|]. cbn [lstrip all_chars].
  destruct (space c) eqn:Hc; simpl; [exact IH|]. intros _. cbn [all_chars]. now rewrite Hc.
Qed.

Lemma strip_empty s : strip s = EmptyString <-> all_chars space s = true.
Proof.
  unfold strip. rewrite rstrip_empty. split.
  - intros H. destruct (all_chars space s) eqn:Hs; [reflexivity|].
    apply lstrip_keeps in Hs. congruence.
  - intros H. now rewrite (lstrip_spaces s H).
Qed.

(** A setting is missing exactly when it has only white space. *)
Lemma is_missing_iff v : is_missing v = true <-> all_chars space v = true.
Proof.
  unfold is_missing. rewrite orb_true_iff, !String.eqb_eq, strip_empty. split.
  - intros [-> | H]; [reflexivity | exact H].
  - now right.
Qed.

Lemma missing_settings_blank self :
  missing_settings self
  = map fst (filter (fun setting => all_chars space (snd setting)) (required_settings self)).
Proof.
  unfold missing_settings. f_equal. apply filter_ext. intros [n v]. cbn [snd].
  destruct (all_chars space v) eqn:Hs.
  - now apply is_missing_iff.
  - destruct (is_missing v) eqn:Hm; [|reflexivity]. apply is_missing_iff in Hm. congruence.
Qed.

Lemma validate_passes_iff self :
  snd (_validate_config self) = Ok tt <->
  Forall (fun setting => all_chars space (snd setting) = false) (required_settings self).
Proof.
  unfold _validate_config. rewrite missing_settings_blank.
  induction (required_settings self) as [|[n v] l IH]; [split; [constructor | reflexivity]|].
  cbn [filter snd]. destruct (all_chars space v) eqn:Hs.
  - cbn [map snd]. split; [discriminate|]. inversion 1; subst. cbn [snd] in *. congruence.
  - split.
    + intros H. constructor; [exact Hs | now apply IH].
    + inversion 1; subst. now apply IH.
Qed.

(** X12. The validation passes exactly when each of the eight required
    settings, the four Google Sheets ones included, has a character that
    is not white space. Otherwise it raises [ValueError] after logging one
    line, which names the settings that are empty or blank, in the order
    of the list and separated by a comma and a space. *)
Theorem X12_validate_config self :
  (snd (_validate_config self) = Ok tt <->
   Forall (fun setting => all_chars space (snd setting) = false) (required_settings self))
  /\ (snd (_validate_config self) <> Ok tt ->
      _validate_config self =
      (["Missing required configuration: " ++
        join ", " (map fst (filter (fun setting => all_chars space (snd setting))
                                   (required_settings self)))],
       Raise ValueError)).
Proof.
  split; [apply validate_passes_iff|].
  unfold _validate_config. rewrite missing_settings_blank.
  destruct (map fst (filter _ (required_settings self))) as [|m ms];
    [now intros [] | reflexivity].
Qed.


End Configuration.


(** ** Logging in *)

Section Login.

Variable b : Browser.

Lemma run_app s1 s2 :
  run b (s1 ++ s2) =
  match run b s1 with
  | (t, None) => let (t', r) := run b s2 in ((t ++ t')%list, r)
  | (t, Some e) => (t, Some e)
  end.
Proof.
  induction s1 as [|[c|n|l] s1 IH]; cbn [run app].
  - now destruct (run b s2).
  - destruct (b c); [|reflexivity]. rewrite IH.
    destruct (run b s1) as [t [e|]]; [reflexivity|]. now destruct (run b s2).
  - rewrite IH. destruct (run b s1) as [t [e|]]; [reflexivity|]. now destruct (run b s2).
  - rewrite IH. destruct (run b s1) as [t [e|]]; [reflexivity|]. now destruct (run b s2).
Qed.

Lemma run_all script :
  (forall c, In c (calls_of script) -> answers b c) -> run b script = (script, None).
Proof.
  induction script as [|[c|n|l] script IH]; intros H; cbn [run]; [reflexivity| | |].
  - destruct (H c) as [v ->]; [now left|]. rewrite IH; [reflexivity|].
    intros c' Hc. apply H. now right.
  - now rewrite IH.
  - now rewrite IH.
Qed.

Lemma run_fail pre c post e :
  (forall c', In c' (calls_of pre) -> answers b c') ->
  b c = Raise e ->
  run b (pre ++ Call c :: post) = ((pre ++ [Call c])%list, Some e).
Proof.
  intros Hpre Hc. rewrite run_app, (run_all pre Hpre). cbn [run]. now rewrite Hc.
Qed.

Lemma run_none_iff script :
  snd (run b script) = None <-> forall c, In c (calls_of script) -> answers b c.
Proof.
  split; [|intros H; now rewrite run_all].
  induction script as [|[c|n|l] script IH]; cbn [run]; [now intros _ c []| | |].
  - destruct (b c) as [v|e] eqn:Hc; [|discriminate].
    destruct (run b script) as [t r]. cbn [snd] in *. intros Hr c' [<- | Hin].
    + now exists v.
    + now apply IH.
  - destruct (run b script) as [t r]. exact IH.
  - destruct (run b script) as [t r]. exact IH.
Qed.

Lemma run_stages_flat stages :
  match run b (flat_map script_of stages) with
  | (t, None) => run_stages b stages = (t, Ok None)
  | (t, Some e) =>
      run_stages b stages = (t, Raise e)
      \/ exists line, run_stages b stages = ((t ++ [Log line])%list, Ok (Some false))
  end.
Proof.
  induction stages as [|s stages IH]; [reflexivity|].
  cbn [flat_map]. rewrite run_app.
  destruct s as [script|script on_error]; cbn [script_of run_stages];
    destruct (run b script) as [t [e|]]; eauto;
    destruct (run b (flat_map script_of stages)) as [t' [e'|]].
  - destruct IH as [-> | [line ->]]; [now left|]. right. exists line. now rewrite app_assoc.
  - now rewrite IH.
  - destruct IH as [-> | [line ->]]; [now left|]. right. exists line. now rewrite app_assoc.
  - now rewrite IH.
Qed.

(** *** The verification *)

Lemma try_methods_true rc methods :
  snd (try_methods b rc methods) = true <->
  exists i, In i methods /\ b (verification_method (rc + 1) i) = Ok true.
Proof.
  induction methods as [|i methods IH]; cbn [try_methods].
  - split; [discriminate | now intros (i & [] & _)].
  - destruct (b (verification_method (rc + 1) i)) as [[|]|e] eqn:Hi.
    + split; [intros _; exists i; split; [now left | exact Hi] | reflexivity].
    + destruct (try_methods b rc methods) as [t r]. cbn [snd] in *. rewrite IH. split.
      * intros (j & Hin & Hj). exists j. split; [now right | exact Hj].
      * intros (j & [<- | Hin] & Hj); [congruence | now exists j].
    + destruct (try_methods b rc methods) as [t r]. cbn [snd] in *. rewrite IH. split.
      * intros (j & Hin & Hj). exists j. split; [now right | exact Hj].
      * intros (j & [<- | Hin] & Hj); [congruence | now exists j].
Qed.

Lemma attempt_verifies_iff rc :
  snd (try_methods b rc [1; 2; 3; 4]%nat) = true <-> attempt_verifies b (rc + 1).
Proof.
  rewrite try_methods_true. unfold attempt_verifies. split.
  - intros (i & Hin & Hi). exists i. split; [|exact Hi]. simpl in Hin. lia.
  - intros (i & Hin & Hi). exists i. split; [|exact Hi]. simpl. lia.
Qed.

Lemma verify_loop_true max_retries : forall left rc,
  Z.of_nat left = Z.max 0 (max_retries - rc) ->
  snd (verify_loop b max_retries left rc) = Ok true <->
  exists a, rc < a <= max_retries /\ attempt_verifies b a
            /\ forall k, rc < k < a -> answers b (wait_and_refresh k).
Proof.
  induction left as [|left IH]; intros rc Hl; cbn [verify_loop].
  - cbn [snd]. split; [discriminate|]. intros (a & Ha & _). lia.
  - pose proof (attempt_verifies_iff rc) as Hv.
    destruct (try_methods b rc [1; 2; 3; 4]%nat) as [t1 [|]]; cbn [snd] in Hv.
    + cbn [snd]. split; [intros _|reflexivity].
      exists (rc + 1). split; [lia|]. split; [now apply Hv|]. intros k Hk. lia.
    + assert (Hn : ~ attempt_verifies b (rc + 1)).
      { intros H. apply Hv in H. discriminate. }
      destruct (Z.ltb_spec (rc + 1) max_retries) as [Hlt|Hge].
      * destruct (b (wait_and_refresh (rc + 1))) as [v|e] eqn:Hr.
        -- specialize (IH (rc + 1) ltac:(lia)).
           destruct (verify_loop b max_retries left (rc + 1)) as [t3 r]. cbn [snd] in *.
           rewrite IH. split.
           ++ intros (a & Ha & Hva & Hk). exists a. split; [lia|]. split; [exact Hva|].
              intros k Hk'. destruct (Z.eq_dec k (rc + 1)) as [->|]; [now exists v|].
              apply Hk. lia.
           ++ intros (a & Ha & Hva & Hk). exists a.
              assert (a <> rc + 1) by (intros ->; contradiction).
              split; [lia|]. split; [exact Hva|]. intros k Hk'. apply Hk. lia.
        -- cbn [snd]. split; [discriminate|]. intros (a & Ha & Hva & Hk).
           assert (a <> rc + 1) by (intros ->; contradiction).
           destruct (Hk (rc + 1) ltac:(lia)) as [v Hv']. congruence.
      * assert (left = 0%nat) by lia. subst left. cbn [verify_loop snd].
        split; [discriminate|]. intros (a & Ha & Hva & _).
        assert (a = rc + 1) by lia. subst a. contradiction.
Qed.

Lemma verify_login_snd config :
  snd (_verify_login b config) = true <->
  snd (verify_loop b (MAX_RETRIES config) (Z.to_nat (MAX_RETRIES config)) 0) = Ok true.
Proof.
  unfold _verify_login.
  destruct (verify_loop b (MAX_RETRIES config) (Z.to_nat (MAX_RETRIES config)) 0)
    as [t [v|e]]; cbn [snd]; split; congruence.
Qed.

(** X14. The verification returns [True] exactly when one of the first
    [MAX_RETRIES] attempts has a method that returns something true and
    the page refresh after every attempt before it returned. With
    [MAX_RETRIES] zero or negative it returns [False] without asking the
    browser anything. *)
Theorem X14_verify_login config :
  (snd (_verify_login b config) = true <->
   exists a, 1 <= a <= MAX_RETRIES config /\ attempt_verifies b a
             /\ forall k, 1 <= k < a -> answers b (wait_and_refresh k))
  /\ (MAX_RETRIES config <= 0 ->
      _verify_login b config =
      ([Log starting_verification; Log (verification_exhausted (MAX_RETRIES config))],
       false)).
Proof.
  split.
  - rewrite verify_login_snd, verify_loop_true by lia. split.
    + intros (a & Ha & Hv & Hk). exists a. split; [lia|]. split; [exact Hv|].
      intros k Hk'. apply Hk. lia.
    + intros (a & Ha & Hv & Hk). exists a. split; [lia|]. split; [exact Hv|].
      intros k Hk'. apply Hk. lia.
  - intros Hm. unfold _verify_login.
    replace (Z.to_nat (MAX_RETRIES config)) with 0%nat by lia. reflexivity.
Qed.

Lemma sleeps_of_app t1 t2 : sleeps_of (t1 ++ t2) = (sleeps_of t1 ++ sleeps_of t2)%list.
Proof. apply flat_map_app. Qed.

Lemma calls_of_app t1 t2 : calls_of (t1 ++ t2) = (calls_of t1 ++ calls_of t2)%list.
Proof. apply flat_map_app. Qed.

Lemma try_methods_sleeps rc methods : sleeps_of (fst (try_methods b rc methods)) = [].
Proof.
  induction methods as [|i methods IH]; [reflexivity|]. cbn [try_methods].
  destruct (b (verification_method (rc + 1) i)) as [[|]|e]; [reflexivity| |];
    destruct (try_methods b rc methods) as [t r]; exact IH.
Qed.

Lemma wait_times_cons rc m :
  wait_times rc (S m) = 8 * (rc + 1) :: wait_times (rc + 1) m.
Proof.
  unfold wait_times. cbn [seq map]. f_equal. rewrite <- seq_shift, map_map.
  apply map_ext. intros k. f_equal. lia.
Qed.

Lemma sum_wait_times : forall m rc,
  sum_Z (wait_times rc m) = 8 * rc * Z.of_nat m + 4 * Z.of_nat m * (Z.of_nat m + 1).
Proof.
  induction m as [|m IH]; intros rc; [cbn; lia|].
  rewrite wait_times_cons. cbn [sum_Z fold_right]. fold (sum_Z (wait_times (rc + 1) m)).
  rewrite IH. lia.
Qed.

(** The waits of the loop: one after each attempt that is not the last. *)
Lemma verify_loop_waits max_retries : forall left rc,
  Z.of_nat left = Z.max 0 (max_retries - rc) ->
  exists m : nat,
    sleeps_of (fst (verify_loop b max_retries left rc)) = wait_times rc m
    /\ (S m <= left \/ m = 0)%nat
    /\ (snd (verify_loop b max_retries left rc) = Ok false -> S m = left \/ left = 0%nat).
Proof.
  induction left as [|left IH]; intros rc Hl; cbn [verify_loop].
  - exists 0%nat. cbn. auto.
  - pose proof (try_methods_sleeps rc [1; 2; 3; 4]%nat) as Hs.
    destruct (try_methods b rc [1; 2; 3; 4]%nat) as [t1 [|]]; cbn [fst] in Hs.
    + exists 0%nat. cbn [fst snd]. cbn [sleeps_of flat_map]. fold (sleeps_of t1).
      rewrite Hs. split; [reflexivity|]. split; [now right | discriminate].
    + destruct (Z.ltb_spec (rc + 1) max_retries) as [Hlt|Hge].
      * destruct (b (wait_and_refresh (rc + 1))) as [v|e].
        -- destruct (IH (rc + 1) ltac:(lia)) as (m & Hm & Hb & Hf).
           destruct (verify_loop b max_retries left (rc + 1)) as [t3 r].
           cbn [fst snd] in *. exists (S m).
           change (Log (verification_attempt (rc + 1) max_retries) :: t1)
             with ([Log (verification_attempt (rc + 1) max_retries)] ++ t1)%list.
           rewrite !sleeps_of_app, Hs, Hm, wait_times_cons.
           split; [reflexivity|]. split; [lia|]. intros Hr. specialize (Hf Hr). lia.
        -- exists 1%nat. cbn [fst snd].
           change (Log (verification_attempt (rc + 1) max_retries) :: t1)
             with ([Log (verification_attempt (rc + 1) max_retries)] ++ t1)%list.
           rewrite !sleeps_of_app, Hs, wait_times_cons.
           split; [reflexivity|]. split; [lia | discriminate].
      * assert (left = 0%nat) by lia. subst left. cbn [verify_loop fst snd].
        exists 0%nat.
        change (Log (verification_attempt (rc + 1) max_retries) :: t1)
          with ([Log (verification_attempt (rc + 1) max_retries)] ++ t1)%list.
        rewrite !sleeps_of_app, Hs. split; [reflexivity|]. split; [now right | now left].
Qed.

(** X15. The verification sleeps only between attempts: 8 seconds after
    the first, 16 after the second and so on, never after the last one.
    Its waits add up to at most [4 * MAX_RETRIES * (MAX_RETRIES - 1)]
    seconds, and to exactly that when no attempt verifies and no refresh
    raises. *)
Theorem X15_verify_waits config :
  1 <= MAX_RETRIES config ->
  let max_retries := MAX_RETRIES config in
  let t := fst (_verify_login b config) in
  (exists m : nat, Z.of_nat m < max_retries /\ sleeps_of t = wait_times 0 m)
  /\ sum_Z (sleeps_of t) <= 4 * max_retries * (max_retries - 1)
  /\ ((forall a, ~ attempt_verifies b a) ->
      (forall k, answers b (wait_and_refresh k)) ->
      sleeps_of t = wait_times 0 (Z.to_nat (max_retries - 1))
      /\ sum_Z (sleeps_of t) = 4 * max_retries * (max_retries - 1)).
Proof.
  intros Hmax max_retries t.
  destruct (verify_loop_waits max_retries (Z.to_nat max_retries) 0 ltac:(lia))
    as (m & Hm & Hb & Hf).
  assert (Ht : sleeps_of t = wait_times 0 m).
  { subst t. unfold _verify_login. fold max_retries.
    destruct (verify_loop b max_retries (Z.to_nat max_retries) 0) as [t0 [v|e]];
      cbn [fst] in *.
    - exact Hm.
    - change (Log starting_verification :: t0 ++ [Log (verification_failed e)])%list
        with ([Log starting_verification] ++ t0 ++ [Log (verification_failed e)])%list.
      rewrite !sleeps_of_app, Hm. cbn. now rewrite app_nil_r. }
  assert (Hlt : Z.of_nat m < max_retries) by lia.
  split; [now exists m|]. split.
  - rewrite Ht, sum_wait_times. nia.
  - intros Hnv Hans.
    assert (Hr : snd (verify_loop b max_retries (Z.to_nat max_retries) 0) = Ok false).
    { destruct (snd (verify_loop b max_retries (Z.to_nat max_retries) 0))
        as [[|]|e] eqn:Hr; [|reflexivity|].
      - apply verify_loop_true in Hr as (a & _ & Hv & _); [|lia]. now apply Hnv in Hv.
      - exfalso. clear - Hr Hans.
        assert (G : forall left rc e,
                   snd (verify_loop b max_retries left rc) <> Raise e).
        { induction left as [|left IH]; intros rc e'; cbn [verify_loop]; [discriminate|].
          destruct (try_methods b rc [1; 2; 3; 4]%nat) as [t1 [|]]; [discriminate|].
          destruct (rc + 1 <? max_retries).
          - destruct (Hans (rc + 1)) as [v ->]. specialize (IH (rc + 1) e').
            now destruct (verify_loop b max_retries left (rc + 1)).
          - specialize (IH (rc + 1) e').
            now destruct (verify_loop b max_retries left (rc + 1)). }
        now apply G in Hr. }
    specialize (Hf Hr).
    assert (m = Z.to_nat (max_retries - 1)) by lia. subst m.
    split; [exact Ht|]. rewrite Ht, sum_wait_times. nia.
Qed.

(** *** The login sequence *)

Lemma login_all_answer config :
  (forall c, In c (calls_of (login_script config)) -> answers b c) ->
  _login_to_twitter b config
  = ((login_script config ++ fst (_verify_login b config))%list,
     snd (_verify_login b config)).
Proof.
  intros H. unfold _login_to_twitter.
  pose proof (run_stages_flat (login_stages config)) as Hf.
  fold (login_script config) in Hf. rewrite (run_all _ H) in Hf. rewrite Hf.
  now destruct (_verify_login b config).
Qed.

Lemma login_first_failure config pre c post e :
  login_script config = (pre ++ Call c :: post)%list ->
  (forall c', In c' (calls_of pre) -> answers b c') ->
  b c = Raise e ->
  snd (_login_to_twitter b config) = false
  /\ exists line, fst (_login_to_twitter b config) = (pre ++ [Call c; Log line])%list.
Proof.
  intros Hs Hpre Hc. unfold _login_to_twitter.
  pose proof (run_stages_flat (login_stages config)) as Hf.
  fold (login_script config) in Hf. rewrite Hs, (run_fail pre c post e Hpre Hc) in Hf.
  destruct Hf as [-> | [line ->]]; cbn [fst snd].
  - split; [reflexivity|]. exists (login_failed e). now rewrite <- app_assoc.
  - split; [reflexivity|]. exists line. now rewrite <- app_assoc.
Qed.

(** X16. The login performs the statements of its script in order. When
    every browser call of the script returns, the whole script is
    performed, followed by the verification, whose answer is the login's.
    When a call raises, that call is the last one made: the login logs one
    error line and returns [False], and nothing behind the call in the
    script is performed, the typing of the password included. So the
    login returns [True] exactly when every call returns and the
    verification returns [True]. *)
Theorem X16_login_stops_at_first_failure config :
  ((forall c, In c (calls_of (login_script config)) -> answers b c) ->
   _login_to_twitter b config
   = ((login_script config ++ fst (_verify_login b config))%list,
      snd (_verify_login b config)))
  /\ (forall pre c post e,
        login_script config = (pre ++ Call c :: post)%list ->
        (forall c', In c' (calls_of pre) -> answers b c') ->
        b c = Raise e ->
        snd (_login_to_twitter b config) = false
        /\ exists line, fst (_login_to_twitter b config) = (pre ++ [Call c; Log line])%list)
  /\ (snd (_login_to_twitter b config) = true <->
      (forall c, In c (calls_of (login_script config)) -> answers b c)
      /\ snd (_verify_login b config) = true).
Proof.
  split; [apply login_all_answer|]. split; [apply login_first_failure|].
  split.
  - intros Ht. assert (Ha : forall c, In c (calls_of (login_script config)) -> answers b c).
    { apply run_none_iff. unfold _login_to_twitter in Ht.
      pose proof (run_stages_flat (login_stages config)) as Hf.
      fold (login_script config) in Hf.
      destruct (run b (login_script config)) as [t [e|]]; [|reflexivity].
      destruct Hf as [Hf | [line Hf]]; rewrite Hf in Ht; discriminate. }
    split; [exact Ha|]. now rewrite (login_all_answer config Ha) in Ht.
  - intros [Ha Hv]. now rewrite (login_all_answer config Ha).
Qed.

End Login.

Lemma X15_verify_waits_witness :
  let config := mk_Config "" "" "" "" "" "" "" "agent" "secret" "" 5 3 "" in
  sleeps_of (fst (_verify_login (fun _ => Ok false) config)) = [8; 16].
Proof.
  intros config.
  edestruct (X15_verify_waits (fun _ => Ok false) config) as (_ & _ & H);
    [vm_compute; discriminate|].
  destruct H as [H _].
  - intros a (i & _ & Hi). discriminate.
  - intros k. now exists false.
  - exact H.
Defined.


(** ** The waits of a cycle *)

Section CycleWaits.

Variable env : Env.

Lemma bounded_nil rc left : 0 <= rc -> bounded_waits rc left [].
Proof. intros H. split; [constructor|]. cbn. nia. Qed.

Lemma bounded_cons rc left s extra :
  0 <= rc -> 0 < s <= 10 * (rc + 1) ->
  bounded_waits (rc + 1) left extra -> bounded_waits rc (S left) (s :: extra).
Proof.
  intros Hrc Hs [Hall Hsum]. split.
  - constructor; [lia|]. eapply Forall_impl; [|exact Hall]. cbn beta. intros a Ha. lia.
  - cbn [sum_Z fold_right]. fold (sum_Z extra). nia.
Qed.

Lemma bounded_skip rc left extra :
  0 <= rc -> bounded_waits (rc + 1) left extra -> bounded_waits rc (S left) extra.
Proof.
  intros Hrc [Hall Hsum]. split.
  - eapply Forall_impl; [|exact Hall]. cbn beta. intros a Ha. lia.
  - nia.
Qed.

Lemma crypto_loop_waits : forall left rc w,
  0 <= rc ->
  exists extra, slept (snd (crypto_loop env left rc w)) = (slept w ++ extra)%list
                /\ bounded_waits rc left extra.
Proof.
  induction left as [|left IH]; intros rc w Hrc; cbn [crypto_loop].
  - exists []. split; [simpl; now rewrite app_nil_r | now apply bounded_nil].
  - assert (Hret : forall w', slept w' = slept w ->
               exists extra, slept w' = (slept w ++ extra)%list
                             /\ bounded_waits rc (S left) extra).
    { intros w' Hw. exists []. rewrite app_nil_r. split; [exact Hw | now apply bounded_nil]. }
    assert (Hrec : forall w', slept w' = slept w ->
               exists extra,
                 slept (snd (crypto_loop env left (rc + 1)
                               (sleep ((rc + 1) * 10)
                                  (emit (coingecko_timeout (rc + 1) ((rc + 1) * 10)) w'))))
                 = (slept w ++ extra)%list
                 /\ bounded_waits rc (S left) extra).
    { intros w' Hw.
      edestruct (IH (rc + 1)) as (extra & He & Hb); [lia|].
      exists ((rc + 1) * 10 :: extra). split.
      - rewrite He. simpl. rewrite Hw, <- app_assoc. reflexivity.
      - apply bounded_cons; [lia | lia | exact Hb]. }
    destruct (session_get env (n_get w)) as [e|e|coins].
    + destruct e; first [now apply Hrec | now apply Hret].
    + destruct e; first [now apply Hrec | now apply Hret].
    + destruct (by_symbol coins !! "BTC"); [destruct (by_symbol coins !! "ETH")|];
        now apply Hret.
Qed.

Lemma sentiment_try_slept data w : slept (snd (sentiment_try env data w)) = slept w.
Proof.
  unfold sentiment_try.
  destruct (getitem data "BTC") as [b|];
    [destruct (getitem data "ETH") as [e|];
     [destruct (messages_create env (n_create w) b e)|]|]; reflexivity.
Qed.

Lemma sentiment_loop_waits data : forall left rc w,
  0 <= rc ->
  exists extra, slept (snd (sentiment_loop env data left rc w)) = (slept w ++ extra)%list
                /\ bounded_waits rc left extra.
Proof.
  induction left as [|left IH]; intros rc w Hrc; cbn [sentiment_loop].
  - exists []. split; [simpl; now rewrite app_nil_r | now apply bounded_nil].
  - pose proof (sentiment_try_slept data w) as Hs.
    destruct (sentiment_try env data w) as [[tweet|e] w1]; cbn [snd] in Hs.
    + exists []. rewrite app_nil_r. split; [exact Hs | now apply bounded_nil].
    + edestruct (IH (rc + 1)) as (extra & He & Hb); [lia|].
      exists ((rc + 1) * 10 :: extra). split.
      * rewrite He. simpl. rewrite Hs, <- app_assoc. reflexivity.
      * apply bounded_cons; [lia | lia | exact Hb].
Qed.

Lemma post_waits_bounded : forall failed left rc,
  0 <= rc -> (length failed <= left)%nat -> bounded_waits rc left (post_waits rc failed).
Proof.
  induction failed as [|o failed IH]; intros left rc Hrc Hl; [now apply bounded_nil|].
  destruct left as [|left]; [simpl in Hl; lia|]. simpl in Hl.
  assert (Hb : bounded_waits (rc + 1) left (post_waits (rc + 1) failed))
    by (apply IH; lia).
  destruct o; cbn [post_waits].
  - now apply bounded_skip.
  - apply bounded_cons; [lia | lia | exact Hb].
  - apply bounded_cons; [lia | lia | exact Hb].
Qed.

Lemma post_analysis_waits text w :
  exists extra, slept (snd (_post_analysis env text w)) = (slept w ++ extra)%list
                /\ bounded_waits 0 3 extra.
Proof.
  destruct (post_loop_spec env text 3 0 w) as (_ & _ & _ & _ & H5 & H6 & H7).
  change (post_loop env text 3 0 w) with (_post_analysis env text w) in H5, H6, H7.
  exists (post_waits 0 (before_click (next_outcomes env text w 3))).
  split; [exact H5|]. apply post_waits_bounded; [lia|].
  destruct (fst (_post_analysis env text w)).
  - destruct (H6 eq_refl) as [H _]. lia.
  - destruct (H7 eq_refl) as [H _]. lia.
Qed.

Lemma get_last_posts_slept w : slept (snd (_get_last_posts env w)) = slept w.
Proof. unfold _get_last_posts. now destruct (tweet_texts env (n_profile w)). Qed.

Lemma bounded_0_3 extra :
  bounded_waits 0 3 extra -> Forall (fun s => 0 < s <= 30) extra /\ sum_Z extra <= 60.
Proof.
  intros [Hall Hsum]. split; [|cbn in Hsum; lia].
  eapply Forall_impl; [|exact Hall]. cbn. intros a Ha. lia.
Qed.

Lemma sum_Z_app l1 l2 : sum_Z (l1 ++ l2) = sum_Z l1 + sum_Z l2.
Proof. unfold sum_Z. induction l1 as [|a l1 IH]; cbn [fold_right app]; lia. Qed.

(** The waits of one cycle: those of the fetch, of the generation and of
    the publisher, each with the bounds of its three attempts. *)
Lemma cycle_waits w :
  exists fetch generate publish,
    slept (snd (_run_correlation_cycle env w)) = (slept w ++ fetch ++ generate ++ publish)%list
    /\ bounded_waits 0 3 fetch /\ bounded_waits 0 3 generate /\ bounded_waits 0 3 publish.
Proof.
  assert (B0 : bounded_waits 0 3 []) by (apply bounded_nil; lia).
  unfold _run_correlation_cycle, cycle_try.
  destruct (crypto_loop_waits (Z.to_nat max_retries) 0 w ltac:(lia)) as (e1 & F & Fb).
  fold (_get_crypto_data env w) in F. change (Z.to_nat max_retries) with 3%nat in Fb.
  destruct (_get_crypto_data env w) as [[data|] w1]; cbn [snd] in F.
  2: { exists e1, [], []. simpl. rewrite F, !app_nil_r. auto. }
  destruct (truthy_dict (Some data)).
  2: { exists e1, [], []. simpl. rewrite F, !app_nil_r. auto. }
  destruct (sentiment_loop_waits data (Z.to_nat max_retries) 0
              (emit cycle_fetched_crypto_data w1) ltac:(lia)) as (e2 & G & Gb).
  fold (_analyze_market_sentiment env data (emit cycle_fetched_crypto_data w1)) in G.
  change (Z.to_nat max_retries) with 3%nat in Gb.
  destruct (_analyze_market_sentiment env data (emit cycle_fetched_crypto_data w1))
    as [[text|] w2]; cbn [snd] in G; simpl in G; rewrite F in G.
  2: { exists e1, e2, []. simpl. rewrite G, !app_nil_r, <- app_assoc. auto. }
  destruct (truthy_text (Some text)).
  2: { exists e1, e2, []. simpl. rewrite G, !app_nil_r, <- app_assoc. auto. }
  pose proof (get_last_posts_slept (emit cycle_generated_analysis w2)) as A.
  destruct (_get_last_posts env (emit cycle_generated_analysis w2)) as [posts w3];
    cbn [snd] in A; simpl in A; rewrite G in A.
  destruct (_is_duplicate_analysis text posts) as [l [[|]|e]].
  1, 3: exists e1, e2, []; simpl; rewrite A, !app_nil_r, <- app_assoc; auto.
  destruct (post_analysis_waits text (emit_all l w3)) as (e3 & P & Pb).
  destruct (_post_analysis env text (emit_all l w3)) as [[|] w5];
    cbn [snd] in P; simpl in P; rewrite A in P.
  all: exists e1, e2, e3; simpl; rewrite P, <- !app_assoc; auto.
Qed.

(** X17. The waits of one cycle on its retry paths: every one of them is
    between 1 and 30 seconds, and together they take at most 180
    seconds. *)
Theorem X17_cycle_waits w :
  exists extra,
    slept (snd (_run_correlation_cycle env w)) = (slept w ++ extra)%list
    /\ Forall (fun s => 0 < s <= 30) extra
    /\ sum_Z extra <= 180.
Proof.
  destruct (cycle_waits w) as (e1 & e2 & e3 & H & [H1 S1]%bounded_0_3
                               & [H2 S2]%bounded_0_3 & [H3 S3]%bounded_0_3).
  exists (e1 ++ e2 ++ e3)%list. split; [exact H|]. split.
  - rewrite !Forall_app. auto.
  - rewrite !sum_Z_app. lia.
Qed.

End CycleWaits.

(** ** The main loop *)

Section MainLoop.

Variables (s : Session) (config : Config).

Lemma setup_loop_ok : forall left rc,
  0 <= rc ->
  snd (setup_loop s config left rc) = Ok tt <->
  exists k, rc <= k < rc + Z.of_nat left /\ pass_succeeds s config k
            /\ forall j, rc <= j < k -> pass_fails s config j.
Proof.
  induction left as [|left IH]; intros rc Hrc; cbn [setup_loop].
  - cbn [snd]. split; [discriminate|]. intros (k & Hk & _). lia.
  - assert (Hstep : (setup_pass s (Z.to_nat rc) initialize_driver = Ok false
                     \/ (setup_pass s (Z.to_nat rc) initialize_driver = Ok true
                         /\ snd (_login_to_twitter (setup_pass s (Z.to_nat rc)) config)
                            = false)) ->
              (exists k, rc + 1 <= k < rc + 1 + Z.of_nat left /\ pass_succeeds s config k
                         /\ forall j, rc + 1 <= j < k -> pass_fails s config j) ->
              exists k, rc <= k < rc + Z.of_nat (S left) /\ pass_succeeds s config k
                        /\ forall j, rc <= j < k -> pass_fails s config j).
    { intros Hb (k & Hk & Hs & Hj). exists k. split; [lia|]. split; [exact Hs|].
      intros j Hj'. destruct (Z.eq_dec j rc) as [->|]; [exact Hb | apply Hj; lia]. }
    assert (Hback : ~ (setup_pass s (Z.to_nat rc) initialize_driver = Ok true
                       /\ snd (_login_to_twitter (setup_pass s (Z.to_nat rc)) config)
                          = true) ->
              (exists k, rc <= k < rc + Z.of_nat (S left) /\ pass_succeeds s config k
                         /\ forall j, rc <= j < k -> pass_fails s config j) ->
              exists k, rc + 1 <= k < rc + 1 + Z.of_nat left /\ pass_succeeds s config k
                        /\ forall j, rc + 1 <= j < k -> pass_fails s config j).
    { intros Hn (k & Hk & Hs & Hj). exists k.
      assert (k <> rc) by (intros ->; now apply Hn).
      split; [lia|]. split; [exact Hs|]. intros j Hj'. apply Hj. lia. }
    destruct (setup_pass s (Z.to_nat rc) initialize_driver) as [[|]|e] eqn:Hi.
    + destruct (_login_to_twitter (setup_pass s (Z.to_nat rc)) config) as [t1 [|]] eqn:Hl.
      * cbn [snd]. split; [intros _|reflexivity]. exists rc. split; [lia|].
        unfold pass_succeeds. rewrite Hi, Hl. split; [now split|]. intros j Hj. lia.
      * specialize (IH (rc + 1) ltac:(lia)).
        destruct (setup_loop s config left (rc + 1)) as [t r]. cbn [snd] in *.
        rewrite IH. split.
        -- apply Hstep. right. now split.
        -- apply Hback. intros [_ [=]].
    + specialize (IH (rc + 1) ltac:(lia)).
      destruct (setup_loop s config left (rc + 1)) as [t r]. cbn [snd] in *.
      rewrite IH. split.
      * apply Hstep. now left.
      * apply Hback. intros [[=] _].
    + cbn [snd]. split; [discriminate|]. intros (k & Hk & [Hs1 Hs2] & Hj).
      destruct (Z.eq_dec k rc) as [->|]; [congruence|].
      destruct (Hj rc ltac:(lia)) as [H | [H _]]; congruence.
Qed.

Lemma setup_loop_raise : forall left rc e,
  0 <= rc ->
  snd (setup_loop s config left rc) = Raise e ->
  (exists k, rc <= k < rc + Z.of_nat left /\ pass_raises s k e
             /\ forall j, rc <= j < k -> pass_fails s config j)
  \/ (e = OtherError /\ forall j, rc <= j < rc + Z.of_nat left -> pass_fails s config j).
Proof.
  induction left as [|left IH]; intros rc e Hrc; cbn [setup_loop].
  - cbn [snd]. intros [= <-]. right. split; [reflexivity|]. intros j Hj. lia.
  - assert (Hstep : pass_fails s config rc ->
              snd (setup_loop s config left (rc + 1)) = Raise e ->
              (exists k, rc <= k < rc + Z.of_nat (S left) /\ pass_raises s k e
                         /\ forall j, rc <= j < k -> pass_fails s config j)
              \/ (e = OtherError
                  /\ forall j, rc <= j < rc + Z.of_nat (S left) -> pass_fails s config j)).
    { intros Hb Hr. destruct (IH (rc + 1) e ltac:(lia) Hr) as [(k & Hk & Hs & Hj) | [He Hj]].
      - left. exists k. split; [lia|]. split; [exact Hs|].
        intros j Hj'. destruct (Z.eq_dec j rc) as [->|]; [exact Hb | apply Hj; lia].
      - right. split; [exact He|].
        intros j Hj'. destruct (Z.eq_dec j rc) as [->|]; [exact Hb | apply Hj; lia]. }
    unfold pass_fails at 1 in Hstep. cbv zeta in Hstep.
    destruct (setup_pass s (Z.to_nat rc) initialize_driver) as [[|]|e'] eqn:Hi.
    + destruct (_login_to_twitter (setup_pass s (Z.to_nat rc)) config) as [t1 [|]] eqn:Hl.
      * discriminate.
      * destruct (setup_loop s config left (rc + 1)) as [t r]. cbn [snd] in *.
        apply Hstep. right. now split.
    + destruct (setup_loop s config left (rc + 1)) as [t r]. cbn [snd] in *.
      apply Hstep. now left.
    + cbn [snd]. intros [= ->]. left. exists rc. split; [lia|].
      split; [exact Hi|]. intros j Hj. lia.
Qed.

Lemma cleanup_ends :
  exists t, _cleanup s = (t ++ [Log shutdown])%list
            /\ (calls_of t = [] \/ calls_of t = [close_browser]).
Proof.
  unfold _cleanup. destruct (browser_truthy s).
  - destruct (at_cleanup s close_browser) as [v|e].
    + exists [Log closing_browser; Call close_browser; Sleep 1]. split; [reflexivity|now right].
    + exists [Log closing_browser; Call close_browser; Log (browser_close_warning e)].
      split; [reflexivity | now right].
  - exists []. split; [reflexivity | now left].
Qed.

(** X18. The setup gives the driver and the login three passes together.
    [start] reaches its scheduling loop exactly when one of the first
    three passes has the driver initialized and the login accepted, every
    pass before it having failed without an exception. Otherwise no cycle
    is ever run: the failure is logged, with the exception of the driver
    or, after three failed passes, the one [start] raises itself, and the
    cleanup follows, which closes the browser at most once and ends with
    the shutdown line. *)
Theorem X18_start_setup env passes :
  let ready := exists k, 0 <= k < 3 /\ pass_succeeds s config k
                         /\ forall j, 0 <= j < k -> pass_fails s config j in
  (ready ->
   exists t, start s config env passes
             = ((t ++ [Log bot_initialized])%list,
                Nat.iter passes (scheduler_pass env) world0))
  /\ (~ ready ->
      exists t e closing,
        start s config env passes
        = ((t ++ Log (bot_execution_error e) :: closing ++ [Log shutdown])%list, world0)
        /\ (calls_of closing = [] \/ calls_of closing = [close_browser])
        /\ ((exists k, 0 <= k < 3 /\ pass_raises s k e
                       /\ forall j, 0 <= j < k -> pass_fails s config j)
            \/ (e = OtherError /\ forall j, 0 <= j < 3 -> pass_fails s config j))).
Proof.
  intros ready.
  pose proof (setup_loop_ok (Z.to_nat max_setup_retries) 0 ltac:(lia)) as Hok.
  pose proof (fun e => setup_loop_raise (Z.to_nat max_setup_retries) 0 e ltac:(lia)) as Hr.
  change (0 + Z.of_nat (Z.to_nat max_setup_retries)) with 3 in Hok, Hr.
  fold ready in Hok. unfold start.
  destruct (setup_loop s config (Z.to_nat max_setup_retries) 0) as [t [[]|e]];
    cbn [snd] in Hok, Hr.
  - split; [intros _; now exists t|]. intros Hn. exfalso. now apply Hn, Hok.
  - split.
    + intros H. apply Hok in H. discriminate.
    + intros _. destruct cleanup_ends as (closing & -> & Hc).
      exists t, e, closing. split; [reflexivity|]. split; [exact Hc|]. now apply Hr.
Qed.

End MainLoop.

(** ** The scheduling loop *)

Section Scheduler.

Variable env : Env.




End Scheduler.


(** ** Reading back a printed timestamp *)

Section RoundTrip.

Lemma strptime_regex_parts :
  strptime_regex =
  seqs [Grp year_re; Lit "-"; Grp month_re; Lit "-"; Grp day_re; Plus space;
        Grp hour_re; Lit ":"; Grp minute_re; Lit ":"; Grp second_re].
Proof. reflexivity. Qed.

(** *** Printed integers *)

Lemma append_cons c a b : String c a ++ b = String c (a ++ b).
Proof. reflexivity. Qed.

Lemma all_chars_app p a b : all_chars p (a ++ b) = all_chars p a && all_chars p b.
Proof.
  induction a as [|c a IH]; [reflexivity|].
  rewrite append_cons. cbn [all_chars]. now rewrite IH, andb_assoc.
Qed.

Lemma all_chars_impl (p q : cclass) s :
  (forall c, p c = true -> q c = true) -> all_chars p s = true -> all_chars q s = true.
Proof.
  intros H. induction s as [|c s IH]; [reflexivity|]. cbn [all_chars].
  intros [Hc Hs]%andb_true_iff. now rewrite (H c Hc), IH.
Qed.

Lemma uint_digits d : all_chars digit (NilEmpty.string_of_uint d) = true.
Proof. induction d; cbn [NilEmpty.string_of_uint all_chars]; now rewrite ?IHd. Qed.

Lemma decimal_digits n : all_chars digit (decimal n) = true /\ decimal n <> EmptyString.
Proof.
  unfold decimal, NilZero.string_of_uint.
  destruct (N.to_uint (Z.to_N n)) eqn:Hu; try (split; [|discriminate]);
    try reflexivity; rewrite <- Hu; apply uint_digits.
Qed.

Lemma zeros_digits k : all_chars digit (zeros k) = true.
Proof. induction k as [|k IH]; [reflexivity|]. cbn [zeros all_chars]. now rewrite IH. Qed.

Lemma zero_fill_digits w n : all_chars digit (zero_fill w n) = true.
Proof.
  unfold zero_fill. rewrite all_chars_app, zeros_digits. apply decimal_digits.
Qed.

(** *** Reading a printed price *)

Lemma int_of_digits_app a b acc :
  int_of_digits (a ++ b) acc = int_of_digits b (int_of_digits a acc).
Proof.
  revert acc. induction a as [|c a IH]; intros acc; [reflexivity|].
  rewrite append_cons. cbn [int_of_digits]. apply IH.
Qed.

Lemma int_of_digits_shift s : forall acc,
  int_of_digits s acc = acc * 10 ^ Z.of_nat (String.length s) + int_of_digits s 0.
Proof.
  induction s as [|c s IH]; intros acc; cbn [int_of_digits String.length]; [cbn; lia|].
  rewrite (IH (10 * acc + digit_val c)), (IH (10 * 0 + digit_val c)).
  rewrite Nat2Z.inj_succ, Z.pow_succ_r by lia. lia.
Qed.

Lemma int_of_uint_acc d : forall acc,
  int_of_digits (NilEmpty.string_of_uint d) (Zpos acc) = Zpos (Pos.of_uint_acc d acc).
Proof.
  induction d; intros acc; cbn [NilEmpty.string_of_uint int_of_digits Pos.of_uint_acc];
    try reflexivity; rewrite <- IHd; f_equal; unfold digit_val, code;
    match goal with
    | |- context [Z.of_nat (nat_of_ascii ?c)] =>
        let v := eval vm_compute in (Z.of_nat (nat_of_ascii c)) in
        change (Z.of_nat (nat_of_ascii c)) with v
    end; lia.
Qed.

Lemma int_of_uint d :
  int_of_digits (NilEmpty.string_of_uint d) 0 = Z.of_N (Pos.of_uint d).
Proof.
  induction d; cbn [NilEmpty.string_of_uint int_of_digits Pos.of_uint]; try reflexivity;
    try exact IHd; apply int_of_uint_acc.
Qed.

Lemma int_of_decimal n : 0 <= n -> int_of_digits (decimal n) 0 = n.
Proof.
  intros Hn. unfold decimal, NilZero.string_of_uint.
  pose proof (DecimalN.Unsigned.of_to (Z.to_N n)) as H. unfold N.of_uint in H.
  destruct (N.to_uint (Z.to_N n)) eqn:Hu; cbv iota;
    try (rewrite int_of_uint, H; lia).
  cbn in H. vm_compute int_of_digits. lia.
Qed.

Lemma digit_val_range c : digit c = true -> 0 <= digit_val c <= 9.
Proof.
  unfold digit, in_range, digit_val. change (code "0") with 48. change (code "9") with 57.
  lia.
Qed.

Lemma int_of_digits_bound s :
  all_chars digit s = true -> 0 <= int_of_digits s 0 < 10 ^ Z.of_nat (String.length s).
Proof.
  induction s as [|c s IH]; [cbn; lia|]. cbn [all_chars int_of_digits String.length].
  intros [Hc Hs]%andb_true_iff. specialize (IH Hs). apply digit_val_range in Hc.
  rewrite int_of_digits_shift, Nat2Z.inj_succ, Z.pow_succ_r by lia. nia.
Qed.

Lemma remove_char_digits c s :
  digit c = false -> all_chars digit s = true -> remove_char c s = s.
Proof.
  intros Hc. induction s as [|d s IH]; [reflexivity|]. cbn [all_chars remove_char].
  intros [Hd Hs]%andb_true_iff.
  destruct (Ascii.eqb_spec c d) as [<-|]; [congruence | now rewrite IH].
Qed.

(** The decimal text of a positive number does not begin with a zero. *)
Lemma decimal_head y :
  0 < y ->
  exists c s, decimal y = String c s /\ 1 <= digit_val c.
Proof.
  intros Hy. unfold decimal. destruct (Z.to_N y) as [|p] eqn:Hp; [lia|].
  cbn [N.to_uint].
  pose proof (DecimalPos.Unsigned.to_of (Pos.to_uint p)) as Hn.
  rewrite DecimalPos.Unsigned.of_to in Hn. cbn [N.to_uint] in Hn.
  pose proof (DecimalPos.Unsigned.to_uint_nonzero p) as Hz.
  pose proof (DecimalFacts.nzhead_nonzero (Pos.to_uint p)) as Hh.
  assert (Hd : Pos.to_uint p = Decimal.nzhead (Pos.to_uint p)).
  { rewrite Hn at 1. apply DecimalFacts.unorm_nzhead. intros H0.
    apply DecimalFacts.unorm_0 in H0. congruence. }
  rewrite <- Hd in Hh.
  destruct (Pos.to_uint p) as [|d|d|d|d|d|d|d|d|d|d] eqn:Hu;
    [now contradiction Hz | now contradiction (Hh d) | ..];
    eexists; eexists; (split; [reflexivity | vm_compute; discriminate]).
Qed.

Lemma decimal_length_4 y : 1000 <= y <= 9999 -> String.length (decimal y) = 4%nat.
Proof.
  intros Hy. destruct (decimal_digits y) as [Hd _].
  pose proof (int_of_digits_bound _ Hd) as Hb. rewrite int_of_decimal in Hb by lia.
  destruct (decimal_head y ltac:(lia)) as (c & s & Hs & Hc).
  pose proof (int_of_decimal y ltac:(lia)) as Hv. rewrite Hs in Hd, Hv.
  cbn [all_chars] in Hd. apply andb_true_iff in Hd as [Hdc Hds].
  cbn [int_of_digits] in Hv. rewrite int_of_digits_shift in Hv.
  pose proof (int_of_digits_bound _ Hds) as Hbs.
  assert (Hlow : 10 ^ Z.of_nat (String.length s) <= y) by nia.
  rewrite Hs in Hb |- *. cbn [String.length] in Hb |- *.
  assert (Z.of_nat (String.length s) = 3); [|lia].
  assert (H3 : ~ Z.of_nat (String.length s) <= 2).
  { intros H. assert (10 ^ Z.of_nat (S (String.length s)) <= 10 ^ 3)
      by (apply Z.pow_le_mono_r; lia). lia. }
  assert (H4 : ~ 4 <= Z.of_nat (String.length s)).
  { intros H. assert (10 ^ 4 <= 10 ^ Z.of_nat (String.length s))
      by (apply Z.pow_le_mono_r; lia). lia. }
  lia.
Qed.

Lemma zero_fill_4 y :
  1000 <= y <= 9999 -> four_digits y (zero_fill 4 y) = true.
Proof.
  intros Hy. unfold zero_fill. rewrite (decimal_length_4 y Hy).
  change (zeros (4 - 4) ++ decimal y) with (decimal y).
  destruct (decimal_digits y) as [Hd _].
  pose proof (decimal_length_4 y Hy) as Hl.
  pose proof (int_of_decimal y ltac:(lia)) as Hv.
  assert (Hg : int_of_group (decimal y) = y).
  { unfold int_of_group. now rewrite (remove_char_digits " " _ eq_refl Hd). }
  destruct (decimal y) as [|c1 [|c2 [|c3 [|c4 [|]]]]]; try discriminate.
  cbn [four_digits]. cbn [all_chars] in Hd.
  apply andb_true_iff in Hd as [H1 Hd]. apply andb_true_iff in Hd as [H2 Hd].
  apply andb_true_iff in Hd as [H3 Hd]. apply andb_true_iff in Hd as [H4 _].
  now rewrite H1, H2, H3, H4, Hg, Z.eqb_refl.
Qed.

Lemma zero_fill_2 v :
  0 <= v <= 99 -> two_digits v (zero_fill 2 v) = true.
Proof.
  intros Hv.
  assert (Hall : forallb (fun n => two_digits (Z.of_nat n) (zero_fill 2 (Z.of_nat n)))
                         (seq 0 100) = true) by (vm_compute; reflexivity).
  rewrite forallb_forall in Hall. specialize (Hall (Z.to_nat v)).
  rewrite Z2Nat.id in Hall by lia. apply Hall, in_seq. lia.
Qed.

Lemma lit_match_app {A} l rest (k : string -> option A) :
  lit_match l (l ++ rest) k = k rest.
Proof.
  induction l as [|c l IH]; [reflexivity|]. cbn [lit_match append].
  change (String c l ++ rest) with (String c (l ++ rest)). cbn [lit_match].
  now rewrite Ascii.eqb_refl.
Qed.

Lemma plus_match_stop {A} p rest (k : string -> option A) :
  match rest with String c _ => p c = false | EmptyString => True end ->
  plus_match p rest k = None.
Proof. destruct rest as [|c rest]; [reflexivity|]. simpl. now intros ->. Qed.

(** [+] is greedy: it takes the whole run when what follows matches. *)
Lemma plus_match_greedy {A} p f rest (k : string -> option A) a :
  all_chars p f = true -> f <> EmptyString ->
  k rest = Some a ->
  match rest with String c _ => p c = false | EmptyString => True end ->
  plus_match p (f ++ rest) k = Some a.
Proof.
  intros Hall Hne Hk Hstop. induction f as [|c f IH]; [contradiction|].
  cbn [all_chars] in Hall. apply andb_true_iff in Hall as [Hc Hall].
  change (String c f ++ rest) with (String c (f ++ rest)). cbn [plus_match]. rewrite Hc.
  destruct f as [|d f].
  - change ("" ++ rest) with rest. now rewrite (plus_match_stop p rest k Hstop).
  - now rewrite IH.
Qed.

Lemma grp_match {A} r f rest caps (k : string -> list string -> option A) a :
  (forall k' : string -> list string -> option A,
      k' rest caps = Some a -> rmatch r (f ++ rest) caps k' = Some a) ->
  k rest (caps ++ [f])%list = Some a ->
  rmatch (Grp r) (f ++ rest) caps k = Some a.
Proof. intros H Hk. cbn [rmatch]. apply H. now rewrite take_app. Qed.

Lemma year_match {A} f y rest caps (k : string -> list string -> option A) a :
  four_digits y f = true ->
  k rest caps = Some a -> rmatch year_re (f ++ rest) caps k = Some a.
Proof.
  destruct f as [|c1 [|c2 [|c3 [|c4 [|]]]]]; try discriminate. cbn [four_digits].
  intros [[[[H1 H2]%andb_true_iff H3]%andb_true_iff H4]%andb_true_iff _]%andb_true_iff Hk.
  change (String c1 (String c2 (String c3 (String c4 EmptyString))) ++ rest)
    with (String c1 (String c2 (String c3 (String c4 rest)))).
  unfold year_re, seqs. cbn [rmatch]. now rewrite H1, H2, H3, H4.
Qed.

Ltac field_cases v H :=
  let n := fresh "n" in
  let Hn := fresh "Hn" in
  assert (Hn : v = Z.of_nat (Z.to_nat v)) by lia;
  generalize dependent (Z.to_nat v); intros n Hn; subst v;
  do 60 (destruct n as [|n]; [first [lia | vm_compute; rewrite H; reflexivity]|]);
  lia.

Lemma month_match {A} v rest caps (k : string -> list string -> option A) a :
  1 <= v <= 12 ->
  k rest caps = Some a -> rmatch month_re (zero_fill 2 v ++ rest) caps k = Some a.
Proof. intros Hv H. field_cases v H. Qed.

Lemma day_match {A} v rest caps (k : string -> list string -> option A) a :
  1 <= v <= 31 ->
  k rest caps = Some a -> rmatch day_re (zero_fill 2 v ++ rest) caps k = Some a.
Proof. intros Hv H. field_cases v H. Qed.

Lemma hour_match {A} v rest caps (k : string -> list string -> option A) a :
  0 <= v <= 23 ->
  k rest caps = Some a -> rmatch hour_re (zero_fill 2 v ++ rest) caps k = Some a.
Proof. intros Hv H. field_cases v H. Qed.

Lemma minute_match {A} v rest caps (k : string -> list string -> option A) a :
  0 <= v <= 59 ->
  k rest caps = Some a -> rmatch minute_re (zero_fill 2 v ++ rest) caps k = Some a.
Proof. intros Hv H. field_cases v H. Qed.

Lemma second_match {A} v rest caps (k : string -> list string -> option A) a :
  0 <= v <= 59 ->
  k rest caps = Some a -> rmatch second_re (zero_fill 2 v ++ rest) caps k = Some a.
Proof. intros Hv H. field_cases v H. Qed.

End RoundTrip.


Section RoundTripTheorem.

Lemma seq_match {A} r1 r2 s caps (k : string -> list string -> option A) :
  rmatch (Seq r1 r2) s caps k = rmatch r1 s caps (fun s' caps' => rmatch r2 s' caps' k).
Proof. reflexivity. Qed.

Lemma lit_then {A} l r rest caps (k : string -> list string -> option A) :
  rmatch (Seq (Lit l) r) (l ++ rest) caps k = rmatch r rest caps k.
Proof. cbn [rmatch]. now rewrite lit_match_app. Qed.

Lemma plus_then {A} p s caps (k : string -> list string -> option A) :
  rmatch (Plus p) s caps k = plus_match p s (fun s' => k s' caps).
Proof. reflexivity. Qed.

Lemma digit_not_space c : digit c = true -> space c = false.
Proof.
  unfold digit, space, in_range. change (code "0") with 48. change (code "9") with 57.
  lia.
Qed.

Lemma two_digits_inv v f :
  two_digits v f = true ->
  exists c1 c2, f = String c1 (String c2 EmptyString)
                /\ digit c1 = true /\ digit c2 = true /\ int_of_group f = v.
Proof.
  destruct f as [|c1 [|c2 [|]]]; try discriminate. cbn [two_digits].
  intros [[H1 H2]%andb_true_iff H3]%andb_true_iff. exists c1, c2.
  repeat split; auto. lia.
Qed.

Lemma four_digits_inv y f :
  four_digits y f = true ->
  exists c1 c2 c3 c4, f = String c1 (String c2 (String c3 (String c4 EmptyString)))
    /\ digit c1 = true /\ digit c2 = true /\ digit c3 = true /\ digit c4 = true
    /\ int_of_group f = y.
Proof.
  destruct f as [|c1 [|c2 [|c3 [|c4 [|]]]]]; try discriminate. cbn [four_digits].
  intros [[[[H1 H2]%andb_true_iff H3]%andb_true_iff H4]%andb_true_iff H5]%andb_true_iff.
  exists c1, c2, c3, c4. repeat split; auto. lia.
Qed.

Lemma days_in_month_le y m : _days_in_month y m <= 31.
Proof.
  unfold _days_in_month. destruct ((m =? 2) && _is_leap y); [lia|].
  destruct (Z.to_nat m) as [|[|[|[|[|[|[|[|[|[|[|[|[|[|]]]]]]]]]]]]]]; cbn; lia.
Qed.

Lemma valid_datetime_ranges t :
  valid_datetime t ->
  1 <= year t <= 9999 /\ 1 <= month t <= 12 /\ 1 <= day t <= 31
  /\ 0 <= hour t <= 23 /\ 0 <= minute t <= 59 /\ 0 <= second t <= 59.
Proof.
  unfold valid_datetime, new_datetime.
  destruct (_ && _) eqn:H; [|discriminate]. intros _.
  pose proof (days_in_month_le (year t) (month t)). lia.
Qed.

(** The pattern of [strptime] on a printed timestamp: each field is
    captured as it was printed, and nothing is left. *)
Lemma strptime_regex_strftime t :
  valid_datetime t -> 1000 <= year t ->
  re_match strptime_regex (strftime t)
  = Some ([zero_fill 4 (year t); zero_fill 2 (month t); zero_fill 2 (day t);
           zero_fill 2 (hour t); zero_fill 2 (minute t); zero_fill 2 (second t)],
          EmptyString).
Proof.
  intros (Hy & Hm & Hd & HH & HM & HS)%valid_datetime_ranges Hy'.
  unfold re_match, strftime. rewrite strptime_regex_parts. cbn [seqs].
  destruct (two_digits_inv _ _ (zero_fill_2 (hour t) ltac:(lia)))
    as (h1 & h2 & Hh & Hh1 & _ & _).
  rewrite seq_match. apply grp_match.
  { intros k' Hk'. apply year_match with (y := year t); [apply zero_fill_4; lia | exact Hk']. }
  cbn beta. rewrite lit_then, seq_match. apply grp_match.
  { intros k' Hk'. now apply month_match. }
  cbn beta. rewrite lit_then, seq_match. apply grp_match.
  { intros k' Hk'. now apply day_match. }
  cbn beta. rewrite seq_match, plus_then.
  apply (plus_match_greedy space " "); [reflexivity | discriminate | |].
  2: { rewrite Hh. now apply digit_not_space. }
  cbn beta. rewrite seq_match. apply grp_match.
  { intros k' Hk'. now apply hour_match. }
  cbn beta. rewrite lit_then, seq_match. apply grp_match.
  { intros k' Hk'. now apply minute_match. }
  cbn beta. rewrite lit_then.
  rewrite <- (append_nil_r (zero_fill 2 (second t))) at 1. apply grp_match.
  { intros k' Hk'. now apply second_match. }
  reflexivity.
Qed.

Lemma strptime_strftime t :
  valid_datetime t -> 1000 <= year t -> strptime (strftime t) = Ok t.
Proof.
  intros Hv Hy. pose proof (valid_datetime_ranges t Hv) as (Hy' & Hm & Hd & HH & HM & HS).
  unfold strptime. rewrite (strptime_regex_strftime t Hv Hy).
  destruct (four_digits_inv _ _ (zero_fill_4 (year t) ltac:(lia)))
    as (? & ? & ? & ? & _ & _ & _ & _ & _ & ->).
  destruct (two_digits_inv _ _ (zero_fill_2 (month t) ltac:(lia))) as (? & ? & _ & _ & _ & ->).
  destruct (two_digits_inv _ _ (zero_fill_2 (day t) ltac:(lia))) as (? & ? & _ & _ & _ & ->).
  destruct (two_digits_inv _ _ (zero_fill_2 (hour t) ltac:(lia))) as (? & ? & _ & _ & _ & ->).
  destruct (two_digits_inv _ _ (zero_fill_2 (minute t) ltac:(lia))) as (? & ? & _ & _ & _ & ->).
  destruct (two_digits_inv _ _ (zero_fill_2 (second t) ltac:(lia))) as (? & ? & _ & _ & _ & ->).
  exact Hv.
Qed.

(** X20. A timestamp printed by [strftime] is read back by [strptime] as
    the same date and time, for every valid date of a four-digit year. *)
Theorem X20_strptime_strftime t :
  valid_datetime t -> 1000 <= year t -> strptime (strftime t) = Ok t.
Proof. apply strptime_strftime. Qed.

End RoundTripTheorem.

Lemma X20_strptime_strftime_witness :
  strptime (strftime new_year) = Ok new_year.
Proof. apply X20_strptime_strftime; [vm_compute; reflexivity | vm_compute; discriminate]. Defined.


(** ** What the guard reads from a post of the formatter *)

Section ReadBack.

Lemma append_nonempty a b : a <> EmptyString -> a ++ b <> EmptyString.
Proof. destruct a; [contradiction | discriminate]. Qed.

Lemma append_nonempty_r a b : b <> EmptyString -> a ++ b <> EmptyString.
Proof. destruct a; [trivial | discriminate]. Qed.

Lemma zero_fill_nonempty w n : zero_fill w n <> EmptyString.
Proof. unfold zero_fill. apply append_nonempty_r, decimal_digits. Qed.

(** *** Searching *)

Lemma re_search_hit r c s caps rest :
  re_match r (String c s) = Some (caps, rest) -> re_search r (String c s) = Some caps.
Proof. intros H. cbn [re_search]. now rewrite H. Qed.

Lemma re_search_miss r c s :
  re_match r (String c s) = None -> re_search r (String c s) = re_search r s.
Proof. intros H. cbn [re_search]. now rewrite H. Qed.

(** A pattern that begins with a literal character does not match where
    another character stands. *)
Lemma search_skip c l r f rest :
  all_chars (fun d => negb (Ascii.eqb c d)) f = true ->
  re_search (Seq (Lit (String c l)) r) (f ++ rest)
  = re_search (Seq (Lit (String c l)) r) rest.
Proof.
  induction f as [|d f IH]; [reflexivity|]. cbn [all_chars].
  intros [Hd Hf]%andb_true_iff. rewrite append_cons, re_search_miss; [now apply IH|].
  unfold re_match. cbn [rmatch lit_match]. apply negb_true_iff in Hd. now rewrite Hd.
Qed.

(** *** The timestamp *)

Lemma strftime_parts t :
  strftime t
  = (zero_fill 4 (year t) ++ "-" ++ zero_fill 2 (month t) ++ "-" ++ zero_fill 2 (day t))
    ++ " " ++ (zero_fill 2 (hour t) ++ ":" ++ zero_fill 2 (minute t) ++ ":"
               ++ zero_fill 2 (second t)).
Proof. unfold strftime. now rewrite !append_assoc. Qed.

Lemma digit_in_class (extra : string) c :
  digit c = true -> cor digit (one_of extra) c = true.
Proof. unfold cor. now intros ->. Qed.

Lemma zero_fill_in_class extra w n :
  all_chars (cor digit (one_of extra)) (zero_fill w n) = true.
Proof.
  apply (all_chars_impl digit); [apply digit_in_class | apply zero_fill_digits].
Qed.

Lemma timestamp_match t rest :
  re_match timestamp_re ("Analysis - " ++ strftime t ++ nl ++ rest)
  = Some ([strftime t], nl ++ rest).
Proof.
  rewrite strftime_parts.
  set (D := zero_fill 4 (year t) ++ "-" ++ zero_fill 2 (month t) ++ "-"
            ++ zero_fill 2 (day t)).
  set (T := zero_fill 2 (hour t) ++ ":" ++ zero_fill 2 (minute t) ++ ":"
            ++ zero_fill 2 (second t)).
  assert (HD : all_chars (cor digit (one_of "-")) D = true /\ D <> EmptyString).
  { subst D. split; [|apply append_nonempty, zero_fill_nonempty].
    rewrite !all_chars_app, !zero_fill_in_class. reflexivity. }
  assert (HT : all_chars (cor digit (one_of ":")) T = true /\ T <> EmptyString).
  { subst T. split; [|apply append_nonempty, zero_fill_nonempty].
    rewrite !all_chars_app, !zero_fill_in_class. reflexivity. }
  clearbody D T.
  unfold re_match, timestamp_re. rewrite lit_then. apply grp_match; [|reflexivity].
  intros k' Hk'. rewrite !append_assoc. cbn [seqs].
  rewrite seq_match, plus_then.
  apply plus_match_greedy; [apply HD | apply HD | | reflexivity].
  cbn beta. rewrite lit_then, plus_then.
  apply plus_match_greedy; [apply HT | apply HT | exact Hk' | reflexivity].
Qed.

Lemma timestamp_found t rest :
  group1 (re_search timestamp_re ("ETH/BTC Market Analysis - " ++ strftime t ++ nl ++ rest))
  = Some (strftime t).
Proof.
  change ("ETH/BTC Market Analysis - " ++ strftime t ++ nl ++ rest)
    with ("ETH/BTC Market " ++ String "A" ("nalysis - " ++ strftime t ++ nl ++ rest)).
  unfold timestamp_re at 1.
  change (Lit "Analysis - ") with (Lit (String "A" "nalysis - ")).
  rewrite search_skip by reflexivity.
  rewrite (re_search_hit _ _ _ [strftime t] (nl ++ rest)); [reflexivity|].
  apply (timestamp_match t rest).
Qed.

(** No character of a printed timestamp begins a price label. *)
Lemma strftime_skipped c t :
  digit c = false -> one_of "-: " c = false ->
  all_chars (fun d => negb (Ascii.eqb c d)) (strftime t) = true.
Proof.
  intros Hd Ho.
  apply (all_chars_impl (cor digit (one_of "-: "))).
  - intros d Hc. apply negb_true_iff. destruct (Ascii.eqb_spec c d) as [<-|]; [|reflexivity].
    unfold cor in Hc. now rewrite Hd, Ho in Hc.
  - unfold strftime. rewrite !all_chars_app, !zero_fill_in_class. reflexivity.
Qed.

(** *** The prices *)

Lemma price_match c l p rest :
  all_chars price_class p = true -> p <> EmptyString ->
  re_match (Seq (Lit (String c l)) (Grp (Plus price_class)))
           (String c l ++ p ++ " (" ++ rest)
  = Some ([p], " (" ++ rest).
Proof.
  intros Hp Hne. unfold re_match. rewrite lit_then. apply grp_match; [|reflexivity].
  intros k' Hk'. rewrite plus_then. now apply plus_match_greedy.
Qed.

(** *** Printed numbers *)

Lemma group_thousands_chars (p : cclass) ip :
  p ","%char = true -> all_chars p ip = true -> all_chars p (group_thousands ip) = true.
Proof.
  intros Hc. induction ip as [|c ip IH]; [reflexivity|]. cbn [group_thousands all_chars].
  intros [H1 H2]%andb_true_iff. rewrite H1. cbn [andb].
  destruct (_ && _); cbn [all_chars]; rewrite ?Hc; now apply IH.
Qed.

Lemma digit_format_char c : digit c = true -> format_char c = true.
Proof. unfold format_char, cor. now intros ->. Qed.

(** Whatever the number, [format] prints digits, separators, a sign, or
    [inf] or [nan]. *)
Lemma format_f_chars comma p x : all_chars format_char (format_f comma p x) = true.
Proof.
  assert (Hd : forall s, all_chars digit s = true -> all_chars format_char s = true).
  { intros s. apply all_chars_impl, digit_format_char. }
  assert (Hs : forall s : bool, all_chars format_char (if s then "-" else "") = true)
    by now intros [|].
  unfold format_f. destruct (Prim2SF x) as [s|[|]| |s m e]; try reflexivity.
  - rewrite !all_chars_app, Hs. cbn [andb]. destruct (0 <? p)%nat; [|reflexivity].
    rewrite all_chars_app, (Hd _ (zeros_digits p)). reflexivity.
  - cbv zeta. rewrite !all_chars_app, Hs. cbn [andb]. apply andb_true_iff. split.
    + destruct comma; [apply group_thousands_chars; [reflexivity|]|];
        apply Hd, decimal_digits.
    + destruct (0 <? p)%nat; [|reflexivity].
      rewrite all_chars_app, (Hd _ (zero_fill_digits _ _)). reflexivity.
Qed.

Lemma format_f_skipped c comma p x :
  format_char c = false ->
  all_chars (fun d => negb (Ascii.eqb c d)) (format_f comma p x) = true.
Proof.
  intros Hc. apply (all_chars_impl format_char); [|apply format_f_chars].
  intros d Hd. apply negb_true_iff. destruct (Ascii.eqb_spec c d) as [<-|]; congruence.
Qed.

(** A printable price is printed as its cents: the whole part grouped by
    thousands, a point, two digits. *)
Lemma format_price x :
  printable x ->
  format_f true 2 x
  = group_thousands (decimal (cents x / 100)) ++ "." ++ zero_fill 2 (cents x mod 100).
Proof.
  unfold printable, format_f, cents.
  destruct (Prim2SF x) as [[|]|[|]| |[|] m e]; try contradiction; intros _; reflexivity.
Qed.

Lemma scaled_round_nonneg m e p : 0 <= scaled_round (Zpos m) e p.
Proof.
  unfold scaled_round. cbv zeta.
  assert (H10 : 0 < 10 ^ Z.of_nat p) by (apply Z.pow_pos_nonneg; lia).
  destruct (Z.leb_spec 0 e).
  - assert (0 < 2 ^ e) by (apply Z.pow_pos_nonneg; lia). nia.
  - assert (H2 : 0 < 2 ^ (- e)) by (apply Z.pow_pos_nonneg; lia).
    assert (0 <= Z.pos m * 10 ^ Z.of_nat p / 2 ^ (- e)) by (apply Z.div_pos; nia).
    destruct (_ <? _); [assumption|]. destruct (_ <? _); [lia|].
    destruct (Z.even _); lia.
Qed.

Lemma cents_nonneg x : 0 <= cents x.
Proof.
  unfold cents. destruct (Prim2SF x); try lia. apply scaled_round_nonneg.
Qed.

Lemma zero_fill_2_value v :
  0 <= v <= 99 ->
  int_of_digits (zero_fill 2 v) 0 = v /\ String.length (zero_fill 2 v) = 2%nat.
Proof.
  intros Hv.
  assert (Hall : forallb (fun n => (int_of_digits (zero_fill 2 (Z.of_nat n)) 0 =? Z.of_nat n)
                                   && (String.length (zero_fill 2 (Z.of_nat n)) =? 2)%nat)
                         (seq 0 100) = true) by (vm_compute; reflexivity).
  rewrite forallb_forall in Hall.
  assert (Hin : In (Z.to_nat v) (seq 0 100)) by (apply in_seq; lia).
  apply Hall in Hin. rewrite Z2Nat.id in Hin by lia.
  apply andb_true_iff in Hin as [H1 H2].
  split; [lia | now apply Nat.eqb_eq].
Qed.

Lemma remove_char_app c a b :
  remove_char c (a ++ b) = remove_char c a ++ remove_char c b.
Proof.
  induction a as [|d a IH]; [reflexivity|]. rewrite append_cons. cbn [remove_char].
  destruct (Ascii.eqb c d); [exact IH|]. now rewrite append_cons, IH.
Qed.

Lemma digit_not_comma c : digit c = true -> Ascii.eqb "," c = false.
Proof.
  intros H. destruct (Ascii.eqb_spec "," c) as [<-|]; [discriminate | reflexivity].
Qed.

Lemma digit_not_point c : digit c = true -> Ascii.eqb c "." = false.
Proof.
  intros H. destruct (Ascii.eqb_spec c ".") as [->|]; [discriminate | reflexivity].
Qed.

Lemma remove_comma_digits s : all_chars digit s = true -> remove_char "," s = s.
Proof.
  induction s as [|c s IH]; [reflexivity|]. cbn [all_chars remove_char].
  intros [Hc Hs]%andb_true_iff. now rewrite (digit_not_comma c Hc), IH.
Qed.

(** Removing the commas undoes the grouping. *)
Lemma remove_comma_grouped ip :
  all_chars digit ip = true -> remove_char "," (group_thousands ip) = ip.
Proof.
  induction ip as [|c ip IH]; [reflexivity|]. cbn [all_chars group_thousands remove_char].
  intros [Hc Hs]%andb_true_iff. rewrite (digit_not_comma c Hc).
  destruct (_ && _); cbn [remove_char Ascii.eqb]; rewrite ?Ascii.eqb_refl; now rewrite IH.
Qed.

Lemma split_point_digits ip fp :
  all_chars digit ip = true -> split_point (ip ++ "." ++ fp) = (ip, Some fp).
Proof.
  induction ip as [|c ip IH]; [reflexivity|]. cbn [all_chars].
  intros [Hc Hs]%andb_true_iff. rewrite append_cons. cbn [split_point].
  now rewrite (digit_not_point c Hc), IH.
Qed.

(** [float] reads a printed price as its cents over a hundred. *)
Lemma read_price x :
  printable x ->
  python_float (remove_char "," (format_f true 2 x)) = Ok (decimal_to_float (cents x) 2).
Proof.
  intros Hx. rewrite (format_price x Hx).
  pose proof (cents_nonneg x) as Hc.
  destruct (decimal_digits (cents x / 100)) as [Hip Hne].
  pose proof (zero_fill_digits 2 (cents x mod 100)) as Hfp.
  destruct (zero_fill_2_value (cents x mod 100)) as [Hv Hl];
    [pose proof (Z.mod_pos_bound (cents x) 100); lia|].
  assert (Hi : int_of_digits (decimal (cents x / 100)) 0 = cents x / 100)
    by (apply int_of_decimal, Z.div_pos; lia).
  set (ip := decimal (cents x / 100)) in *.
  set (fp := zero_fill 2 (cents x mod 100)) in *.
  rewrite remove_char_app, (remove_comma_grouped ip Hip).
  change (remove_char "," ("." ++ fp)) with (String "." (remove_char "," fp)).
  rewrite (remove_comma_digits fp Hfp).
  unfold python_float. change (String "." fp) with ("." ++ fp).
  rewrite (split_point_digits ip fp Hip), Hip, Hfp. cbn [andb].
  destruct ip as [|c ip']; [contradiction|]. rewrite append_cons. cbn [String.eqb negb].
  rewrite Hl. do 2 f_equal.
  rewrite <- append_cons, int_of_digits_app, Hi, int_of_digits_shift, Hv, Hl.
  change (10 ^ Z.of_nat 2) with 100. pose proof (Z.div_mod (cents x) 100). lia.
Qed.

Lemma price_text x :
  printable x ->
  all_chars price_class (format_f true 2 x) = true /\ format_f true 2 x <> EmptyString.
Proof.
  intros Hx. rewrite (format_price x Hx).
  destruct (decimal_digits (cents x / 100)) as [Hip Hne].
  assert (Hd : forall s, all_chars digit s = true -> all_chars price_class s = true).
  { intros s. apply all_chars_impl. intros c Hc. unfold price_class, cor.
    unfold digit in Hc. now rewrite Hc. }
  split.
  - rewrite !all_chars_app, (Hd _ (zero_fill_digits _ _)).
    rewrite group_thousands_chars; [reflexivity | reflexivity | now apply Hd].
  - destruct (decimal (cents x / 100)) as [|c ip]; [contradiction | discriminate].
Qed.

(** *** The three searches on a post *)

Lemma btc_found t p rest :
  all_chars price_class p = true -> p <> EmptyString ->
  group1 (re_search btc_re ("ETH/BTC Market Analysis - " ++ strftime t ++ nl ++ nl
                            ++ "BTC: $" ++ p ++ " (" ++ rest))
  = Some p.
Proof.
  intros Hp Hne. unfold btc_re.
  change ("ETH/BTC Market Analysis - " ++ strftime t ++ nl ++ nl
          ++ "BTC: $" ++ p ++ " (" ++ rest)
    with ("ETH/" ++ String "B" ("TC Market Analysis - " ++ strftime t ++ nl ++ nl
                                ++ String "B" ("TC: $" ++ p ++ " (" ++ rest))).
  rewrite search_skip by reflexivity.
  rewrite re_search_miss by reflexivity.
  rewrite search_skip by reflexivity.
  rewrite search_skip by (now apply strftime_skipped).
  rewrite !(search_skip _ _ _ nl) by reflexivity.
  rewrite (re_search_hit _ _ _ [p] (" (" ++ rest)); [reflexivity|].
  now apply (price_match "B" "TC: $").
Qed.

Lemma eth_found t p change p' rest :
  all_chars price_class p = true ->
  all_chars format_char change = true ->
  all_chars price_class p' = true -> p' <> EmptyString ->
  group1 (re_search eth_re ("ETH/BTC Market Analysis - " ++ strftime t ++ nl ++ nl
                            ++ "BTC: $" ++ p ++ " (" ++ change ++ "%)" ++ nl
                            ++ "ETH: $" ++ p' ++ " (" ++ rest))
  = Some p'.
Proof.
  intros Hp Hc Hp' Hne. unfold eth_re.
  assert (Hskip : forall (q : cclass) s, q "E"%char = false -> all_chars q s = true ->
                    all_chars (fun d => negb (Ascii.eqb "E" d)) s = true).
  { intros q s Hq. apply all_chars_impl. intros d Hd. apply negb_true_iff.
    destruct (Ascii.eqb_spec "E" d) as [<-|]; congruence. }
  change ("ETH/BTC Market Analysis - " ++ strftime t ++ nl ++ nl
          ++ "BTC: $" ++ p ++ " (" ++ change ++ "%)" ++ nl
          ++ "ETH: $" ++ p' ++ " (" ++ rest)
    with (String "E" ("TH/BTC Market Analysis - " ++ strftime t ++ nl ++ nl
                      ++ "BTC: $" ++ p ++ " (" ++ change ++ "%)" ++ nl
                      ++ String "E" ("TH: $" ++ p' ++ " (" ++ rest))).
  rewrite re_search_miss by reflexivity.
  rewrite search_skip by reflexivity.
  rewrite search_skip by (now apply strftime_skipped).
  rewrite !(search_skip _ _ _ nl) by reflexivity.
  rewrite (search_skip _ _ _ "BTC: $") by reflexivity.
  rewrite (search_skip _ _ _ p) by (now apply (Hskip price_class)).
  rewrite (search_skip _ _ _ " (") by reflexivity.
  rewrite (search_skip _ _ _ change) by (now apply (Hskip format_char)).
  rewrite (search_skip _ _ _ "%)") by reflexivity.
  rewrite (search_skip _ _ _ nl) by reflexivity.
  rewrite (re_search_hit _ _ _ [p'] (" (" ++ rest)); [reflexivity|].
  now apply (price_match "E" "TH: $").
Qed.

(** The extraction on a text that begins with a header of the
    formatter. *)
Lemma header_read now btc eth tail :
  valid_datetime now -> 1000 <= year now ->
  printable (current_price btc) -> printable (current_price eth) ->
  extract_try (base_tweet_of now btc eth ++ tail)
  = Ok (Some (mk_price_data (decimal_to_float (cents (current_price btc)) 2)
                            (decimal_to_float (cents (current_price eth)) 2)
                            (Some now))).
Proof.
  intros Hv Hy Hb He.
  destruct (price_text _ Hb) as [Hb1 Hb2]. destruct (price_text _ He) as [He1 He2].
  unfold extract_try, base_tweet_of. rewrite !append_assoc.
  rewrite timestamp_found, (btc_found now _ _ Hb1 Hb2).
  rewrite (eth_found now _ _ _ _ Hb1 (format_f_chars _ _ _) He1 He2).
  rewrite (read_price _ Hb), (read_price _ He). cbn [rbind].
  now rewrite (strptime_strftime now Hv Hy).
Qed.

Lemma format_starts_with_header now analysis btc eth :
  exists tail, _format_tweet_analysis now analysis btc eth
               = base_tweet_of now btc eth ++ tail.
Proof.
  destruct (format_shape now analysis btc eth) as (n & _ & Heq & _). cbv zeta in Heq.
  rewrite Heq. destruct (_ <? _); [|eauto]. rewrite append_assoc. eauto.
Qed.

(** X21. The guard reads a post of the formatter by its header alone:
    whatever the analysis text contains, the extraction returns the clock
    reading of the post and both prices rounded to cents, and logs
    nothing. This holds for a valid clock reading of a four-digit year and
    prices that are finite with the sign bit clear. *)
Theorem X21_extract_formatted_post now analysis btc eth :
  valid_datetime now -> 1000 <= year now ->
  printable (current_price btc) -> printable (current_price eth) ->
  _extract_price_data (_format_tweet_analysis now analysis btc eth)
  = ([], Some (mk_price_data (decimal_to_float (cents (current_price btc)) 2)
                             (decimal_to_float (cents (current_price eth)) 2)
                             (Some now))).
Proof.
  intros Hv Hy Hb He.
  destruct (format_starts_with_header now analysis btc eth) as [tail ->].
  apply extract_ok. now apply header_read.
Qed.

(** *** Two posts with the same prices *)

Lemma self_change v :
  finite_nonzero v ->
  exists z, price_change v v = Ok z /\ PrimFloat.ltb z MIN_CHANGE_THRESHOLD = true.
Proof.
  unfold finite_nonzero. destruct (Prim2SF v) as [| | |s m e] eqn:Hv; try contradiction.
  intros _. unfold price_change, float_div.
  assert (Hz : PrimFloat.eqb v 0 = false).
  { rewrite eqb_spec, Hv. change (Prim2SF 0) with (S754_zero false). now destruct s. }
  rewrite Hz. cbn [rbind]. eexists. split; [reflexivity|].
  rewrite ltb_spec, abs_spec, mul_spec, div_spec, sub_spec, Hv.
  unfold SF64sub, SFsub. cbv zeta. rewrite Z.sub_diag. cbn [binary_normalize].
  unfold SF64div, SF64mul. cbn [SFdiv].
  change (Prim2SF 100) with (S754_finite false 7036874417766400 (-46)).
  cbn [SFmul SFabs]. reflexivity.
Qed.

Lemma same_prices_compared vb ve now1 now2 :
  finite_nonzero vb -> finite_nonzero ve ->
  match compare_with (mk_price_data vb ve (Some now1)) (mk_price_data vb ve (Some now2)) with
  | Ok (Some _) => total_seconds now1 now2 < 30
  | Ok None => 30 <= total_seconds now1 now2
  | Raise _ => False
  end.
Proof.
  intros Hb He. unfold compare_with. cbn [btc eth timestamp].
  destruct (self_change vb Hb) as (zb & -> & Hzb).
  destruct (self_change ve He) as (ze & -> & Hze).
  cbn [rbind]. rewrite Hzb, Hze. cbn [andb].
  destruct (Z.ltb_spec (total_seconds now1 now2) 30); assumption.
Qed.

(** X22. Two posts of the formatter that print the same prices are told
    apart by their clock readings only: against a history of one such
    post the guard answers [True] exactly when the candidate is stamped
    less than 30 seconds after it, whatever the two analyses say. This
    holds when the prices read back are finite and not zero. *)
Theorem X22_same_prices_guard now1 analysis1 btc1 eth1 now2 analysis2 btc2 eth2 :
  valid_datetime now1 -> 1000 <= year now1 ->
  valid_datetime now2 -> 1000 <= year now2 ->
  printable (current_price btc1) -> printable (current_price eth1) ->
  printable (current_price btc2) -> printable (current_price eth2) ->
  cents (current_price btc1) = cents (current_price btc2) ->
  cents (current_price eth1) = cents (current_price eth2) ->
  finite_nonzero (decimal_to_float (cents (current_price btc2)) 2) ->
  finite_nonzero (decimal_to_float (cents (current_price eth2)) 2) ->
  snd (_is_duplicate_analysis (_format_tweet_analysis now1 analysis1 btc1 eth1)
                              [_format_tweet_analysis now2 analysis2 btc2 eth2])
  = Ok (total_seconds now1 now2 <? 30).
Proof.
  intros Hv1 Hy1 Hv2 Hy2 Hb1 He1 Hb2 He2 Hcb Hce Hfb Hfe.
  destruct (format_starts_with_header now1 analysis1 btc1 eth1) as [tail1 ->].
  destruct (format_starts_with_header now2 analysis2 btc2 eth2) as [tail2 ->].
  pose proof (extract_ok _ _ (header_read now1 btc1 eth1 tail1 Hv1 Hy1 Hb1 He1)) as H1.
  pose proof (extract_ok _ _ (header_read now2 btc2 eth2 tail2 Hv2 Hy2 Hb2 He2)) as H2.
  rewrite Hcb, Hce in H1.
  rewrite (is_duplicate_parsed _ _ _ (f_equal snd H1)).
  rewrite (loop_parsed _ _ _ _ (f_equal snd H2)).
  pose proof (same_prices_compared _ _ now1 now2 Hfb Hfe) as Hc.
  destruct (compare_with _ _) as [[ch|]|e]; [| |contradiction]; cbn [duplicate_loop snd].
  - f_equal. symmetry. now apply Z.ltb_lt.
  - f_equal. symmetry. now apply Z.ltb_ge.
Qed.

End ReadBack.

Lemma X21_extract_formatted_post_witness :
  _extract_price_data
    (_format_tweet_analysis new_year "BTC: $1.00 ETH: $2.00 Analysis - 1999-12-31 23:59:59"
                            btc_coin eth_coin)
  = ([], Some (mk_price_data (decimal_to_float (cents (current_price btc_coin)) 2)
                             (decimal_to_float (cents (current_price eth_coin)) 2)
                             (Some new_year))).
Proof.
  apply X21_extract_formatted_post;
    [vm_compute; reflexivity | vm_compute; discriminate | exact I | exact I].
Defined.

Lemma X22_same_prices_guard_witness :
  snd (_is_duplicate_analysis
         (_format_tweet_analysis (mk_datetime 2024 1 1 0 0 29) "up" btc_coin eth_coin)
         [_format_tweet_analysis new_year "down" btc_coin eth_coin])
  = Ok true.
Proof.
  apply (X22_same_prices_guard (mk_datetime 2024 1 1 0 0 29) "up" btc_coin eth_coin
                               new_year "down" btc_coin eth_coin);
    first [exact I | reflexivity | vm_compute; reflexivity | vm_compute; discriminate].
Defined.


(** ** The new models at sample inputs *)

Section MoreChecks.

Example validate_names_the_blank :
  __init__ sample_int sample_environ
  = (["Missing required configuration: TWITTER_PASSWORD, GOOGLE_SHEET_ID"],
     Raise ValueError).
Proof. vm_compute. reflexivity. Qed.

Example validate_sample : _validate_config sample_config = ([], Ok tt).
Proof. vm_compute. reflexivity. Qed.

Example strip_both_sides : strip "  a b  " = "a b".
Proof. vm_compute. reflexivity. Qed.

Example login_without_password_field :
  _login_to_twitter no_password_field sample_config
  = ([Log starting_login_sequence; Call set_page_load_timeout; Call get_login_page;
      Log navigated_to_login_page; Sleep 5; Log attempting_username;
      Call username_wait; Call username_click; Sleep 1; Call (username_send_keys "agent");
      Log username_entered; Sleep 2; Log attempting_next;
      Call next_wait; Call next_click; Log next_clicked; Sleep 3; Log attempting_password;
      Call password_wait; Log (failed_to_enter_password Timeout)],
     false).
Proof. vm_compute. reflexivity. Qed.

Example verify_at_second_attempt :
  _verify_login slow_home sample_config
  = ([Log starting_verification;
      Log (verification_attempt 1 3);
      Call (verification_method 1 1); Log (verification_method_error 1 Timeout);
      Call (verification_method 1 2); Log (verification_method_error 2 Timeout);
      Call (verification_method 1 3); Log (verification_method_error 3 Timeout);
      Call (verification_method 1 4);
      Log (verification_waiting 8); Sleep 8; Call (wait_and_refresh 1);
      Log (verification_attempt 2 3);
      Call (verification_method 2 1); Log (verification_method_error 1 Timeout);
      Call (verification_method 2 2); Log (verification_method_error 2 Timeout);
      Call (verification_method 2 3); Log (verification_method_error 3 Timeout);
      Call (verification_method 2 4); Log (login_verified 4)],
     true).
Proof. vm_compute. reflexivity. Qed.

Example setup_gives_up :
  fst (start {| setup_pass := fun _ => no_password_field; browser_truthy := true;
                at_cleanup := willing |}
             sample_config (env_of (Json []) 0 0 (Ok []) NoButton) 5)
  = (let failed_login := fst (_login_to_twitter no_password_field sample_config) in
     [Call initialize_driver] ++ failed_login ++ [Log (login_attempt_failed 1); Sleep 15]
     ++ [Call initialize_driver] ++ failed_login ++ [Log (login_attempt_failed 2); Sleep 15]
     ++ [Call initialize_driver] ++ failed_login ++ [Log (login_attempt_failed 3); Sleep 15]
     ++ [Log (bot_execution_error OtherError); Log closing_browser; Call close_browser;
         Sleep 1; Log shutdown])%list.
Proof. vm_compute. reflexivity. Qed.

Example markets_url :
  get_coingecko_markets_url sample_config = "https://api.coingecko.com/api/v3/coins/markets".
Proof. reflexivity. Qed.

Example typed_in_chunks :
  typed_chunks "up #Crypto #ETH" = ["up "; "#Crypto "; "#ETH"].
Proof. vm_compute. reflexivity. Qed.

End MoreChecks.

(** ** The history the guard is given *)

Section History.



End History.

